(** * LearnOpenGL 2.2 basic_lighting_specular: sphere mesh generation and
      the render loops of the single-window and three-window demos.

    The development embeds, from
    [src/2.lighting/2.2.basic_lighting_specular/basic_lighting_specular.cpp]
    and from the three-window program stored next to it,

    - [generateSphere] (identical in both programs),
    - the per-frame light animation,
    - the render loops of the three-window and the single-window
      program, with [processInput] and the callbacks,
    - the exit paths of both [main] functions,
    - the Blinn-Phong fragment shader stored with the three-window
      program.

    Conventions.
    - A C++ [int] is a [Z]; arithmetic on it goes through [Int.add],
      [Int.mul], [Int.sub], which wrap around at 32 bits (what two's
      complement hardware does on the signed overflow that the language
      leaves undefined).
    - A counted loop runs its body over the values its counter takes,
      [lo], [lo + 1], ..., in this order; the increment itself can only
      overflow when the bound is [INT_MAX].
    - A [std::vector<float>] is a [list]; [push_back] appends at the end;
      [operator[]] converts its index to [size_t] and, outside the vector,
      yields the unspecified value [indeterminate].
    - These total functions describe [generateSphere] wherever the grid
      fits [int] indexing.  [Checked] embeds the same code with signed
      overflow, reads outside a vector and a counter that cannot stop
      as undefined behaviour: there a run has no result.
    - [float] and [double] arithmetic is an interface ([FloatOps]): the
      structural results hold for every implementation of it, the
      geometric ones are proved for exact real arithmetic. *)

From Stdlib Require Import ZArith List Lia Bool QArith Reals Qreals Lra.
From Stdlib Require String.
Import ListNotations.
Local Open Scope Z_scope.

(** ** Machine integers *)

Module Int.

Definition INT_MAX : Z := 2147483647.
Definition INT_MIN : Z := -2147483648.

Definition in_range (z : Z) : Prop := INT_MIN <= z <= INT_MAX.

(** Two's complement reduction to 32 bits. *)
Definition wrap (z : Z) : Z := (z + 2147483648) mod 4294967296 - 2147483648.

Definition add (a b : Z) : Z := wrap (a + b).
Definition sub (a b : Z) : Z := wrap (a - b).
Definition mul (a b : Z) : Z := wrap (a * b).

(** Conversion of an [int] to the 64-bit [size_t] of a vector index. *)
Definition to_size_t (z : Z) : Z := z mod 18446744073709551616.

End Int.

(** ** Vectors and counted loops *)

Definition push_back {A : Type} (v : list A) (x : A) : list A := v ++ [x].

(** [v[idx]] with [idx] an [int], as a total function: outside the
    vector it yields [d], where the run itself is undefined (see
    [Checked.vec_at]). *)
Definition vec_at {A : Type} (d : A) (v : list A) (idx : Z) : A :=
  nth (Z.to_nat (Int.to_size_t idx)) v d.

(** The values [lo], [lo+1], ..., [hi-1]. *)
Definition zrange (lo hi : Z) : list Z :=
  map (fun n => lo + Z.of_nat n) (seq 0 (Z.to_nat (hi - lo))).

(** [for (int i = lo; i < hi; ++i) s = body i s;] *)
Definition for_range {S : Type} (lo hi : Z) (body : Z -> S -> S) (s : S) : S :=
  fold_left (fun acc i => body i acc) (zrange lo hi) s.

(** ** Floating point interface *)

Class FloatOps : Type := {
  float : Type;
  double : Type;
  (** the macro [M_PI], a [double] constant *)
  M_PI : double;
  (** a decimal literal with suffix [f] *)
  f_lit : Q -> float;
  (** conversions *)
  d_of_int : Z -> double;
  f_of_int : Z -> float;
  f_of_d : double -> float;
  d_of_f : float -> double;
  (** [double] arithmetic *)
  dmul : double -> double -> double;
  ddiv : double -> double -> double;
  dsub : double -> double -> double;
  (** [float] arithmetic *)
  fadd : float -> float -> float;
  fsub : float -> float -> float;
  fmul : float -> float -> float;
  fdiv : float -> float -> float;
  (** [cosf], [sinf] of <cmath> *)
  cosf : float -> float;
  sinf : float -> float;
  (** [cos], [sin] of <cmath> at a [float] argument *)
  cos_ : float -> float;
  sin_ : float -> float;
  (** what a read outside a vector yields *)
  indeterminate : float
}.

(** ** generateSphere *)

Section GenerateSphere.

Context {ops : FloatOps}.

(** [for (int k = 0; k < 6; ++k) vertices.push_back(tempVertices[kk * 6 + k]);] *)
Definition copy_vertex (tempVertices : list float) (kk : Z)
    (vertices : list float) : list float :=
  for_range 0 6
    (fun k vertices =>
       push_back vertices
         (vec_at indeterminate tempVertices (Int.add (Int.mul kk 6) k)))
    vertices.

(** First loop nest: the [(stackCount+1) x (sectorCount+1)] grid of
    positions and normals, six floats per grid point.  The loops run
    through their bounds, which describes the code for bounds below
    [INT_MAX] (see [Checked.sphereGrid]). *)
Definition sphereGrid (radius : float) (sectorCount stackCount : Z)
    : list float :=
  let sectorStep :=
    f_of_d (ddiv (dmul (d_of_int 2) M_PI) (d_of_int sectorCount)) in
  let stackStep := f_of_d (ddiv M_PI (d_of_int stackCount)) in
  for_range 0 (stackCount + 1)
    (fun i tempVertices =>
       let stackAngle :=
         f_of_d (dsub (ddiv M_PI (d_of_int 2))
                      (d_of_f (fmul (f_of_int i) stackStep))) in
       let xy := fmul radius (cosf stackAngle) in
       let z := fmul radius (sinf stackAngle) in
       for_range 0 (sectorCount + 1)
         (fun j tempVertices =>
            let sectorAngle := fmul (f_of_int j) sectorStep in
            let x := fmul xy (cosf sectorAngle) in
            let y := fmul xy (sinf sectorAngle) in
            let nx := fdiv x radius in
            let ny := fdiv y radius in
            let nz := fdiv z radius in
            let tempVertices := push_back tempVertices x in
            let tempVertices := push_back tempVertices y in
            let tempVertices := push_back tempVertices z in
            let tempVertices := push_back tempVertices nx in
            let tempVertices := push_back tempVertices ny in
            let tempVertices := push_back tempVertices nz in
            tempVertices)
         tempVertices)
    [].

(** Second loop nest: the triangles, copied out of the grid. *)
Definition triangulate (tempVertices : list float)
    (sectorCount stackCount : Z) (vertices : list float) : list float :=
  for_range 0 stackCount
    (fun i vertices =>
       for_range 0 sectorCount
         (fun j vertices =>
            let k1 := Int.add (Int.mul i (Int.add sectorCount 1)) j in
            let k2 := Int.add k1 1 in
            let k3 :=
              Int.add (Int.mul (Int.add i 1) (Int.add sectorCount 1)) j in
            let k4 := Int.add k3 1 in
            let vertices :=
              if negb (i =? 0) then
                let vertices := copy_vertex tempVertices k1 vertices in
                let vertices := copy_vertex tempVertices k2 vertices in
                let vertices := copy_vertex tempVertices k3 vertices in
                vertices
              else vertices in
            let vertices :=
              if negb (i =? Int.sub stackCount 1) then
                let vertices := copy_vertex tempVertices k2 vertices in
                let vertices := copy_vertex tempVertices k4 vertices in
                let vertices := copy_vertex tempVertices k3 vertices in
                vertices
              else vertices in
            vertices)
         vertices)
    vertices.

(** [void generateSphere(std::vector<float>& vertices, float radius,
    int sectorCount, int stackCount)]: the result is the contents of
    [vertices] when the call returns. *)
Definition generateSphere (vertices : list float) (radius : float)
    (sectorCount stackCount : Z) : list float :=
  let tempVertices := sphereGrid radius sectorCount stackCount in
  triangulate tempVertices sectorCount stackCount vertices.

End GenerateSphere.

(** ** Reading the generated buffer *)

Section SphereLayout.

Context {ops : FloatOps}.

(** Number of floats the first loop nest stores. *)
Definition grid_size (sectorCount stackCount : Z) : Z :=
  6 * (stackCount + 1) * (sectorCount + 1).

(** The flat indices of the grid stay representable in an [int]. *)
Definition grid_fits (sectorCount stackCount : Z) : Prop :=
  grid_size sectorCount stackCount <= Int.INT_MAX.

(** The six floats pushed for grid point [(i, j)], with the expressions
    of the first loop nest. *)
Definition grid_point (radius : float) (sectorCount stackCount i j : Z)
    : list float :=
  let sectorStep :=
    f_of_d (ddiv (dmul (d_of_int 2) M_PI) (d_of_int sectorCount)) in
  let stackStep := f_of_d (ddiv M_PI (d_of_int stackCount)) in
  let stackAngle :=
    f_of_d (dsub (ddiv M_PI (d_of_int 2))
                 (d_of_f (fmul (f_of_int i) stackStep))) in
  let xy := fmul radius (cosf stackAngle) in
  let z := fmul radius (sinf stackAngle) in
  let sectorAngle := fmul (f_of_int j) sectorStep in
  let x := fmul xy (cosf sectorAngle) in
  let y := fmul xy (sinf sectorAngle) in
  [x; y; z; fdiv x radius; fdiv y radius; fdiv z radius].

(** The indices [kk * 6 + k], [k = 0..5], as the code computes them. *)
Definition vertex_reads (kk : Z) : list Z :=
  map (fun k => Int.add (Int.mul kk 6) k) (zrange 0 6).

(** The six floats [tempVertices[kk * 6 + k]], [k = 0..5]. *)
Definition vertex_floats (tempVertices : list float) (kk : Z) : list float :=
  map (vec_at indeterminate tempVertices) (vertex_reads kk).

(** The indices one iteration of the inner triangulation loop reads, in
    the order it reads them. *)
Definition cell_reads (sectorCount stackCount i j : Z) : list Z :=
  let k1 := Int.add (Int.mul i (Int.add sectorCount 1)) j in
  let k2 := Int.add k1 1 in
  let k3 := Int.add (Int.mul (Int.add i 1) (Int.add sectorCount 1)) j in
  let k4 := Int.add k3 1 in
  (if negb (i =? 0)
   then vertex_reads k1 ++ vertex_reads k2 ++ vertex_reads k3 else [])
  ++
  (if negb (i =? Int.sub stackCount 1)
   then vertex_reads k2 ++ vertex_reads k4 ++ vertex_reads k3 else []).

Definition all_reads (sectorCount stackCount : Z) : list Z :=
  flat_map
    (fun i => flat_map (cell_reads sectorCount stackCount i)
                       (zrange 0 sectorCount))
    (zrange 0 stackCount).

(** An [int] index, converted to [size_t], lies inside the vector. *)
Definition in_bounds {A : Type} (v : list A) (idx : Z) : Prop :=
  Int.to_size_t idx < Z.of_nat (length v).

(** Triangulation as the specification words it: corner numbers of cell
    [(i, j)] and the triangles kept for it. *)
Definition corner_k1 (sectorCount i j : Z) : Z := i * (sectorCount + 1) + j.
Definition corner_k2 (sectorCount i j : Z) : Z := corner_k1 sectorCount i j + 1.
Definition corner_k3 (sectorCount i j : Z) : Z :=
  (i + 1) * (sectorCount + 1) + j.
Definition corner_k4 (sectorCount i j : Z) : Z := corner_k3 sectorCount i j + 1.

Definition spec_cell_triangles (sectorCount stackCount i j : Z)
    : list (Z * Z * Z) :=
  (if i =? 0 then []
   else [(corner_k1 sectorCount i j, corner_k2 sectorCount i j,
          corner_k3 sectorCount i j)])
  ++
  (if i =? stackCount - 1 then []
   else [(corner_k2 sectorCount i j, corner_k4 sectorCount i j,
          corner_k3 sectorCount i j)]).

Definition spec_triangles (sectorCount stackCount : Z) : list (Z * Z * Z) :=
  flat_map
    (fun i => flat_map (spec_cell_triangles sectorCount stackCount i)
                       (zrange 0 sectorCount))
    (zrange 0 stackCount).

(** The 18 floats of one triangle given by three grid point numbers. *)
Definition triangle_floats (tempVertices : list float) (t : Z * Z * Z)
    : list float :=
  let '(a, b, c) := t in
  vertex_floats tempVertices a ++ vertex_floats tempVertices b
    ++ vertex_floats tempVertices c.

(** A vertex as the attribute pointers of [main] read it: stride six
    floats, position at offset 0, normal at offset 3. *)
Record Vertex : Type := mkVertex {
  px : float; py : float; pz : float;
  nx : float; ny : float; nz : float
}.

Fixpoint decode_vertices (buffer : list float) : list Vertex :=
  match buffer with
  | x :: y :: z :: a :: b :: c :: rest =>
      mkVertex x y z a b c :: decode_vertices rest
  | _ => []
  end.

(** [sphereVertices.size() / 6], the vertex count [main] draws. *)
Definition vertex_count (buffer : list float) : Z :=
  Z.of_nat (length buffer) / 6.

End SphereLayout.

(** ** The call with its undefined behaviour made explicit *)

(** [generateSphere] validates nothing.  In the definitions above [int]
    arithmetic wraps around and a read outside the grid yields
    [indeterminate]: that is what the compiled code computes up to the
    faulting read, and it describes the call wherever the grid fits.
    In C++ signed overflow and a read outside a vector have undefined
    behaviour, and a loop [for (int i = 0; i <= n; ++i)] with
    [n = INT_MAX] cannot end without overflowing its counter.  Here a run
    that reaches one of these has no result ([None]).  Exhaustion of
    memory by [push_back] is not modelled. *)
Module Checked.

(** An [int] result is defined when it is representable. *)
Definition int (z : Z) : option Z :=
  if (Int.INT_MIN <=? z) && (z <=? Int.INT_MAX) then Some z else None.

Definition add (a b : Z) : option Z := int (a + b).
Definition sub (a b : Z) : option Z := int (a - b).
Definition mul (a b : Z) : option Z := int (a * b).

(** Sequencing: nothing follows undefined behaviour. *)
Definition bind {A B : Type} (m : option A) (k : A -> option B) : option B :=
  match m with
  | Some a => k a
  | None => None
  end.

Declare Scope run_scope.
Delimit Scope run_scope with run.
Notation "x <- m ;; k" := (bind m (fun x => k))
  (at level 61, m at next level, right associativity) : run_scope.
Local Open Scope run_scope.

(** [v[idx]] with [idx] an [int]: defined inside the vector. *)
Definition vec_at {A : Type} (v : list A) (idx : Z) : option A :=
  if 0 <=? idx then nth_error v (Z.to_nat idx) else None.

(** [for (int i = lo; i < hi; ++i) body;] *)
Definition for_range {S : Type} (lo hi : Z) (body : Z -> S -> option S)
    (s : S) : option S :=
  fold_left (fun acc i => bind acc (body i)) (zrange lo hi) (Some s).

(** [for (int i = lo; i <= hi; ++i) body;]: with [hi = INT_MAX] the
    condition never fails and the counter overflows. *)
Definition for_through {S : Type} (lo hi : Z) (body : Z -> S -> option S)
    (s : S) : option S :=
  if hi =? Int.INT_MAX then None else for_range lo (hi + 1) body s.

Section GenerateSphere.

Context {ops : FloatOps}.

(** [vertices.push_back(tempVertices[kk * 6 + k]);] *)
Definition push_read (tempVertices : list float) (kk k : Z)
    (vertices : list float) : option (list float) :=
  base <- mul kk 6 ;;
  idx <- add base k ;;
  x <- vec_at tempVertices idx ;;
  Some (push_back vertices x).

(** [for (int k = 0; k < 6; ++k) vertices.push_back(tempVertices[kk * 6 + k]);] *)
Definition copy_vertex (tempVertices : list float) (kk : Z)
    (vertices : list float) : option (list float) :=
  for_range 0 6 (push_read tempVertices kk) vertices.

(** First loop nest. *)
Definition sphereGrid (radius : float) (sectorCount stackCount : Z)
    : option (list float) :=
  let sectorStep :=
    f_of_d (ddiv (dmul (d_of_int 2) M_PI) (d_of_int sectorCount)) in
  let stackStep := f_of_d (ddiv M_PI (d_of_int stackCount)) in
  for_through 0 stackCount
    (fun i tempVertices =>
       let stackAngle :=
         f_of_d (dsub (ddiv M_PI (d_of_int 2))
                      (d_of_f (fmul (f_of_int i) stackStep))) in
       let xy := fmul radius (cosf stackAngle) in
       let z := fmul radius (sinf stackAngle) in
       for_through 0 sectorCount
         (fun j tempVertices =>
            let sectorAngle := fmul (f_of_int j) sectorStep in
            let x := fmul xy (cosf sectorAngle) in
            let y := fmul xy (sinf sectorAngle) in
            let nx := fdiv x radius in
            let ny := fdiv y radius in
            let nz := fdiv z radius in
            let tempVertices := push_back tempVertices x in
            let tempVertices := push_back tempVertices y in
            let tempVertices := push_back tempVertices z in
            let tempVertices := push_back tempVertices nx in
            let tempVertices := push_back tempVertices ny in
            let tempVertices := push_back tempVertices nz in
            Some tempVertices)
         tempVertices)
    [].

(** One pass of the inner triangulation loop. *)
Definition cell (tempVertices : list float) (sectorCount stackCount i j : Z)
    (vertices : list float) : option (list float) :=
  width <- add sectorCount 1 ;;
  row <- mul i width ;;
  k1 <- add row j ;;
  k2 <- add k1 1 ;;
  below <- add i 1 ;;
  width' <- add sectorCount 1 ;;
  next <- mul below width' ;;
  k3 <- add next j ;;
  k4 <- add k3 1 ;;
  vertices <-
    (if negb (i =? 0) then
       vertices <- copy_vertex tempVertices k1 vertices ;;
       vertices <- copy_vertex tempVertices k2 vertices ;;
       copy_vertex tempVertices k3 vertices
     else Some vertices) ;;
  last <- sub stackCount 1 ;;
  if negb (i =? last) then
    vertices <- copy_vertex tempVertices k2 vertices ;;
    vertices <- copy_vertex tempVertices k4 vertices ;;
    copy_vertex tempVertices k3 vertices
  else Some vertices.

(** Second loop nest. *)
Definition triangulate (tempVertices : list float)
    (sectorCount stackCount : Z) (vertices : list float)
    : option (list float) :=
  for_range 0 stackCount
    (fun i vertices =>
       for_range 0 sectorCount
         (cell tempVertices sectorCount stackCount i)
         vertices)
    vertices.

(** [generateSphere]: the contents of [vertices] when the call returns,
    if its behaviour is defined. *)
Definition generateSphere (vertices : list float) (radius : float)
    (sectorCount stackCount : Z) : option (list float) :=
  tempVertices <- sphereGrid radius sectorCount stackCount ;;
  triangulate tempVertices sectorCount stackCount vertices.

End GenerateSphere.

End Checked.



(** ** The programs around it: state, collaborators, calls *)

Record vec3 {ops : FloatOps} : Type := mkVec3 {
  vx : float; vy : float; vz : float
}.
Arguments mkVec3 {ops} vx vy vz.

Inductive Camera_Movement : Type := FORWARD | BACKWARD | LEFT | RIGHT.

Inductive Key : Type := KEY_ESCAPE | KEY_W | KEY_S | KEY_A | KEY_D.

(** The camera of <learnopengl/camera.h> and the matrix functions of glm:
    their code is outside this directory, so they are an interface. *)
Class Collaborators {ops : FloatOps} : Type := {
  Camera : Type;
  mat4 : Type;
  (** [Camera(position)] followed by the assignment of [Front] *)
  Camera_looking : vec3 -> vec3 -> Camera;
  (** [Camera(position)] *)
  Camera_at : vec3 -> Camera;
  ProcessKeyboard : Camera -> Camera_Movement -> float -> Camera;
  ProcessMouseMovement : Camera -> float -> float -> Camera;
  ProcessMouseScroll : Camera -> float -> Camera;
  Position : Camera -> vec3;
  Zoom : Camera -> float;
  GetViewMatrix : Camera -> mat4;
  radians : float -> float;
  perspective : float -> float -> float -> float -> mat4;
  mat4_identity : mat4;
  translate : mat4 -> vec3 -> mat4;
  scale : mat4 -> vec3 -> mat4
}.

Inductive Shader : Type := lightingShader | lightCubeShader.

Inductive GLObject : Type := sphereVAO | VBO | lightCubeVAO | lightVBO.

(** What the windowing system delivers during [glfwPollEvents]. *)
Inductive InputEvent {ops : FloatOps} : Type :=
| CursorPos (xpos ypos : double)
| Scroll (xoffset yoffset : double)
| FramebufferSize (width height : Z)
| CloseRequest.
Arguments CursorPos {ops} xpos ypos.
Arguments Scroll {ops} xoffset yoffset.
Arguments FramebufferSize {ops} width height.
Arguments CloseRequest {ops}.

(** Calls into GLFW, GLAD, OpenGL and the shader class, with the index of
    the window they concern. *)
Inductive Call {ops : FloatOps} {ext : Collaborators} : Type :=
| glfwInit
| glfwWindowHint
| glfwCreateWindow (w : nat)
| glfwTerminate
| print (msg : String.string)
| glfwMakeContextCurrent (w : nat)
| glfwSetCallbacks (w : nat)
| glfwSetInputMode (w : nat)
| gladLoadGLLoader
| glEnable_DEPTH_TEST
| new_Shader (w : nat) (s : Shader) (vs fs : String.string)
| glGen (w : nat) (o : GLObject)
| glBindBuffer (w : nat) (o : GLObject)
| glBufferData (w : nat) (o : GLObject) (floats : Z)
| glVertexAttribPointer (w : nat) (o : GLObject) (location : Z)
| glEnableVertexAttribArray (location : Z)
| glfwGetVideoMode
| glfwSetWindowPos (w : nat)
| glClearColor
| glClear
| Shader_use (w : nat) (s : Shader)
| setVec3 (w : nat) (s : Shader) (name : String.string) (v : vec3)
| setMat4 (w : nat) (s : Shader) (name : String.string) (m : mat4)
| glBindVertexArray (w : nat) (o : GLObject)
| glDrawArrays (first count : Z)
| glfwSwapBuffers (w : nat)
| glfwPollEvents
| glViewport (width height : Z)
| delete_Shader (w : nat) (s : Shader)
| glDelete (w : nat) (o : GLObject).

Section ProgramState.

Context {ops : FloatOps} {ext : Collaborators}.

(** One window: the close flag GLFW keeps for it and the fields of
    [WindowData] (in the single-window program, the globals [camera],
    [lastX], [lastY], [firstMouse]). *)
Record WindowData : Type := mkWindowData {
  shouldClose : bool;
  camera : Camera;
  lastX : float;
  lastY : float;
  firstMouse : bool
}.

Record State : Type := mkState {
  windows : nat -> WindowData;
  deltaTime : float;
  lastFrame : float;
  lightPos : vec3
}.

(** What one pass of the render loop receives from outside. *)
Record FrameInput : Type := mkFrameInput {
  (** first [glfwGetTime()] of the pass *)
  time_frame : double;
  (** second [glfwGetTime()] of the pass, for the light *)
  time_light : double;
  (** [glfwGetKey(window, key) == GLFW_PRESS] *)
  key_pressed : nat -> Key -> bool;
  (** events delivered by [glfwPollEvents], in order *)
  polled : list (nat * InputEvent)
}.

(** What the run of [main] receives from outside. *)
Record Env : Type := mkEnv {
  (** [glfwCreateWindow] returned a window *)
  window_created : nat -> bool;
  (** result of the [n]-th call of [gladLoadGLLoader] *)
  glad_loaded : nat -> bool;
  (** the passes of the render loop the environment drives *)
  frames : list FrameInput
}.

(** Programs: state passing, with the calls made. *)
Definition Prog (A : Type) : Type := State -> A * State * list Call.

Definition ret {A : Type} (a : A) : Prog A := fun s => (a, s, []).

Definition bind {A B : Type} (m : Prog A) (k : A -> Prog B) : Prog B :=
  fun s =>
    let '(a, s1, t1) := m s in
    let '(b, s2, t2) := k a s1 in
    (b, s2, t1 ++ t2).

Definition call (c : Call) : Prog unit := fun s => (tt, s, [c]).

Definition gets {A : Type} (f : State -> A) : Prog A := fun s => (f s, s, []).

Definition modify (f : State -> State) : Prog unit := fun s => (tt, f s, []).

Definition when (b : bool) (m : Prog unit) : Prog unit :=
  if b then m else ret tt.

(** [for (i : is) body i], without early exit. *)
Fixpoint for_each {A : Type} (l : list A) (body : A -> Prog unit) : Prog unit :=
  match l with
  | [] => ret tt
  | x :: rest => bind (body x) (fun _ => for_each rest body)
  end.

Definition update_window (i : nat) (f : WindowData -> WindowData) : Prog unit :=
  modify (fun s =>
    mkState (fun n => if Nat.eqb n i then f (windows s n) else windows s n)
            (deltaTime s) (lastFrame s) (lightPos s)).

Definition set_deltaTime (x : float) : Prog unit :=
  modify (fun s => mkState (windows s) x (lastFrame s) (lightPos s)).

Definition set_lastFrame (x : float) : Prog unit :=
  modify (fun s => mkState (windows s) (deltaTime s) x (lightPos s)).

Definition set_lightPos_x (x : float) : Prog unit :=
  modify (fun s => mkState (windows s) (deltaTime s) (lastFrame s)
                     (mkVec3 x (vy (lightPos s)) (vz (lightPos s)))).

Definition set_lightPos_y (y : float) : Prog unit :=
  modify (fun s => mkState (windows s) (deltaTime s) (lastFrame s)
                     (mkVec3 (vx (lightPos s)) y (vz (lightPos s)))).

Definition set_camera (c : Camera) (wd : WindowData) : WindowData :=
  mkWindowData (shouldClose wd) c (lastX wd) (lastY wd) (firstMouse wd).

(** [glfwSetWindowShouldClose(window, value)] *)
Definition glfwSetWindowShouldClose (i : nat) (value : bool) : Prog unit :=
  update_window i (fun wd =>
    mkWindowData value (camera wd) (lastX wd) (lastY wd) (firstMouse wd)).

(** [glfwWindowShouldClose(window)] *)
Definition glfwWindowShouldClose (i : nat) : Prog bool :=
  gets (fun s => shouldClose (windows s i)).

Definition vec3_lit (x y z : Q) : vec3 := mkVec3 (f_lit x) (f_lit y) (f_lit z).

(** State when [main] starts: the initialised globals. *)
Definition initial_state (wd : WindowData) : State :=
  mkState (fun _ => wd) (f_lit 0) (f_lit 0) (vec3_lit 0 0 (35 # 10)).

(** The light animation, the same statements in both programs; [time]
    is what [glfwGetTime()] returns there. *)
Definition update_light (time : double) : Prog unit :=
  let lightRadius := f_lit 2 in
  let lightSpeed := f_lit 1 in
  let angle := fmul (f_of_d time) lightSpeed in
  let lightCenter := vec3_lit 0 0 (35 # 10) in
  bind (set_lightPos_x (fadd (vx lightCenter) (fmul (sin_ angle) lightRadius)))
    (fun _ =>
       set_lightPos_y (fadd (vy lightCenter) (fmul (cos_ angle) lightRadius))).

End ProgramState.

Declare Scope prog_scope.
Delimit Scope prog_scope with prog.
Notation "x <- m ;; k" := (bind m (fun x => k))
  (at level 61, m at next level, right associativity) : prog_scope.
Notation "m ;; k" := (bind m (fun _ => k))
  (at level 61, right associativity) : prog_scope.

(** ** The three-window program *)

Module MultiWindow.
Section Program.

Context {ops : FloatOps} {ext : Collaborators}.
Import String.
Local Open Scope prog_scope.
Local Open Scope string_scope.

Definition SCR_WIDTH : Z := 800.
Definition SCR_HEIGHT : Z := 600.

(** [void processInput(WindowData &windowData, float deltaTime)] *)
Definition processInput (i : nat) (pressed : Key -> bool) (deltaTime : float)
    : Prog unit :=
  when (pressed KEY_ESCAPE) (glfwSetWindowShouldClose i true) ;;
  when (pressed KEY_W)
    (update_window i (fun wd =>
       set_camera (ProcessKeyboard (camera wd) FORWARD deltaTime) wd)) ;;
  when (pressed KEY_S)
    (update_window i (fun wd =>
       set_camera (ProcessKeyboard (camera wd) BACKWARD deltaTime) wd)) ;;
  when (pressed KEY_A)
    (update_window i (fun wd =>
       set_camera (ProcessKeyboard (camera wd) LEFT deltaTime) wd)) ;;
  when (pressed KEY_D)
    (update_window i (fun wd =>
       set_camera (ProcessKeyboard (camera wd) RIGHT deltaTime) wd)).

(** The cursor position lambda installed on every window. *)
Definition cursor_callback (xpos ypos : double) (data : WindowData)
    : WindowData :=
  let data :=
    if firstMouse data
    then mkWindowData (shouldClose data) (camera data)
                      (f_of_d xpos) (f_of_d ypos) false
    else data in
  let xoffset := f_of_d (dsub xpos (d_of_f (lastX data))) in
  let yoffset := f_of_d (dsub (d_of_f (lastY data)) ypos) in
  mkWindowData (shouldClose data)
               (ProcessMouseMovement (camera data) xoffset yoffset)
               (f_of_d xpos) (f_of_d ypos) (firstMouse data).

(** The scroll lambda installed on every window. *)
Definition scroll_callback (yoffset : double) (data : WindowData)
    : WindowData :=
  set_camera (ProcessMouseScroll (camera data) (f_of_d yoffset)) data.

(** [glfwPollEvents()]: the callbacks run on what was delivered. *)
Definition deliver (e : nat * InputEvent) : Prog unit :=
  let '(i, ev) := e in
  match ev with
  | CursorPos xpos ypos => update_window i (cursor_callback xpos ypos)
  | Scroll _ yoffset => update_window i (scroll_callback yoffset)
  | FramebufferSize width height => call (glViewport width height)
  | CloseRequest => glfwSetWindowShouldClose i true
  end.

(** Body of [for (int i = 0; i < 3; i++)] inside the render loop. *)
Definition render_window (sphereVertices : list float) (inp : FrameInput)
    (i : nat) : Prog unit :=
  closed <- glfwWindowShouldClose i ;;
  if closed then ret tt
  else
    call (glfwMakeContextCurrent i) ;;
    dt <- gets deltaTime ;;
    processInput i (key_pressed inp i) dt ;;
    call glClearColor ;;
    call glClear ;;
    call (Shader_use i lightingShader) ;;
    call (setVec3 i lightingShader "objectColor" (vec3_lit 1 (5 # 10) (31 # 100))) ;;
    call (setVec3 i lightingShader "lightColor"
            (vec3_lit (12 # 10) (12 # 10) (12 # 10))) ;;
    light <- gets lightPos ;;
    call (setVec3 i lightingShader "lightPos" light) ;;
    cam <- gets (fun s => camera (windows s i)) ;;
    call (setVec3 i lightingShader "viewPos" (Position cam)) ;;
    let projection :=
      perspective (radians (Zoom cam))
                  (fdiv (f_of_int SCR_WIDTH) (f_of_int SCR_HEIGHT))
                  (f_lit (1 # 10)) (f_lit 100) in
    let view := GetViewMatrix cam in
    call (setMat4 i lightingShader "projection" projection) ;;
    call (setMat4 i lightingShader "view" view) ;;
    let model := mat4_identity in
    call (setMat4 i lightingShader "model" model) ;;
    call (glBindVertexArray i sphereVAO) ;;
    call (glDrawArrays 0 (vertex_count sphereVertices)) ;;
    call (Shader_use i lightCubeShader) ;;
    call (setMat4 i lightCubeShader "projection" projection) ;;
    call (setMat4 i lightCubeShader "view" view) ;;
    let model := mat4_identity in
    let model := translate model light in
    let model := scale model (vec3_lit (2 # 10) (2 # 10) (2 # 10)) in
    call (setMat4 i lightCubeShader "model" model) ;;
    call (glBindVertexArray i lightCubeVAO) ;;
    call (glDrawArrays 0 36) ;;
    call (glfwSwapBuffers i).

(** Body of the render loop. *)
Definition frame (sphereVertices : list float) (inp : FrameInput) : Prog unit :=
  let currentFrame := f_of_d (time_frame inp) in
  last <- gets lastFrame ;;
  set_deltaTime (fsub currentFrame last) ;;
  set_lastFrame currentFrame ;;
  update_light (time_light inp) ;;
  for_each [0%nat; 1%nat; 2%nat] (render_window sphereVertices inp) ;;
  call glfwPollEvents ;;
  for_each (polled inp) deliver.

(** The condition of the [while]. *)
Definition loop_condition (s : State) : bool :=
  negb (shouldClose (windows s 0%nat))
  && negb (shouldClose (windows s 1%nat))
  && negb (shouldClose (windows s 2%nat)).

(** The render loop over the passes the environment drives: [true] when
    the loop was left, [false] when the passes ran out while it was still
    running. *)
Fixpoint render_loop (sphereVertices : list float) (inputs : list FrameInput)
    : Prog bool :=
  fun s =>
    if loop_condition s then
      match inputs with
      | [] => ret false s
      | inp :: rest =>
          (frame sphereVertices inp ;;
           render_loop sphereVertices rest) s
      end
    else ret true s.

(** First setup loop: the fields of [windows[i]]. *)
Definition init_window_data (i : nat) : Prog unit :=
  let cameraPos := vec3_lit (5 # 10) (5 # 10) 2 in
  let cameraTarget := vec3_lit 0 0 0 in
  update_window i (fun wd =>
    mkWindowData (shouldClose wd) (Camera_looking cameraPos cameraTarget)
                 (fdiv (f_of_int SCR_WIDTH) (f_lit 2))
                 (fdiv (f_of_int SCR_HEIGHT) (f_lit 2))
                 true).

(** Second setup loop: callbacks and GLAD for each window; [false] is
    the [return -1] inside it. *)
Fixpoint setup_callbacks (env : Env) (l : list nat) : Prog bool :=
  match l with
  | [] => ret true
  | i :: rest =>
      call (glfwMakeContextCurrent i) ;;
      call (glfwSetCallbacks i) ;;
      call gladLoadGLLoader ;;
      if negb (glad_loaded env i) then
        call (print "Failed to initialize GLAD") ;;
        ret false
      else
        call glEnable_DEPTH_TEST ;;
        setup_callbacks env rest
  end.

Definition load_shaders : Prog unit :=
  call (glfwMakeContextCurrent 0) ;;
  call (new_Shader 2 lightingShader "2.2.basic_lighting.vs" "2.2.basic_lighting.fs") ;;
  call (new_Shader 2 lightCubeShader "2.2.light_cube.vs" "2.2.light_cube.fs") ;;
  call (glfwMakeContextCurrent 1) ;;
  call (new_Shader 1 lightingShader "2.2.gouraud_lighting.vs" "2.2.gouraud_lighting.fs") ;;
  call (new_Shader 1 lightCubeShader "2.2.light_cube.vs" "2.2.light_cube.fs") ;;
  call (glfwMakeContextCurrent 2) ;;
  call (new_Shader 0 lightingShader "2.2.flat_lighting.vs" "2.2.flat_lighting.fs") ;;
  call (new_Shader 0 lightCubeShader "2.2.light_cube.vs" "2.2.light_cube.fs").

(** Third setup loop: the buffers of window [i]. *)
Definition setup_buffers (sphereVertices : list float) (i : nat) : Prog unit :=
  call (glfwMakeContextCurrent i) ;;
  call (glGen i sphereVAO) ;;
  call (glGen i VBO) ;;
  call (glBindBuffer i VBO) ;;
  call (glBufferData i VBO (Z.of_nat (List.length sphereVertices))) ;;
  call (glBindVertexArray i sphereVAO) ;;
  call (glVertexAttribPointer i sphereVAO 0) ;;
  call (glEnableVertexAttribArray 0) ;;
  call (glVertexAttribPointer i sphereVAO 1) ;;
  call (glEnableVertexAttribArray 1) ;;
  call (glGen i lightCubeVAO) ;;
  call (glGen i lightVBO) ;;
  call (glBindBuffer i lightVBO) ;;
  call (glBufferData i lightVBO 216) ;;
  call (glBindVertexArray i lightCubeVAO) ;;
  call (glVertexAttribPointer i lightCubeVAO 0) ;;
  call (glEnableVertexAttribArray 0).

Definition teardown : Prog unit :=
  for_each [0%nat; 1%nat; 2%nat] (fun i =>
    call (delete_Shader i lightingShader) ;;
    call (delete_Shader i lightCubeShader)) ;;
  for_each [0%nat; 1%nat; 2%nat] (fun i =>
    call (glDelete i sphereVAO) ;;
    call (glDelete i lightCubeVAO) ;;
    call (glDelete i VBO) ;;
    call (glDelete i lightVBO)) ;;
  call glfwTerminate.

(** [int main()]: the value returned, or [None] while the render loop is
    still running when the passes of [env] are used up. *)
Definition main (env : Env) : Prog (option Z) :=
  call glfwInit ;;
  call glfwWindowHint ;;
  call glfwWindowHint ;;
  call glfwWindowHint ;;
  call (glfwCreateWindow 0) ;;
  call (glfwCreateWindow 1) ;;
  call (glfwCreateWindow 2) ;;
  if negb (window_created env 0%nat) || negb (window_created env 1%nat)
     || negb (window_created env 2%nat)
  then
    call (print "Failed to create GLFW window") ;;
    call glfwTerminate ;;
    ret (Some (-1))
  else
    for_each [0%nat; 1%nat; 2%nat] init_window_data ;;
    ok <- setup_callbacks env [0%nat; 1%nat; 2%nat] ;;
    if negb ok then ret (Some (-1))
    else
      load_shaders ;;
      let sphereVertices := generateSphere [] (f_lit (5 # 10)) 16 8 in
      for_each [0%nat; 1%nat; 2%nat] (setup_buffers sphereVertices) ;;
      call glfwGetVideoMode ;;
      call (glfwSetWindowPos 0) ;;
      call (glfwSetWindowPos 1) ;;
      call (glfwSetWindowPos 2) ;;
      left <- render_loop sphereVertices (frames env) ;;
      if negb left then ret None
      else
        teardown ;;
        ret (Some 0).

End Program.
End MultiWindow.

(** ** The single-window program (basic_lighting_specular.cpp) *)

Module SingleWindow.
Section Program.

Context {ops : FloatOps} {ext : Collaborators}.
Import String.
Local Open Scope prog_scope.
Local Open Scope string_scope.

Definition SCR_WIDTH : Z := 1000.
Definition SCR_HEIGHT : Z := 800.

(** The globals [camera], [lastX], [lastY], [firstMouse] and the close
    flag of the one window, kept as window 0. *)
Definition globals : WindowData :=
  mkWindowData false (Camera_at (vec3_lit 0 0 3))
               (fdiv (f_of_int SCR_WIDTH) (f_lit 2))
               (fdiv (f_of_int SCR_HEIGHT) (f_lit 2))
               true.

(** [void processInput(GLFWwindow *window)] *)
Definition processInput (pressed : Key -> bool) : Prog unit :=
  when (pressed KEY_ESCAPE) (glfwSetWindowShouldClose 0 true) ;;
  dt <- gets deltaTime ;;
  when (pressed KEY_W)
    (update_window 0 (fun wd =>
       set_camera (ProcessKeyboard (camera wd) FORWARD dt) wd)) ;;
  when (pressed KEY_S)
    (update_window 0 (fun wd =>
       set_camera (ProcessKeyboard (camera wd) BACKWARD dt) wd)) ;;
  when (pressed KEY_A)
    (update_window 0 (fun wd =>
       set_camera (ProcessKeyboard (camera wd) LEFT dt) wd)) ;;
  when (pressed KEY_D)
    (update_window 0 (fun wd =>
       set_camera (ProcessKeyboard (camera wd) RIGHT dt) wd)).

(** [void mouse_callback(GLFWwindow*, double xposIn, double yposIn)] *)
Definition mouse_callback (xposIn yposIn : double) (g : WindowData)
    : WindowData :=
  let xpos := f_of_d xposIn in
  let ypos := f_of_d yposIn in
  let g :=
    if firstMouse g
    then mkWindowData (shouldClose g) (camera g) xpos ypos false
    else g in
  let xoffset := fsub xpos (lastX g) in
  let yoffset := fsub (lastY g) ypos in
  mkWindowData (shouldClose g)
               (ProcessMouseMovement (camera g) xoffset yoffset)
               xpos ypos (firstMouse g).

(** [void scroll_callback(GLFWwindow*, double xoffset, double yoffset)] *)
Definition scroll_callback (yoffset : double) (g : WindowData) : WindowData :=
  set_camera (ProcessMouseScroll (camera g) (f_of_d yoffset)) g.

Definition deliver (e : nat * InputEvent) : Prog unit :=
  match snd e with
  | CursorPos xpos ypos => update_window 0 (mouse_callback xpos ypos)
  | Scroll _ yoffset => update_window 0 (scroll_callback yoffset)
  | FramebufferSize width height => call (glViewport width height)
  | CloseRequest => glfwSetWindowShouldClose 0 true
  end.

(** The drawing part of the loop body: sphere, then light cube, then
    the buffer swap. *)
Definition render (sphereVertices : list float) : Prog unit :=
  call (Shader_use 0 lightingShader) ;;
  call (setVec3 0 lightingShader "objectColor" (vec3_lit 1 (5 # 10) (31 # 100))) ;;
  call (setVec3 0 lightingShader "lightColor"
          (vec3_lit (12 # 10) (12 # 10) (12 # 10))) ;;
  light <- gets lightPos ;;
  call (setVec3 0 lightingShader "lightPos" light) ;;
  cam <- gets (fun s => camera (windows s 0%nat)) ;;
  call (setVec3 0 lightingShader "viewPos" (Position cam)) ;;
  let projection :=
    perspective (radians (Zoom cam))
                (fdiv (f_of_int SCR_WIDTH) (f_of_int SCR_HEIGHT))
                (f_lit (1 # 10)) (f_lit 100) in
  let view := GetViewMatrix cam in
  call (setMat4 0 lightingShader "projection" projection) ;;
  call (setMat4 0 lightingShader "view" view) ;;
  let model := mat4_identity in
  call (setMat4 0 lightingShader "model" model) ;;
  call (glBindVertexArray 0 sphereVAO) ;;
  call (glDrawArrays 0 (vertex_count sphereVertices)) ;;
  call (Shader_use 0 lightCubeShader) ;;
  call (setMat4 0 lightCubeShader "projection" projection) ;;
  call (setMat4 0 lightCubeShader "view" view) ;;
  let model := mat4_identity in
  let model := translate model light in
  let model := scale model (vec3_lit (2 # 10) (2 # 10) (2 # 10)) in
  call (setMat4 0 lightCubeShader "model" model) ;;
  call (glBindVertexArray 0 lightCubeVAO) ;;
  call (glDrawArrays 0 36) ;;
  call (glfwSwapBuffers 0).

(** Body of the render loop. *)
Definition frame (sphereVertices : list float) (inp : FrameInput) : Prog unit :=
  let currentFrame := f_of_d (time_frame inp) in
  last <- gets lastFrame ;;
  set_deltaTime (fsub currentFrame last) ;;
  set_lastFrame currentFrame ;;
  processInput (key_pressed inp 0%nat) ;;
  call glClearColor ;;
  call glClear ;;
  update_light (time_light inp) ;;
  render sphereVertices ;;
  call glfwPollEvents ;;
  for_each (polled inp) deliver.

(** [while (!glfwWindowShouldClose(window))] over the passes the
    environment drives: [true] when the loop was left. *)
Fixpoint render_loop (sphereVertices : list float) (inputs : list FrameInput)
    : Prog bool :=
  fun s =>
    if negb (shouldClose (windows s 0%nat)) then
      match inputs with
      | [] => ret false s
      | inp :: rest =>
          (frame sphereVertices inp ;;
           render_loop sphereVertices rest) s
      end
    else ret true s.

Definition setup_buffers (sphereVertices : list float) : Prog unit :=
  call (glGen 0 sphereVAO) ;;
  call (glGen 0 VBO) ;;
  call (glBindBuffer 0 VBO) ;;
  call (glBufferData 0 VBO (Z.of_nat (List.length sphereVertices))) ;;
  call (glBindVertexArray 0 sphereVAO) ;;
  call (glVertexAttribPointer 0 sphereVAO 0) ;;
  call (glEnableVertexAttribArray 0) ;;
  call (glVertexAttribPointer 0 sphereVAO 1) ;;
  call (glEnableVertexAttribArray 1) ;;
  call (glGen 0 lightCubeVAO) ;;
  call (glGen 0 lightVBO) ;;
  call (glBindBuffer 0 lightVBO) ;;
  call (glBufferData 0 lightVBO 216) ;;
  call (glBindVertexArray 0 lightCubeVAO) ;;
  call (glVertexAttribPointer 0 lightCubeVAO 0) ;;
  call (glEnableVertexAttribArray 0).

Definition teardown : Prog unit :=
  call (glDelete 0 sphereVAO) ;;
  call (glDelete 0 lightCubeVAO) ;;
  call (glDelete 0 VBO) ;;
  call (glDelete 0 lightVBO) ;;
  call glfwTerminate.

(** [int main()]: the value returned, or [None] while the render loop is
    still running when the passes of [env] are used up. *)
Definition main (env : Env) : Prog (option Z) :=
  call glfwInit ;;
  call glfwWindowHint ;;
  call glfwWindowHint ;;
  call glfwWindowHint ;;
  call (glfwCreateWindow 0) ;;
  if negb (window_created env 0%nat) then
    call (print "Failed to create GLFW window") ;;
    call glfwTerminate ;;
    ret (Some (-1))
  else
    call (glfwMakeContextCurrent 0) ;;
    call (glfwSetCallbacks 0) ;;
    call (glfwSetInputMode 0) ;;
    call gladLoadGLLoader ;;
    if negb (glad_loaded env 0%nat) then
      call (print "Failed to initialize GLAD") ;;
      ret (Some (-1))
    else
      call glEnable_DEPTH_TEST ;;
      call (new_Shader 0 lightingShader "2.2.flat_lighting.vs" "2.2.flat_lighting.fs") ;;
      call (new_Shader 0 lightCubeShader "2.2.light_cube.vs" "2.2.light_cube.fs") ;;
      let sphereVertices := generateSphere [] (f_lit (5 # 10)) 24 12 in
      setup_buffers sphereVertices ;;
      left <- render_loop sphereVertices (frames env) ;;
      if negb left then ret None
      else
        teardown ;;
        ret (Some 0).

End Program.
End SingleWindow.

(** Did the run call [glfwTerminate]? *)
Definition terminates_glfw {ops : FloatOps} {ext : Collaborators}
    (trace : list Call) : bool :=
  existsb (fun c => match c with glfwTerminate => true | _ => false end) trace.

(** Did the run delete the object [o] of window [w]? *)
Definition deletes {ops : FloatOps} {ext : Collaborators}
    (w : nat) (o : GLObject) (trace : list Call) : bool :=
  existsb (fun c =>
             match c with
             | glDelete w' o' =>
                 Nat.eqb w w' &&
                 match o, o' with
                 | sphereVAO, sphereVAO | VBO, VBO
                 | lightCubeVAO, lightCubeVAO | lightVBO, lightVBO => true
                 | _, _ => false
                 end
             | _ => false
             end) trace.

(** ** Two implementations of the arithmetic *)

(** Exact real arithmetic, the idealisation in which rounding is left
    out: both floating point types are [R], conversions are the identity,
    every operation is the real one, and [M_PI] is the decimal literal
    the source defines.  Division is the total division of [R]; the
    results below divide by non-zero values only.  [garbage] is what a
    read outside a vector yields. *)
Definition R_ops (garbage : R) : FloatOps := {|
  float := R;
  double := R;
  M_PI := Q2R (314159265358979323846 # 100000000000000000000);
  f_lit := Q2R;
  d_of_int := IZR;
  f_of_int := IZR;
  f_of_d := fun x => x;
  d_of_f := fun x => x;
  dmul := Rmult;
  ddiv := Rdiv;
  dsub := Rminus;
  fadd := Rplus;
  fsub := Rminus;
  fmul := Rmult;
  fdiv := Rdiv;
  cosf := cos;
  sinf := sin;
  cos_ := cos;
  sin_ := sin;
  indeterminate := garbage
|}.


(** Uninterpreted arithmetic and collaborators: every operation builds the
    term that names it, so that the programs can be run and their output
    inspected. *)
Module Symbolic.

Inductive term : Type :=
| Pi
| Lit (q : Q)
| OfInt (z : Z)
| Narrow (a : term)
| Widen (a : term)
| Mul (a b : term)
| Div (a b : term)
| Sub (a b : term)
| Add (a b : term)
| Cos (a : term)
| Sin (a : term)
| Radians (a : term)
| PositionOf (axis : nat) (c : cam)
| ZoomOf (c : cam)
| Indeterminate
with cam : Type :=
| CamAt (x y z : term)
| CamLooking (x y z tx ty tz : term)
| CamKey (c : cam) (d : Camera_Movement) (dt : term)
| CamMouse (c : cam) (dx dy : term)
| CamScroll (c : cam) (dy : term).

Definition sym_ops : FloatOps := {|
  float := term;
  double := term;
  M_PI := Pi;
  f_lit := Lit;
  d_of_int := OfInt;
  f_of_int := OfInt;
  f_of_d := Narrow;
  d_of_f := Widen;
  dmul := Mul;
  ddiv := Div;
  dsub := Sub;
  fadd := Add;
  fsub := Sub;
  fmul := Mul;
  fdiv := Div;
  cosf := Cos;
  sinf := Sin;
  cos_ := Cos;
  sin_ := Sin;
  indeterminate := Indeterminate
|}.

Inductive mat : Type :=
| MView (c : cam)
| MPerspective (fovy aspect near far : term)
| MIdentity
| MTranslate (m : mat) (v : @vec3 sym_ops)
| MScale (m : mat) (v : @vec3 sym_ops).

Definition sym_ext : @Collaborators sym_ops := {|
  Camera := cam;
  mat4 := mat;
  Camera_looking := fun p t =>
    CamLooking (@vx sym_ops p) (@vy sym_ops p) (@vz sym_ops p)
               (@vx sym_ops t) (@vy sym_ops t) (@vz sym_ops t);
  Camera_at := fun p =>
    CamAt (@vx sym_ops p) (@vy sym_ops p) (@vz sym_ops p);
  ProcessKeyboard := CamKey;
  ProcessMouseMovement := CamMouse;
  ProcessMouseScroll := CamScroll;
  Position := fun c =>
    @mkVec3 sym_ops (PositionOf 0 c) (PositionOf 1 c) (PositionOf 2 c);
  Zoom := ZoomOf;
  GetViewMatrix := MView;
  radians := Radians;
  perspective := MPerspective;
  mat4_identity := MIdentity;
  translate := MTranslate;
  scale := MScale
|}.

(** A quiet pass at time [t]: no key held, nothing delivered. *)
Definition quiet_frame (t : Z) : @FrameInput sym_ops :=
  @mkFrameInput sym_ops (OfInt t) (OfInt t) (fun _ _ => false) [].

(** A pass at time [t] in which the close button of window [w] is
    clicked. *)
Definition closing_frame (t : Z) (w : nat) : @FrameInput sym_ops :=
  @mkFrameInput sym_ops (OfInt t) (OfInt t) (fun _ _ => false)
                [(w, @CloseRequest sym_ops)].

(** The three windows as the program has them when its render loop
    starts: none asked to close. *)
Definition start : @State sym_ops sym_ext :=
  @initial_state sym_ops sym_ext
    (@mkWindowData sym_ops sym_ext false
       (CamAt (Lit 0) (Lit 0) (Lit 3)) (Lit 0) (Lit 0) true).

End Symbolic.

(** ** Observing a run *)

Section Observations.

Context {ops : FloatOps} {ext : Collaborators}.
Import String.

Definition value_of {A : Type} (r : A * State * list Call) : A := fst (fst r).
Definition state_of {A : Type} (r : A * State * list Call) : State :=
  snd (fst r).
Definition trace_of {A : Type} (r : A * State * list Call) : list Call :=
  snd r.

(** The passes one after the other, whatever the close flags. *)
Definition run_frames (frame : FrameInput -> Prog unit)
    (inputs : list FrameInput) : Prog unit :=
  for_each inputs frame.

(** What [update_light] leaves in [lightPos]: [x] and [y] are assigned,
    [z] keeps its value. *)
Definition animated_light (time : double) (before : vec3) : vec3 :=
  mkVec3
    (fadd (f_lit 0) (fmul (sin_ (fmul (f_of_d time) (f_lit 1))) (f_lit 2)))
    (fadd (f_lit 0) (fmul (cos_ (fmul (f_of_d time) (f_lit 1))) (f_lit 2)))
    (vz before).

(** The value a call passes for the uniform [lightPos], if it sets it. *)
Definition lightPos_uniform (c : Call) : option vec3 :=
  match c with
  | setVec3 _ _ name v =>
      if String.eqb name "lightPos"%string then Some v else None
  | _ => None
  end.

(** Number of frames presented on window [w]. *)
Definition frames_presented (w : nat) (trace : list Call) : nat :=
  List.length (filter (fun c => match c with
                           | glfwSwapBuffers w' => Nat.eqb w w'
                           | _ => false
                           end) trace).

(** A program that leaves the light alone and sets no [lightPos]
    uniform but to the light it finds. *)
Definition light_faithful {A : Type} (m : Prog A) : Prop :=
  forall s,
    lightPos (state_of (m s)) = lightPos s
    /\ Forall (fun c => forall v, lightPos_uniform c = Some v -> v = lightPos s)
              (trace_of (m s)).

(** A program that leaves window [i] as it is. *)
Definition keeps_window {A : Type} (i : nat) (m : Prog A) : Prop :=
  forall s, windows (state_of (m s)) i = windows s i.

(** Every one of the three windows has asked to close. *)
Definition all_closed (s : State) : bool :=
  shouldClose (windows s 0%nat) && shouldClose (windows s 1%nat)
  && shouldClose (windows s 2%nat).

End Observations.

(** The orbit as the specification words it: centre [C = (0, 0, 3.5)],
    radius [R = 2], angular speed [w = 1],
    [lightPos = C + (R sin(w t), R cos(w t), 0)]. *)
Definition orbit {garbage : R} (t : R) : @vec3 (R_ops garbage) :=
  @mkVec3 (R_ops garbage)
          (0 + 2 * sin (1 * t))%R (0 + 2 * cos (1 * t))%R (7 / 2 + 0)%R.

(** ** Describing a pass of the render loops *)

Section PassDescription.

Context {ops : FloatOps} {ext : Collaborators}.
Import String.
Local Open Scope string_scope.

(** A program whose final state is related to its initial state by [R]. *)
Definition respects {A : Type} (R : State -> State -> Prop) (m : Prog A)
    : Prop :=
  forall s, R s (state_of (m s)).

(** The two timing globals are as before. *)
Definition same_clock (s s' : State) : Prop :=
  deltaTime s' = deltaTime s /\ lastFrame s' = lastFrame s.

(** A close request on window [i] is still there. *)
Definition close_kept (i : nat) (s s' : State) : Prop :=
  shouldClose (windows s i) = true -> shouldClose (windows s' i) = true.

(** The camera after the four movement keys of [processInput], taken in
    the order W, S, A, D. *)
Definition moved_camera (pressed : Key -> bool) (dt : float) (cam : Camera)
    : Camera :=
  let cam := if pressed KEY_W then ProcessKeyboard cam FORWARD dt else cam in
  let cam := if pressed KEY_S then ProcessKeyboard cam BACKWARD dt else cam in
  let cam := if pressed KEY_A then ProcessKeyboard cam LEFT dt else cam in
  let cam := if pressed KEY_D then ProcessKeyboard cam RIGHT dt else cam in
  cam.

(** The calls of one window's turn in a pass, for a frame buffer of
    [width] by [height], the light at [light] and the camera [cam]. *)
Definition window_calls (width height : Z) (sphereVertices : list float)
    (i : nat) (light : vec3) (cam : Camera) : list Call :=
  let projection :=
    perspective (radians (Zoom cam))
                (fdiv (f_of_int width) (f_of_int height))
                (f_lit (1 # 10)) (f_lit 100) in
  let view := GetViewMatrix cam in
  [ Shader_use i lightingShader;
    setVec3 i lightingShader "objectColor" (vec3_lit 1 (5 # 10) (31 # 100));
    setVec3 i lightingShader "lightColor"
            (vec3_lit (12 # 10) (12 # 10) (12 # 10));
    setVec3 i lightingShader "lightPos" light;
    setVec3 i lightingShader "viewPos" (Position cam);
    setMat4 i lightingShader "projection" projection;
    setMat4 i lightingShader "view" view;
    setMat4 i lightingShader "model" mat4_identity;
    glBindVertexArray i sphereVAO;
    glDrawArrays 0 (vertex_count sphereVertices);
    Shader_use i lightCubeShader;
    setMat4 i lightCubeShader "projection" projection;
    setMat4 i lightCubeShader "view" view;
    setMat4 i lightCubeShader "model"
            (scale (translate mat4_identity light)
                   (vec3_lit (2 # 10) (2 # 10) (2 # 10)));
    glBindVertexArray i lightCubeVAO;
    glDrawArrays 0 36;
    glfwSwapBuffers i ].

(** The calls the delivered events cause: one [glViewport] for each
    resize. *)
Definition resize_calls (events : list (nat * InputEvent)) : list Call :=
  flat_map (fun e => match snd e with
                     | FramebufferSize width height => [glViewport width height]
                     | _ => []
                     end) events.

(** The matrix a call passes as [model] of the light cube shader, if it
    sets it. *)
Definition cube_model (c : Call) : option mat4 :=
  match c with
  | setMat4 _ lightCubeShader name m =>
      if String.eqb name "model" then Some m else None
  | _ => None
  end.

End PassDescription.

(** ** The Blinn-Phong fragment shader, in exact real arithmetic *)

Module Fragment.

Local Open Scope R_scope.

(** A GLSL [vec3]. *)
Record rvec3 : Type := mk { x : R; y : R; z : R }.

Definition add (a b : rvec3) : rvec3 := mk (x a + x b) (y a + y b) (z a + z b).
Definition sub (a b : rvec3) : rvec3 := mk (x a - x b) (y a - y b) (z a - z b).
(** [vec3 * vec3], componentwise *)
Definition mul (a b : rvec3) : rvec3 := mk (x a * x b) (y a * y b) (z a * z b).
(** [float * vec3] *)
Definition scalar (k : R) (a : rvec3) : rvec3 := mk (k * x a) (k * y a) (k * z a).
Definition dot (a b : rvec3) : R := x a * x b + y a * y b + z a * z b.
Definition length (a : rvec3) : R := sqrt (dot a a).

(** [normalize]: the vector divided by its length; GLSL leaves the
    result undefined for the zero vector. *)
Definition normalize (a : rvec3) : option rvec3 :=
  if Req_EM_T (length a) 0 then None else Some (scalar (/ length a) a).

(** [diff] of the shader: the diffuse factor. *)
Definition diff (FragPos Normal lightPos : rvec3) : option R :=
  match normalize Normal, normalize (sub lightPos FragPos) with
  | Some norm, Some lightDir => Some (Rmax (dot norm lightDir) 0)
  | _, _ => None
  end.

(** [spec] of the shader: the Blinn-Phong specular factor; [pow] is the
    GLSL built-in. *)
Definition spec (pow : R -> R -> R) (FragPos Normal ViewPos lightPos : rvec3)
    (shininess : R) : option R :=
  match normalize Normal, normalize (sub lightPos FragPos),
        normalize (sub ViewPos FragPos) with
  | Some norm, Some lightDir, Some viewDir =>
      match normalize (add lightDir viewDir) with
      | Some halfwayDir => Some (pow (Rmax (dot norm halfwayDir) 0) shininess)
      | None => None
      end
  | _, _, _ => None
  end.

(** [void main()]: the colour and the alpha written to [FragColor],
    where every [normalize] is defined. *)
Definition main (pow : R -> R -> R)
    (FragPos Normal ViewPos objectColor lightColor lightPos : rvec3)
    (shininess : R) : option (rvec3 * R) :=
  let ambientStrength := 1 / 10 in
  let ambient := scalar ambientStrength lightColor in
  match diff FragPos Normal lightPos,
        spec pow FragPos Normal ViewPos lightPos shininess with
  | Some diff, Some spec =>
      let diffuse := scalar diff lightColor in
      let specularStrength := 1 / 2 in
      let specular := scalar (specularStrength * spec) lightColor in
      let result := mul (add (add ambient diffuse) specular) objectColor in
      Some (result, 1)
  | _, _ => None
  end.

(** No component is negative. *)
Definition nonneg (a : rvec3) : Prop := 0 <= x a /\ 0 <= y a /\ 0 <= z a.

(** Componentwise order. *)
Definition le (a b : rvec3) : Prop := x a <= x b /\ y a <= y b /\ z a <= z b.

(** The direction of [a]: [a] scaled to length one. *)
Definition direction (a : rvec3) : rvec3 := scalar (/ length a) a.

End Fragment.

(** ** Runs used as examples *)

Module Scenario.

(** A pass at time [t] in which Escape is held down in window [w]. *)
Definition escape_frame (t : Z) (w : nat) : @FrameInput Symbolic.sym_ops :=
  @mkFrameInput Symbolic.sym_ops (Symbolic.OfInt t) (Symbolic.OfInt t)
    (fun i k => match k with KEY_ESCAPE => Nat.eqb i w | _ => false end) [].

(** A pass at time [t] in which W is held down in window [w]. *)
Definition forward_frame (t : Z) (w : nat) : @FrameInput Symbolic.sym_ops :=
  @mkFrameInput Symbolic.sym_ops (Symbolic.OfInt t) (Symbolic.OfInt t)
    (fun i k => match k with KEY_W => Nat.eqb i w | _ => false end) [].

(** Every window is created and GLAD loads; the environment drives the
    passes [passes]. *)
Definition healthy (passes : list (@FrameInput Symbolic.sym_ops))
    : @Env Symbolic.sym_ops :=
  @mkEnv Symbolic.sym_ops (fun _ => true) (fun _ => true) passes.

(** [glfwCreateWindow] fails for window [w]. *)
Definition no_window (w : nat) : @Env Symbolic.sym_ops :=
  @mkEnv Symbolic.sym_ops (fun i => negb (Nat.eqb i w)) (fun _ => true) [].

(** The [w]-th call of [gladLoadGLLoader] fails. *)
Definition no_glad (w : nat) : @Env Symbolic.sym_ops :=
  @mkEnv Symbolic.sym_ops (fun _ => true) (fun i => negb (Nat.eqb i w)) [].

End Scenario.

(** * Facts about lists, ranges and machine integers *)

Section ListFacts.

Context {A B : Type}.

Lemma flat_map_singleton (f : A -> B) (l : list A) :
  flat_map (fun x => [f x]) l = map f l.
Proof.
  induction l as [|x l IH]; simpl; [reflexivity | now rewrite IH].
Qed.

Lemma flat_map_agree (f g : A -> list B) (l : list A) :
  (forall x, In x l -> f x = g x) -> flat_map f l = flat_map g l.
Proof.
  induction l as [|x l IH]; intros Hfg; simpl; [reflexivity|].
  rewrite (Hfg x) by (now left).
  rewrite IH; [reflexivity|].
  intros y Hy. apply Hfg. now right.
Qed.

Lemma fold_left_appends (f : list B -> A -> list B) (g : A -> list B)
    (l : list A) :
  (forall s x, In x l -> f s x = s ++ g x) ->
  forall s, fold_left f l s = s ++ flat_map g l.
Proof.
  induction l as [|x l IH]; intros Hf s; simpl.
  - now rewrite app_nil_r.
  - rewrite (Hf s x) by (now left).
    rewrite IH.
    + now rewrite <- app_assoc.
    + intros s' y Hy. apply Hf. now right.
Qed.

Lemma length_flat_map_const (f : A -> list B) (n : nat) (l : list A) :
  (forall x, In x l -> length (f x) = n) ->
  length (flat_map f l) = (n * length l)%nat.
Proof.
  induction l as [|x l IH]; intros Hn; simpl.
  - lia.
  - rewrite length_app, (Hn x) by (now left).
    rewrite IH; [lia|].
    intros y Hy. apply Hn. now right.
Qed.


End ListFacts.

Lemma map_flat_map {A B C : Type} (f : B -> C) (g : A -> list B) (l : list A) :
  flat_map (fun x => map f (g x)) l = map f (flat_map g l).
Proof.
  induction l as [|x l IH]; simpl; [reflexivity|].
  now rewrite map_app, IH.
Qed.

Lemma flat_map_flat_map {A B C : Type} (f : B -> list C) (g : A -> list B)
    (l : list A) :
  flat_map (fun x => flat_map f (g x)) l = flat_map f (flat_map g l).
Proof.
  induction l as [|x l IH]; simpl; [reflexivity|].
  now rewrite flat_map_app, IH.
Qed.

Section RangeFacts.

Lemma length_zrange (lo hi : Z) : length (zrange lo hi) = Z.to_nat (hi - lo).
Proof. unfold zrange. now rewrite length_map, length_seq. Qed.

Lemma In_zrange (lo hi x : Z) : In x (zrange lo hi) <-> lo <= x < hi.
Proof.
  unfold zrange. rewrite in_map_iff. split.
  - intros [n [Hx Hn]]. apply in_seq in Hn. lia.
  - intros Hx. exists (Z.to_nat (x - lo)). split; [lia|].
    apply in_seq. lia.
Qed.


Lemma zrange_nil (lo hi : Z) : hi <= lo -> zrange lo hi = [].
Proof.
  intros H. unfold zrange.
  replace (Z.to_nat (hi - lo)) with 0%nat by lia. reflexivity.
Qed.

Lemma zrange_app (lo mid hi : Z) :
  lo <= mid <= hi -> zrange lo hi = zrange lo mid ++ zrange mid hi.
Proof.
  intros H. unfold zrange.
  replace (Z.to_nat (hi - lo))
    with (Z.to_nat (mid - lo) + Z.to_nat (hi - mid))%nat by lia.
  rewrite seq_app, map_app. f_equal.
  generalize (Z.to_nat (hi - mid)) as b. generalize 0%nat as s.
  intros s b. revert s.
  induction b as [|b IH]; intros s; simpl; [reflexivity|].
  f_equal; [lia|].
  apply (IH (S s)).
Qed.

Lemma zrange_one (lo : Z) : zrange lo (lo + 1) = [lo].
Proof.
  unfold zrange. replace (Z.to_nat (lo + 1 - lo)) with 1%nat by lia.
  simpl. f_equal. lia.
Qed.

Lemma zrange_cons (lo hi : Z) :
  lo < hi -> zrange lo hi = lo :: zrange (lo + 1) hi.
Proof.
  intros H. rewrite (zrange_app lo (lo + 1) hi) by lia.
  now rewrite zrange_one.
Qed.

Lemma for_range_appends {B : Type} (lo hi : Z)
    (body : Z -> list B -> list B) (g : Z -> list B) :
  (forall i s, lo <= i < hi -> body i s = s ++ g i) ->
  forall s, for_range lo hi body s = s ++ flat_map g (zrange lo hi).
Proof.
  intros Hbody s. unfold for_range.
  apply fold_left_appends.
  intros s' i Hi. apply Hbody. now apply In_zrange.
Qed.

End RangeFacts.

Section IntFacts.

Lemma wrap_small (z : Z) : Int.in_range z -> Int.wrap z = z.
Proof.
  unfold Int.in_range, Int.INT_MIN, Int.INT_MAX, Int.wrap. intros H.
  rewrite Z.mod_small by lia. lia.
Qed.

(** [wrap] only moves its argument by a multiple of [2^32]. *)
Lemma wrap_congruent (z : Z) : exists k, Int.wrap z = z + k * 4294967296.
Proof.
  exists (- ((z + 2147483648) / 4294967296)). unfold Int.wrap.
  pose proof (Z.div_mod (z + 2147483648) 4294967296 ltac:(lia)). lia.
Qed.

Lemma wrap_shift (z k : Z) : Int.wrap (z + k * 4294967296) = Int.wrap z.
Proof.
  unfold Int.wrap.
  replace (z + k * 4294967296 + 2147483648)
    with (z + 2147483648 + k * 4294967296) by lia.
  now rewrite Z.mod_add by lia.
Qed.

Lemma wrap_add_l (a b : Z) : Int.wrap (Int.wrap a + b) = Int.wrap (a + b).
Proof.
  destruct (wrap_congruent a) as [k ->].
  replace (a + k * 4294967296 + b) with (a + b + k * 4294967296) by lia.
  apply wrap_shift.
Qed.

Lemma wrap_add_r (a b : Z) : Int.wrap (a + Int.wrap b) = Int.wrap (a + b).
Proof. rewrite (Z.add_comm a), wrap_add_l. f_equal. lia. Qed.

Lemma wrap_mul_l (a b : Z) : Int.wrap (Int.wrap a * b) = Int.wrap (a * b).
Proof.
  destruct (wrap_congruent a) as [k ->].
  replace ((a + k * 4294967296) * b) with (a * b + (k * b) * 4294967296) by lia.
  apply wrap_shift.
Qed.

Lemma wrap_mul_r (a b : Z) : Int.wrap (a * Int.wrap b) = Int.wrap (a * b).
Proof. rewrite (Z.mul_comm a), wrap_mul_l. f_equal. lia. Qed.

Lemma to_size_t_small (z : Z) :
  0 <= z <= Int.INT_MAX -> Int.to_size_t z = z.
Proof.
  unfold Int.INT_MAX, Int.to_size_t. intros H. apply Z.mod_small. lia.
Qed.

(** The flat index of component [k] of grid point [kk], whatever the
    intermediate wrap-arounds. *)
Lemma flat_index_wrap (kk k : Z) :
  Int.add (Int.mul (Int.wrap kk) 6) k = Int.wrap (kk * 6 + k).
Proof.
  unfold Int.add, Int.mul. now rewrite wrap_mul_l, wrap_add_l.
Qed.

Lemma flat_index_exact (kk k : Z) :
  Int.add (Int.mul kk 6) k = Int.wrap (kk * 6 + k).
Proof. unfold Int.add, Int.mul. now rewrite wrap_add_l. Qed.

(** The corner numbers the code computes are the specified ones, up to
    wrap-around. *)
Lemma code_k1 (sectorCount i j : Z) :
  Int.add (Int.mul i (Int.add sectorCount 1)) j
  = Int.wrap (corner_k1 sectorCount i j).
Proof.
  unfold Int.add, Int.mul, corner_k1.
  now rewrite wrap_mul_r, wrap_add_l.
Qed.

Lemma code_k3 (sectorCount i j : Z) :
  Int.add (Int.mul (Int.add i 1) (Int.add sectorCount 1)) j
  = Int.wrap (corner_k3 sectorCount i j).
Proof.
  unfold Int.add, Int.mul, corner_k3.
  now rewrite wrap_mul_r, wrap_mul_l, wrap_add_l.
Qed.

Lemma code_succ (k : Z) : Int.add (Int.wrap k) 1 = Int.wrap (k + 1).
Proof. unfold Int.add. apply wrap_add_l. Qed.

Lemma vertex_reads_wrap (kk : Z) : vertex_reads (Int.wrap kk) = vertex_reads kk.
Proof.
  unfold vertex_reads. apply map_ext. intros k.
  now rewrite flat_index_wrap, flat_index_exact.
Qed.

Lemma length_vertex_reads (kk : Z) : length (vertex_reads kk) = 6%nat.
Proof. reflexivity. Qed.

End IntFacts.

(** * Facts about generateSphere *)

Section SphereFacts.

Context {ops : FloatOps}.

Lemma copy_vertex_appends (tempVertices : list float) (kk : Z)
    (vertices : list float) :
  copy_vertex tempVertices kk vertices
  = vertices ++ vertex_floats tempVertices kk.
Proof.
  unfold copy_vertex, vertex_floats, vertex_reads.
  rewrite (for_range_appends 0 6 _
             (fun k => [vec_at indeterminate tempVertices
                               (Int.add (Int.mul kk 6) k)])).
  - now rewrite flat_map_singleton, map_map.
  - reflexivity.
Qed.

(** The second loop nest appends, cell after cell, what it reads. *)
Lemma triangulate_reads (tempVertices : list float)
    (sectorCount stackCount : Z) (vertices : list float) :
  triangulate tempVertices sectorCount stackCount vertices
  = vertices
    ++ map (vec_at indeterminate tempVertices)
           (all_reads sectorCount stackCount).
Proof.
  unfold triangulate, all_reads.
  rewrite <- map_flat_map.
  apply for_range_appends. intros i s _.
  rewrite <- map_flat_map.
  apply for_range_appends. intros j s' _.
  unfold cell_reads. cbv zeta.
  destruct (negb (i =? 0)); destruct (negb (i =? Int.sub stackCount 1));
    rewrite ?copy_vertex_appends; unfold vertex_floats;
    rewrite ?map_app, <- ?app_assoc, ?app_nil_r; reflexivity.
Qed.

Lemma length_triangle_floats (tempVertices : list float)
    (t : Z * Z * Z) :
  length (triangle_floats tempVertices t) = 18%nat.
Proof. destruct t as [[a b] c]. reflexivity. Qed.

End SphereFacts.

Section TriangulationFacts.

Context {ops : FloatOps}.

Lemma sub_one_exact (stackCount : Z) :
  stackCount <= Int.INT_MAX -> 0 < stackCount ->
  Int.sub stackCount 1 = stackCount - 1.
Proof.
  unfold Int.sub. intros H Hpos. apply wrap_small.
  unfold Int.in_range, Int.INT_MIN, Int.INT_MAX in *. lia.
Qed.

Lemma cell_reads_spec (tempVertices : list float)
    (sectorCount stackCount i j : Z) :
  stackCount <= Int.INT_MAX -> 0 <= i < stackCount ->
  map (vec_at indeterminate tempVertices)
      (cell_reads sectorCount stackCount i j)
  = flat_map (triangle_floats tempVertices)
             (spec_cell_triangles sectorCount stackCount i j).
Proof.
  intros Hst Hi.
  unfold cell_reads, spec_cell_triangles. cbv zeta.
  rewrite sub_one_exact by (trivial; lia).
  rewrite code_k1, code_k3, !code_succ, !vertex_reads_wrap.
  fold (corner_k2 sectorCount i j). fold (corner_k4 sectorCount i j).
  destruct (i =? 0); destruct (i =? stackCount - 1); simpl negb; cbv iota;
    simpl flat_map; unfold triangle_floats, vertex_floats;
    rewrite ?map_app, <- ?app_assoc, ?app_nil_r; reflexivity.
Qed.

Lemma all_reads_spec (tempVertices : list float) (sectorCount stackCount : Z) :
  stackCount <= Int.INT_MAX ->
  map (vec_at indeterminate tempVertices) (all_reads sectorCount stackCount)
  = flat_map (triangle_floats tempVertices)
             (spec_triangles sectorCount stackCount).
Proof.
  intros Hst. unfold all_reads, spec_triangles.
  rewrite <- map_flat_map, <- flat_map_flat_map.
  apply flat_map_agree. intros i Hi. apply In_zrange in Hi.
  rewrite <- map_flat_map, <- flat_map_flat_map.
  apply flat_map_agree. intros j _.
  now apply cell_reads_spec.
Qed.

(** Number of triangles kept: one per cell in the two polar rows, two
    per cell in the rows between. *)
Lemma length_spec_row (sectorCount stackCount i : Z) :
  0 <= sectorCount ->
  Z.of_nat (length (flat_map (spec_cell_triangles sectorCount stackCount i)
                             (zrange 0 sectorCount)))
  = sectorCount * ((if i =? 0 then 0 else 1)
                   + (if i =? stackCount - 1 then 0 else 1)).
Proof.
  intros Hsc.
  rewrite (length_flat_map_const _
             (Z.to_nat ((if i =? 0 then 0 else 1)
                        + (if i =? stackCount - 1 then 0 else 1)))).
  - rewrite length_zrange.
    destruct (i =? 0); destruct (i =? stackCount - 1); lia.
  - intros j _. unfold spec_cell_triangles.
    destruct (i =? 0); destruct (i =? stackCount - 1); reflexivity.
Qed.

Lemma length_flat_map_sum {A B : Type} (f : A -> list B) (c : A -> Z)
    (l : list A) :
  (forall x, In x l -> Z.of_nat (length (f x)) = c x) ->
  Z.of_nat (length (flat_map f l)) = fold_right (fun x acc => c x + acc) 0 l.
Proof.
  induction l as [|x l IH]; intros Hc; simpl; [reflexivity|].
  rewrite length_app, Nat2Z.inj_add, (Hc x) by (now left).
  rewrite IH; [reflexivity|].
  intros y Hy. apply Hc. now right.
Qed.

Lemma length_spec_triangles (sectorCount stackCount : Z) :
  0 <= sectorCount -> 2 <= stackCount ->
  Z.of_nat (length (spec_triangles sectorCount stackCount))
  = 2 * sectorCount * (stackCount - 1).
Proof.
  intros Hsc Hst. unfold spec_triangles.
  rewrite (length_flat_map_sum _
             (fun i => sectorCount * ((if i =? 0 then 0 else 1)
                        + (if i =? stackCount - 1 then 0 else 1))))
    by (intros i _; now apply length_spec_row).
  rewrite (zrange_app 0 1 stackCount) by lia.
  rewrite (zrange_app 1 (stackCount - 1) stackCount) by lia.
  replace (zrange 0 1) with [0] by (symmetry; apply (zrange_one 0)).
  replace (zrange (stackCount - 1) stackCount) with [stackCount - 1]
    by (symmetry; rewrite <- (zrange_one (stackCount - 1)); f_equal; lia).
  rewrite !fold_right_app. cbn [fold_right].
  rewrite !Z.eqb_refl.
  replace (0 =? stackCount - 1) with false by (symmetry; apply Z.eqb_neq; lia).
  replace (stackCount - 1 =? 0) with false by (symmetry; apply Z.eqb_neq; lia).
  assert (Hmid : forall acc,
             fold_right
               (fun x acc => sectorCount * ((if x =? 0 then 0 else 1)
                               + (if x =? stackCount - 1 then 0 else 1)) + acc)
               acc (zrange 1 (stackCount - 1))
             = 2 * sectorCount * (stackCount - 2) + acc).
  { intros acc.
    assert (Hin : forall x, In x (zrange 1 (stackCount - 1)) ->
                             1 <= x < stackCount - 1)
      by (intros x Hx; now apply In_zrange).
    assert (Hlen : Z.of_nat (length (zrange 1 (stackCount - 1)))
                   = stackCount - 2) by (rewrite length_zrange; lia).
    revert Hin Hlen. generalize (zrange 1 (stackCount - 1)) as l.
    intros l. revert acc.
    assert (Hgen : forall (l : list Z) acc,
               (forall x, In x l -> 1 <= x < stackCount - 1) ->
               fold_right
                 (fun x acc => sectorCount * ((if x =? 0 then 0 else 1)
                                 + (if x =? stackCount - 1 then 0 else 1)) + acc)
                 acc l
               = 2 * sectorCount * Z.of_nat (length l) + acc).
    { clear. induction l as [|x l IH]; intros acc Hin; cbn [fold_right length];
        [lia|].
      rewrite IH by (intros y Hy; apply Hin; now right).
      pose proof (Hin x (or_introl eq_refl)) as Hx.
      replace (x =? 0) with false by (symmetry; apply Z.eqb_neq; lia).
      replace (x =? stackCount - 1) with false
        by (symmetry; apply Z.eqb_neq; lia).
      lia. }
    intros acc Hin Hlen. rewrite Hgen by exact Hin. rewrite Hlen. reflexivity. }
  rewrite Hmid. lia.
Qed.

End TriangulationFacts.

Section GridFacts.

Context {ops : FloatOps}.

Lemma length_grid_point (radius : float) (sectorCount stackCount i j : Z) :
  length (grid_point radius sectorCount stackCount i j) = 6%nat.
Proof. reflexivity. Qed.

(** The first loop nest stores the grid points row after row. *)
Lemma sphereGrid_points (radius : float) (sectorCount stackCount : Z) :
  sphereGrid radius sectorCount stackCount
  = flat_map
      (fun i => flat_map (grid_point radius sectorCount stackCount i)
                         (zrange 0 (sectorCount + 1)))
      (zrange 0 (stackCount + 1)).
Proof.
  unfold sphereGrid. cbv zeta.
  rewrite (for_range_appends 0 (stackCount + 1) _
             (fun i => flat_map (grid_point radius sectorCount stackCount i)
                                (zrange 0 (sectorCount + 1)))).
  - reflexivity.
  - intros i s _.
    apply for_range_appends. intros j s' _.
    unfold push_back, grid_point. now rewrite <- !app_assoc.
Qed.

Lemma length_grid_row (radius : float) (sectorCount stackCount i : Z) :
  length (flat_map (grid_point radius sectorCount stackCount i)
                   (zrange 0 (sectorCount + 1)))
  = (6 * Z.to_nat (sectorCount + 1))%nat.
Proof.
  rewrite (length_flat_map_const _ 6) by (intros; apply length_grid_point).
  rewrite length_zrange. f_equal. f_equal. lia.
Qed.

Lemma length_sphereGrid (radius : float) (sectorCount stackCount : Z) :
  0 <= sectorCount + 1 -> 0 <= stackCount + 1 ->
  Z.of_nat (length (sphereGrid radius sectorCount stackCount))
  = grid_size sectorCount stackCount.
Proof.
  intros Hsc Hst. rewrite sphereGrid_points.
  rewrite (length_flat_map_const _ (6 * Z.to_nat (sectorCount + 1)))
    by (intros; apply length_grid_row).
  rewrite length_zrange. unfold grid_size.
  rewrite !Nat2Z.inj_mul, !Z2Nat.id by lia.
  change (Z.of_nat 6) with 6. lia.
Qed.


Lemma flat_index_in_grid (sectorCount stackCount i j k : Z) :
  0 <= i <= stackCount -> 0 <= j <= sectorCount -> 0 <= k < 6 ->
  0 <= corner_k1 sectorCount i j * 6 + k < grid_size sectorCount stackCount.
Proof.
  intros Hi Hj Hk. unfold corner_k1, grid_size.
  assert (0 <= i * (sectorCount + 1)) by (apply Z.mul_nonneg_nonneg; lia).
  assert (i * (sectorCount + 1) <= stackCount * (sectorCount + 1))
    by (apply Z.mul_le_mono_nonneg_r; lia).
  lia.
Qed.

End GridFacts.

Section EmittedVertices.

Context {ops : FloatOps}.

Lemma corner_k2_grid (sectorCount i j : Z) :
  corner_k2 sectorCount i j = corner_k1 sectorCount i (j + 1).
Proof. unfold corner_k2, corner_k1. lia. Qed.

Lemma corner_k3_grid (sectorCount i j : Z) :
  corner_k3 sectorCount i j = corner_k1 sectorCount (i + 1) j.
Proof. reflexivity. Qed.

Lemma corner_k4_grid (sectorCount i j : Z) :
  corner_k4 sectorCount i j = corner_k1 sectorCount (i + 1) (j + 1).
Proof. unfold corner_k4, corner_k3, corner_k1. lia. Qed.

Lemma grid_fits_stackCount (sectorCount stackCount : Z) :
  0 <= sectorCount -> 0 <= stackCount ->
  grid_fits sectorCount stackCount -> stackCount <= Int.INT_MAX.
Proof.
  unfold grid_fits, grid_size. intros Hsc Hst Hfit.
  assert ((stackCount + 1) * 1 <= (stackCount + 1) * (sectorCount + 1))
    by (apply Z.mul_le_mono_nonneg_l; lia).
  lia.
Qed.


End EmittedVertices.

Section ReadBounds.

Context {ops : FloatOps}.

Lemma vertex_reads_bounds (sectorCount stackCount i j : Z) :
  grid_fits sectorCount stackCount ->
  0 <= i <= stackCount -> 0 <= j <= sectorCount ->
  Forall (fun idx => 0 <= idx < grid_size sectorCount stackCount)
         (vertex_reads (Int.wrap (corner_k1 sectorCount i j))).
Proof.
  intros Hfit Hi Hj. rewrite vertex_reads_wrap. unfold vertex_reads.
  apply Forall_forall. intros idx Hidx.
  apply in_map_iff in Hidx. destruct Hidx as [k [<- Hk]].
  apply In_zrange in Hk.
  pose proof (flat_index_in_grid sectorCount stackCount i j k Hi Hj Hk) as Hb.
  unfold grid_fits in Hfit.
  rewrite flat_index_exact, wrap_small
    by (unfold Int.in_range, Int.INT_MIN; lia).
  exact Hb.
Qed.

Lemma cell_reads_bounds (sectorCount stackCount i j : Z) :
  grid_fits sectorCount stackCount ->
  0 <= i < stackCount -> 0 <= j < sectorCount ->
  Forall (fun idx => 0 <= idx < grid_size sectorCount stackCount)
         (cell_reads sectorCount stackCount i j).
Proof.
  intros Hfit Hi Hj. unfold cell_reads. cbv zeta.
  rewrite code_k1, code_k3, !code_succ.
  fold (corner_k2 sectorCount i j). fold (corner_k4 sectorCount i j).
  rewrite corner_k2_grid, corner_k3_grid, corner_k4_grid.
  assert (Htri : forall a b c : list Z,
             Forall (fun idx => 0 <= idx < grid_size sectorCount stackCount) a ->
             Forall (fun idx => 0 <= idx < grid_size sectorCount stackCount) b ->
             Forall (fun idx => 0 <= idx < grid_size sectorCount stackCount) c ->
             Forall (fun idx => 0 <= idx < grid_size sectorCount stackCount)
                    (a ++ b ++ c)).
  { intros a b c Ha Hb Hc. apply Forall_app. split; [exact Ha|].
    apply Forall_app. split; assumption. }
  apply Forall_app. split.
  - destruct (negb (i =? 0)); [|apply Forall_nil].
    apply Htri; apply vertex_reads_bounds; trivial; lia.
  - destruct (negb (i =? Int.sub stackCount 1)); [|apply Forall_nil].
    apply Htri; apply vertex_reads_bounds; trivial; lia.
Qed.

Lemma all_reads_bounds (sectorCount stackCount : Z) :
  grid_fits sectorCount stackCount ->
  Forall (fun idx => 0 <= idx < grid_size sectorCount stackCount)
         (all_reads sectorCount stackCount).
Proof.
  intros Hfit. apply Forall_forall. intros idx Hidx.
  unfold all_reads in Hidx.
  apply in_flat_map in Hidx. destruct Hidx as [i [Hi Hidx]].
  apply in_flat_map in Hidx. destruct Hidx as [j [Hj Hidx]].
  apply In_zrange in Hi. apply In_zrange in Hj.
  pose proof (cell_reads_bounds sectorCount stackCount i j Hfit Hi Hj) as Hc.
  rewrite Forall_forall in Hc. now apply Hc.
Qed.

End ReadBounds.

(** * Results on generateSphere *)

Section SphereResults.

Context {ops : FloatOps}.

Lemma generateSphere_spec_triangles (vertices : list float) (radius : float)
    (sectorCount stackCount : Z) :
  stackCount <= Int.INT_MAX ->
  generateSphere vertices radius sectorCount stackCount
  = vertices
    ++ flat_map (triangle_floats (sphereGrid radius sectorCount stackCount))
                (spec_triangles sectorCount stackCount).
Proof.
  intros Hst. unfold generateSphere. cbv zeta.
  now rewrite triangulate_reads, all_reads_spec.
Qed.

Lemma generateSphere_from_empty (vertices : list float) (radius : float)
    (sectorCount stackCount : Z) :
  generateSphere vertices radius sectorCount stackCount
  = vertices ++ generateSphere [] radius sectorCount stackCount.
Proof.
  unfold generateSphere. cbv zeta.
  now rewrite (triangulate_reads _ _ _ vertices), (triangulate_reads _ _ _ []).
Qed.

(** 18 floats for each of the [2 * sectorCount * (stackCount - 1)]
    triangles kept. *)
Lemma generateSphere_length (vertices : list float) (radius : float)
    (sectorCount stackCount : Z) :
  stackCount <= Int.INT_MAX -> 3 <= sectorCount -> 2 <= stackCount ->
  Z.of_nat (length (generateSphere vertices radius sectorCount stackCount))
  = Z.of_nat (length vertices) + 6 * (6 * sectorCount * (stackCount - 1)).
Proof.
  intros Hmax Hsc Hst.
  rewrite generateSphere_spec_triangles by exact Hmax.
  rewrite length_app, Nat2Z.inj_add.
  rewrite (length_flat_map_const _ 18)
    by (intros; apply length_triangle_floats).
  rewrite Nat2Z.inj_mul, length_spec_triangles by lia.
  change (Z.of_nat 18) with 18. lia.
Qed.

Lemma generateSphere_count (radius : float) (sectorCount stackCount : Z) :
  stackCount <= Int.INT_MAX -> 3 <= sectorCount -> 2 <= stackCount ->
  vertex_count (generateSphere [] radius sectorCount stackCount)
  = 6 * sectorCount * (stackCount - 1).
Proof.
  intros Hmax Hsc Hst. unfold vertex_count.
  rewrite generateSphere_length by assumption. cbn [length Z.of_nat].
  rewrite Z.add_0_l, Z.mul_comm. apply Z.div_mul. lia.
Qed.

(** C9. [generateSphere] appends: whatever the output vector holds on
    entry is still its prefix on return, followed by the data the call
    generates (the data it would put into an empty vector). *)
Theorem generateSphere_appends (vertices : list float) (radius : float)
    (sectorCount stackCount : Z) :
  firstn (length vertices)
         (generateSphere vertices radius sectorCount stackCount)
  = vertices
  /\ skipn (length vertices)
           (generateSphere vertices radius sectorCount stackCount)
     = generateSphere [] radius sectorCount stackCount.
Proof.
  rewrite generateSphere_from_empty. split.
  - rewrite firstn_app, Nat.sub_diag, firstn_all. cbn [firstn].
    apply app_nil_r.
  - rewrite skipn_app, Nat.sub_diag, skipn_all. reflexivity.
Qed.

End SphereResults.

Section ReadSafety.

Context {ops : FloatOps}.

(** C10, amended. For [sectorCount >= 3] and [stackCount >= 2] whose grid
    of [6 * (stackCount + 1) * (sectorCount + 1)] floats has at most
    [INT_MAX] elements, so that the [int] index arithmetic does not wrap
    around: the grid holds that many floats; what the call appends is
    what it reads at the indices [all_reads]; each of these indices lies
    inside the grid, between 0 and [k4 * 6 + 5] taken at
    [i = stackCount - 1], [j = sectorCount - 1]; and that bound is
    below the size of the grid. *)
Theorem triangulation_reads_in_bounds (vertices : list float)
    (radius : float) (sectorCount stackCount : Z) :
  3 <= sectorCount -> 2 <= stackCount ->
  grid_fits sectorCount stackCount ->
  Z.of_nat (length (sphereGrid radius sectorCount stackCount))
  = 6 * (stackCount + 1) * (sectorCount + 1)
  /\ generateSphere vertices radius sectorCount stackCount
     = vertices
       ++ map (vec_at indeterminate
                      (sphereGrid radius sectorCount stackCount))
              (all_reads sectorCount stackCount)
  /\ Forall
       (fun idx =>
          0 <= idx
               <= corner_k4 sectorCount (stackCount - 1) (sectorCount - 1) * 6 + 5
          /\ in_bounds (sphereGrid radius sectorCount stackCount) idx)
       (all_reads sectorCount stackCount)
  /\ corner_k4 sectorCount (stackCount - 1) (sectorCount - 1) * 6 + 5
     < 6 * (stackCount + 1) * (sectorCount + 1).
Proof.
  intros Hsc Hst Hfit.
  assert (Hlen := length_sphereGrid radius sectorCount stackCount
                    ltac:(lia) ltac:(lia)).
  assert (Hlast : corner_k4 sectorCount (stackCount - 1) (sectorCount - 1) * 6 + 5
                  = grid_size sectorCount stackCount - 1)
    by (unfold corner_k4, corner_k3, grid_size; lia).
  repeat split.
  - exact Hlen.
  - apply triangulate_reads.
  - apply Forall_forall. intros idx Hidx.
    pose proof (all_reads_bounds sectorCount stackCount Hfit) as Hall.
    rewrite Forall_forall in Hall. specialize (Hall idx Hidx).
    unfold in_bounds. rewrite Hlen, Hlast.
    unfold grid_fits in Hfit.
    rewrite to_size_t_small by lia. lia.
  - rewrite Hlast. unfold grid_size. lia.
Qed.

End ReadSafety.

(** C10 as stated fails once the index arithmetic wraps around.  With
    [sectorCount = 400000000] and [stackCount = 2] the first cell, [i = 0],
    [j = 0], reads at [k4 * 6] with [k4 = 400000002]: in 32 bits this is
    [-1894967284], as a [size_t] far beyond the 7200000018 floats of the
    grid. *)
Lemma reads_wrap_out_of_bounds :
  3 <= 400000000 /\ 2 <= 2 /\
  Int.in_range 400000000 /\ Int.in_range 2 /\
  In (-1894967284) (all_reads 400000000 2) /\
  ~ Forall (in_bounds (@sphereGrid Symbolic.sym_ops (Symbolic.Lit (1 # 2))
                                   400000000 2))
           (all_reads 400000000 2).
Proof.
  assert (Hin : In (-1894967284) (all_reads 400000000 2)).
  { unfold all_reads. apply in_flat_map. exists 0. split.
    - apply In_zrange. lia.
    - apply in_flat_map. exists 0. split.
      + apply In_zrange. lia.
      + vm_compute. tauto. }
  repeat split; try (unfold Int.in_range, Int.INT_MIN, Int.INT_MAX; lia).
  - exact Hin.
  - intros Hall. rewrite Forall_forall in Hall.
    specialize (Hall _ Hin). unfold in_bounds in Hall.
    rewrite length_sphereGrid in Hall by lia.
    vm_compute in Hall. discriminate Hall.
Qed.

Lemma vertex_floats_six {ops : FloatOps} (tempVertices : list float) (kk : Z) :
  vertex_floats tempVertices kk
  = [vec_at indeterminate tempVertices (Int.add (Int.mul kk 6) 0);
     vec_at indeterminate tempVertices (Int.add (Int.mul kk 6) 1);
     vec_at indeterminate tempVertices (Int.add (Int.mul kk 6) 2);
     vec_at indeterminate tempVertices (Int.add (Int.mul kk 6) 3);
     vec_at indeterminate tempVertices (Int.add (Int.mul kk 6) 4);
     vec_at indeterminate tempVertices (Int.add (Int.mul kk 6) 5)].
Proof. reflexivity. Qed.

(** * Facts about the run with undefined behaviour explicit *)

Section CheckedLoops.


Lemma int_defined (z : Z) : Int.in_range z -> Checked.int z = Some z.
Proof.
  unfold Int.in_range, Checked.int. intros [Hlo Hhi].
  apply Z.leb_le in Hlo. apply Z.leb_le in Hhi. now rewrite Hlo, Hhi.
Qed.


Lemma int_overflow (z : Z) : Int.INT_MAX < z -> Checked.int z = None.
Proof.
  unfold Checked.int. intros H.
  replace (z <=? Int.INT_MAX) with false by (symmetry; apply Z.leb_gt; exact H).
  now rewrite andb_false_r.
Qed.

Lemma fold_undefined {S : Type} (body : Z -> S -> option S) (l : list Z) :
  fold_left (fun acc i => Checked.bind acc (body i)) l None = None.
Proof. induction l as [|i l IH]; [reflexivity | exact IH]. Qed.

Lemma checked_for_range_cons {S : Type} (lo hi : Z)
    (body : Z -> S -> option S) (s : S) :
  lo < hi ->
  Checked.for_range lo hi body s
  = Checked.bind (body lo s) (Checked.for_range (lo + 1) hi body).
Proof.
  intros Hlt. unfold Checked.for_range. rewrite (zrange_cons lo hi) by exact Hlt.
  cbn [fold_left Checked.bind].
  destruct (body lo s) as [s'|]; [reflexivity | apply fold_undefined].
Qed.

(** A loop whose passes are all defined computes what the plain loop
    computes. *)
Lemma checked_for_range_defined {S : Type} (lo hi : Z)
    (body : Z -> S -> option S) (f : Z -> S -> S) (s : S) :
  (forall i s, lo <= i < hi -> body i s = Some (f i s)) ->
  Checked.for_range lo hi body s = Some (for_range lo hi f s).
Proof.
  intros Hbody. unfold Checked.for_range, for_range.
  assert (Hin : forall i s, In i (zrange lo hi) -> body i s = Some (f i s))
    by (intros i s' Hi; apply Hbody; now apply In_zrange).
  clear Hbody. revert s.
  induction (zrange lo hi) as [|i l IH]; intros s; [reflexivity|].
  cbn [fold_left Checked.bind]. rewrite Hin by (now left).
  apply IH. intros i' s' Hi'. apply Hin. now right.
Qed.



Lemma checked_vec_at_defined {A : Type} (v : list A) (idx : Z) (d : A) :
  0 <= idx < Z.of_nat (length v) ->
  Checked.vec_at v idx = Some (nth (Z.to_nat idx) v d).
Proof.
  intros [Hlo Hhi]. unfold Checked.vec_at.
  apply Z.leb_le in Hlo. rewrite Hlo.
  apply nth_error_nth'. apply Z.leb_le in Hlo. lia.
Qed.


End CheckedLoops.


Section CheckedSphere.

Context {ops : FloatOps}.



Lemma checked_read_defined (tempVertices : list float) (kk k : Z)
    (vertices : list float) :
  0 <= kk -> 0 <= k < 6 -> kk * 6 + 5 <= Int.INT_MAX ->
  kk * 6 + 5 < Z.of_nat (length tempVertices) ->
  Checked.push_read tempVertices kk k vertices
  = Some (push_back vertices
            (vec_at indeterminate tempVertices (Int.add (Int.mul kk 6) k))).
Proof.
  intros Hkk Hk Hmax Hlen.
  assert (Hidx : Int.in_range (kk * 6 + k))
    by (unfold Int.in_range, Int.INT_MIN, Int.INT_MAX in *; lia).
  unfold Checked.push_read, Checked.mul, Checked.add.
  rewrite int_defined
    by (unfold Int.in_range, Int.INT_MIN, Int.INT_MAX in *; lia).
  cbn [Checked.bind]. rewrite int_defined by exact Hidx.
  cbn [Checked.bind].
  rewrite (checked_vec_at_defined _ _ indeterminate) by lia.
  cbn [Checked.bind]. f_equal. f_equal. unfold vec_at.
  rewrite flat_index_exact, wrap_small by exact Hidx.
  rewrite to_size_t_small by (unfold Int.INT_MAX in *; lia).
  reflexivity.
Qed.

Lemma checked_copy_vertex_defined (tempVertices : list float) (kk : Z)
    (vertices : list float) :
  0 <= kk -> kk * 6 + 5 <= Int.INT_MAX ->
  kk * 6 + 5 < Z.of_nat (length tempVertices) ->
  Checked.copy_vertex tempVertices kk vertices
  = Some (copy_vertex tempVertices kk vertices).
Proof.
  intros Hkk Hmax Hlen. unfold Checked.copy_vertex, copy_vertex.
  apply checked_for_range_defined. intros k s Hk.
  now apply checked_read_defined.
Qed.



Lemma checked_sphereGrid_defined (radius : float)
    (sectorCount stackCount : Z) :
  sectorCount < Int.INT_MAX -> stackCount < Int.INT_MAX ->
  Checked.sphereGrid radius sectorCount stackCount
  = Some (sphereGrid radius sectorCount stackCount).
Proof.
  intros Hsc Hst.
  unfold Checked.sphereGrid, sphereGrid, Checked.for_through. cbv zeta.
  replace (stackCount =? Int.INT_MAX) with false
    by (symmetry; apply Z.eqb_neq; lia).
  replace (sectorCount =? Int.INT_MAX) with false
    by (symmetry; apply Z.eqb_neq; lia).
  apply checked_for_range_defined. intros i s _.
  apply checked_for_range_defined. intros j t _. reflexivity.
Qed.

End CheckedSphere.

Section CheckedTriangulation.

Context {ops : FloatOps}.


End CheckedTriangulation.

Section CheckedRun.

Context {ops : FloatOps}.

Lemma checked_for_range_appends {B : Type} (lo hi : Z)
    (body : Z -> list B -> option (list B)) (g : Z -> list B) (s : list B) :
  (forall i s, lo <= i < hi -> body i s = Some (s ++ g i)) ->
  Checked.for_range lo hi body s = Some (s ++ flat_map g (zrange lo hi)).
Proof.
  intros Hbody.
  rewrite (checked_for_range_defined lo hi body (fun i s => s ++ g i))
    by exact Hbody.
  f_equal. now apply for_range_appends.
Qed.

(** While the grid fits, every pass of the inner triangulation loop is
    defined and appends the triangles kept for its cell. *)
Lemma checked_cell_defined (tempVertices : list float)
    (sectorCount stackCount i j : Z) (vertices : list float) :
  grid_fits sectorCount stackCount ->
  0 <= i < stackCount -> 0 <= j < sectorCount ->
  Z.of_nat (length tempVertices) = grid_size sectorCount stackCount ->
  Checked.cell tempVertices sectorCount stackCount i j vertices
  = Some (vertices
          ++ flat_map (triangle_floats tempVertices)
                      (spec_cell_triangles sectorCount stackCount i j)).
Proof.
  intros Hfit Hi Hj Hlen.
  unfold grid_fits, grid_size in Hfit. unfold grid_size in Hlen.
  assert (H0 : 0 <= i * sectorCount) by nia.
  assert (H1 : i * sectorCount + sectorCount <= stackCount * sectorCount)
    by nia.
  assert (Hint : forall z, 0 <= z <= (stackCount + 1) * (sectorCount + 1) ->
                           Checked.int z = Some z).
  { intros z Hz. apply int_defined.
    unfold Int.in_range, Int.INT_MIN, Int.INT_MAX in *. lia. }
  assert (Hcopy : forall k v,
             0 <= k < (stackCount + 1) * (sectorCount + 1) ->
             Checked.copy_vertex tempVertices k v
             = Some (v ++ vertex_floats tempVertices k)).
  { intros k v Hk. rewrite checked_copy_vertex_defined.
    - now rewrite copy_vertex_appends.
    - lia.
    - unfold Int.INT_MAX in *. lia.
    - rewrite Hlen. lia. }
  unfold Checked.cell, Checked.add, Checked.mul, Checked.sub.
  rewrite (Hint (sectorCount + 1)) by lia. cbn [Checked.bind].
  rewrite (Hint (i * (sectorCount + 1))) by lia. cbn [Checked.bind].
  rewrite (Hint (i * (sectorCount + 1) + j)) by lia. cbn [Checked.bind].
  rewrite (Hint (i * (sectorCount + 1) + j + 1)) by lia. cbn [Checked.bind].
  rewrite (Hint (i + 1)) by lia. cbn [Checked.bind].
  rewrite (Hint ((i + 1) * (sectorCount + 1))) by lia. cbn [Checked.bind].
  rewrite (Hint ((i + 1) * (sectorCount + 1) + j)) by lia. cbn [Checked.bind].
  rewrite (Hint ((i + 1) * (sectorCount + 1) + j + 1)) by lia.
  cbn [Checked.bind].
  unfold spec_cell_triangles, corner_k4, corner_k2, corner_k3, corner_k1.
  destruct (i =? 0); cbn [negb Checked.bind];
    rewrite ?Hcopy by lia; cbn [Checked.bind];
    rewrite ?Hcopy by lia; cbn [Checked.bind];
    rewrite ?Hcopy by lia; cbn [Checked.bind];
    rewrite (Hint (stackCount - 1)) by lia; cbn [Checked.bind];
    destruct (i =? stackCount - 1); cbn [negb Checked.bind];
    rewrite ?Hcopy by lia; cbn [Checked.bind];
    rewrite ?Hcopy by lia; cbn [Checked.bind];
    rewrite ?Hcopy by lia;
    cbn [app flat_map triangle_floats];
    rewrite <- ?app_assoc, ?app_nil_r; reflexivity.
Qed.

Lemma checked_triangulate_defined (tempVertices : list float)
    (sectorCount stackCount : Z) (vertices : list float) :
  grid_fits sectorCount stackCount ->
  Z.of_nat (length tempVertices) = grid_size sectorCount stackCount ->
  Checked.triangulate tempVertices sectorCount stackCount vertices
  = Some (vertices
          ++ flat_map (triangle_floats tempVertices)
                      (spec_triangles sectorCount stackCount)).
Proof.
  intros Hfit Hlen. unfold Checked.triangulate, spec_triangles.
  rewrite <- flat_map_flat_map.
  apply checked_for_range_appends. intros i s Hi.
  rewrite <- flat_map_flat_map.
  apply checked_for_range_appends. intros j s' Hj.
  now apply checked_cell_defined.
Qed.





(** While the grid fits the call is defined and returns what the plain
    functions compute. *)
Lemma checked_generateSphere_defined (vertices : list float) (radius : float)
    (sectorCount stackCount : Z) :
  0 <= sectorCount -> 0 <= stackCount ->
  grid_fits sectorCount stackCount ->
  Checked.sphereGrid radius sectorCount stackCount
  = Some (sphereGrid radius sectorCount stackCount)
  /\ Checked.generateSphere vertices radius sectorCount stackCount
     = Some (generateSphere vertices radius sectorCount stackCount).
Proof.
  intros Hsc Hst Hfit.
  assert (Hmax : sectorCount < Int.INT_MAX /\ stackCount < Int.INT_MAX)
    by (unfold grid_fits, grid_size, Int.INT_MAX in *; nia).
  assert (Hgrid : Checked.sphereGrid radius sectorCount stackCount
                  = Some (sphereGrid radius sectorCount stackCount))
    by (apply checked_sphereGrid_defined; apply Hmax).
  split; [exact Hgrid|].
  unfold Checked.generateSphere. rewrite Hgrid. cbn [Checked.bind].
  rewrite checked_triangulate_defined
    by (trivial; apply length_sphereGrid; lia).
  now rewrite generateSphere_spec_triangles by lia.
Qed.


(** Once the flat index of the second corner read would pass [INT_MAX]
    the call is undefined: it reads corner [k2] of cell [(0, 0)] and
    then needs [k4 * 6] for [k4 = sectorCount + 2]. *)
Lemma checked_generateSphere_overflow (vertices : list float)
    (radius : float) (sectorCount stackCount : Z) :
  0 < sectorCount -> sectorCount + 2 <= Int.INT_MAX ->
  2 <= stackCount -> stackCount < Int.INT_MAX ->
  Int.INT_MAX < (sectorCount + 2) * 6 ->
  Checked.generateSphere vertices radius sectorCount stackCount = None.
Proof.
  intros Hsc Hsc' Hst Hst' Hover.
  unfold Checked.generateSphere.
  rewrite checked_sphereGrid_defined by lia. cbn [Checked.bind].
  assert (Hlen := length_sphereGrid radius sectorCount stackCount
                    ltac:(lia) ltac:(lia)).
  unfold grid_size in Hlen.
  set (grid := sphereGrid radius sectorCount stackCount) in *.
  unfold Checked.triangulate.
  rewrite (checked_for_range_cons 0 stackCount) by lia.
  rewrite (checked_for_range_cons 0 sectorCount) by lia.
  assert (Hcell : Checked.cell grid sectorCount stackCount 0 0 vertices = None).
  { assert (Hint : forall z, 0 <= z <= sectorCount + 2 ->
                             Checked.int z = Some z).
    { intros z Hz. apply int_defined.
      unfold Int.in_range, Int.INT_MIN, Int.INT_MAX in *. lia. }
    unfold Checked.cell, Checked.add, Checked.mul, Checked.sub.
    rewrite (Hint (sectorCount + 1)) by lia. cbn [Checked.bind].
    rewrite (Hint (0 * (sectorCount + 1))) by lia. cbn [Checked.bind].
    rewrite (Hint (0 * (sectorCount + 1) + 0)) by lia. cbn [Checked.bind].
    rewrite (Hint (0 * (sectorCount + 1) + 0 + 1)) by lia. cbn [Checked.bind].
    rewrite (Hint (0 + 1)) by lia. cbn [Checked.bind].
    rewrite (Hint ((0 + 1) * (sectorCount + 1))) by lia. cbn [Checked.bind].
    rewrite (Hint ((0 + 1) * (sectorCount + 1) + 0)) by lia.
    cbn [Checked.bind].
    rewrite (Hint ((0 + 1) * (sectorCount + 1) + 0 + 1)) by lia.
    cbn [Checked.bind].
    rewrite Z.eqb_refl. cbn [negb Checked.bind].
    rewrite int_defined
      by (unfold Int.in_range, Int.INT_MIN, Int.INT_MAX in *; lia).
    cbn [Checked.bind].
    replace (0 =? stackCount - 1) with false
      by (symmetry; apply Z.eqb_neq; lia).
    cbn [negb].
    rewrite checked_copy_vertex_defined
      by (unfold Int.INT_MAX in *; try rewrite Hlen; nia).
    cbn [Checked.bind].
    unfold Checked.copy_vertex at 1.
    rewrite (checked_for_range_cons 0 6) by lia.
    unfold Checked.push_read at 1, Checked.mul.
    rewrite int_overflow by lia. reflexivity. }
  rewrite Hcell. reflexivity.
Qed.

End CheckedRun.

(** * Results on the call *)

Section CheckedResults.

Context {ops : FloatOps}.

(** C1, amended. For [sectorCount >= 3] and [stackCount >= 2] whose grid
    of [6 * (stackCount + 1) * (sectorCount + 1)] floats has at most
    [INT_MAX] elements (any radius): the call is defined, returns, and
    has appended 6 floats for each of
    [6 * sectorCount * (stackCount - 1)] vertices, that is for
    [2 * sectorCount * (stackCount - 1)] triangles of 3 vertices; from
    an empty vector the vertex count [main] draws, [size() / 6], is
    [6 * sectorCount * (stackCount - 1)]. *)
Theorem generateSphere_vertex_count (vertices : list float) (radius : float)
    (sectorCount stackCount : Z) :
  3 <= sectorCount -> 2 <= stackCount ->
  grid_fits sectorCount stackCount ->
  (exists buffer,
      Checked.generateSphere vertices radius sectorCount stackCount
      = Some buffer
      /\ Z.of_nat (length buffer)
         = Z.of_nat (length vertices) + 6 * (6 * sectorCount * (stackCount - 1)))
  /\ (exists buffer,
         Checked.generateSphere [] radius sectorCount stackCount = Some buffer
         /\ vertex_count buffer = 6 * sectorCount * (stackCount - 1)
         /\ vertex_count buffer = 3 * (2 * sectorCount * (stackCount - 1))).
Proof.
  intros Hsc Hst Hfit.
  assert (Hmax : stackCount <= Int.INT_MAX)
    by (apply (grid_fits_stackCount sectorCount); trivial; lia).
  split.
  - eexists. split.
    + apply checked_generateSphere_defined; trivial; lia.
    + now apply generateSphere_length.
  - eexists. split; [|split].
    + apply checked_generateSphere_defined; trivial; lia.
    + now apply generateSphere_count.
    + rewrite generateSphere_count by assumption. lia.
Qed.

(** C4, amended. For [sectorCount >= 0] and [stackCount >= 0] whose grid
    has at most [INT_MAX] elements: the call is defined and the
    triangles it appends are, cell after cell with [i] outermost and [j]
    innermost, triangle [(k1, k2, k3)] exactly when [i <> 0] followed by
    triangle [(k2, k4, k3)] exactly when [i <> stackCount - 1], where
    [k1 = i * (sectorCount + 1) + j], [k2 = k1 + 1],
    [k3 = (i + 1) * (sectorCount + 1) + j], [k4 = k3 + 1]; each triangle
    contributes the six floats the code reads for each of its three
    corner numbers. *)
Theorem generateSphere_triangles (vertices : list float) (radius : float)
    (sectorCount stackCount : Z) :
  0 <= sectorCount -> 0 <= stackCount ->
  grid_fits sectorCount stackCount ->
  (exists tempVertices,
      Checked.sphereGrid radius sectorCount stackCount = Some tempVertices
      /\ Checked.generateSphere vertices radius sectorCount stackCount
         = Some (vertices
                 ++ flat_map (triangle_floats tempVertices)
                      (flat_map
                         (fun i =>
                            flat_map (spec_cell_triangles sectorCount stackCount i)
                                     (zrange 0 sectorCount))
                         (zrange 0 stackCount))))
  /\ forall i j t,
       In t (spec_cell_triangles sectorCount stackCount i j)
       <-> (t = (i * (sectorCount + 1) + j,
                 i * (sectorCount + 1) + j + 1,
                 (i + 1) * (sectorCount + 1) + j)
            /\ i <> 0)
           \/ (t = (i * (sectorCount + 1) + j + 1,
                    (i + 1) * (sectorCount + 1) + j + 1,
                    (i + 1) * (sectorCount + 1) + j)
               /\ i <> stackCount - 1).
Proof.
  intros Hsc Hst Hfit. split.
  - destruct (checked_generateSphere_defined vertices radius
                sectorCount stackCount Hsc Hst Hfit) as [Hgrid Hrun].
    exists (sphereGrid radius sectorCount stackCount).
    split; [exact Hgrid|].
    rewrite Hrun. f_equal. apply generateSphere_spec_triangles.
    now apply (grid_fits_stackCount sectorCount).
  - intros i j t. unfold spec_cell_triangles, corner_k4, corner_k2,
      corner_k3, corner_k1.
    rewrite in_app_iff.
    destruct (Z.eqb_spec i 0) as [E0|E0];
      destruct (Z.eqb_spec i (stackCount - 1)) as [E1|E1]; cbn [In];
      intuition congruence.
Qed.

(** The two calls the programs make, 16 by 8 and 24 by 12, are defined:
    there [generateSphere] is the buffer the call returns. *)
Lemma program_spheres_defined (radius : float) :
  Checked.generateSphere [] radius 16 8
  = Some (generateSphere [] radius 16 8)
  /\ Checked.generateSphere [] radius 24 12
     = Some (generateSphere [] radius 24 12).
Proof.
  split; apply checked_generateSphere_defined;
    unfold grid_fits, grid_size, Int.INT_MAX; lia.
Qed.

End CheckedResults.

(** C1 as stated fails where the grid does not fit.  With
    [sectorCount = 400000000] and [stackCount = 2] the first cell reads
    corner [k2 = 1] and then needs the index [k4 * 6] with
    [k4 = 400000002], which no [int] holds: the call is undefined and
    there is no buffer of [6 * 400000000 * (2 - 1)] vertices. *)
Lemma wrapped_run_returns_no_buffer :
  3 <= 400000000 /\ 2 <= 2
  /\ @Checked.generateSphere Symbolic.sym_ops [] (Symbolic.Lit (1 # 2))
                             400000000 2
     = None
  /\ ~ (exists buffer,
          @Checked.generateSphere Symbolic.sym_ops [] (Symbolic.Lit (1 # 2))
                                  400000000 2
          = Some buffer
          /\ vertex_count buffer = 6 * 400000000 * (2 - 1)).
Proof.
  assert (Hnone :
            @Checked.generateSphere Symbolic.sym_ops [] (Symbolic.Lit (1 # 2))
                                    400000000 2
            = None)
    by (apply checked_generateSphere_overflow; unfold Int.INT_MAX; lia).
  split; [lia|]. split; [lia|]. split; [exact Hnone|].
  intros [buffer [Hrun _]]. rewrite Hnone in Hrun. discriminate Hrun.
Qed.

(** C4 as stated fails where the grid does not fit.  With
    [sectorCount = 400000000] and [stackCount = 2], cell [(0, 0)] has
    [i <> stackCount - 1], so its triangle [(k2, k4, k3)] is
    [(1, 400000002, 400000001)]; the call is undefined at the read of
    corner [k4] and appends no such triangle. *)
Lemma wrapped_run_emits_no_triangle :
  0 <> 2 - 1
  /\ In (1, 400000002, 400000001) (spec_cell_triangles 400000000 2 0 0)
  /\ forall vertices,
       @Checked.generateSphere Symbolic.sym_ops vertices
                               (Symbolic.Lit (1 # 2)) 400000000 2
       = None.
Proof.
  split; [lia|]. split.
  - vm_compute. left. reflexivity.
  - intros vertices.
    apply checked_generateSphere_overflow; unfold Int.INT_MAX; lia.
Qed.

(** * generateSphere in exact real arithmetic *)

Section RealSphere.

Variable garbage : R.

Local Open Scope R_scope.


End RealSphere.



(** * Facts about the programs *)

Section ProgramFacts.

Context {ops : FloatOps} {ext : Collaborators}.

Lemma bind_run {A B : Type} (m : Prog A) (k : A -> Prog B) (s : State) :
  bind m k s
  = (value_of (k (value_of (m s)) (state_of (m s))),
     state_of (k (value_of (m s)) (state_of (m s))),
     trace_of (m s) ++ trace_of (k (value_of (m s)) (state_of (m s)))).
Proof.
  unfold bind, value_of, state_of, trace_of.
  destruct (m s) as [[a s1] t1]. cbn [fst snd].
  destruct (k a s1) as [[b s2] t2]. reflexivity.
Qed.

Lemma faithful_ret {A : Type} (a : A) : light_faithful (ret a).
Proof. intros s. split; [reflexivity | apply Forall_nil]. Qed.

Lemma faithful_bind {A B : Type} (m : Prog A) (k : A -> Prog B) :
  light_faithful m -> (forall a, light_faithful (k a)) ->
  light_faithful (bind m k).
Proof.
  intros Hm Hk s. rewrite bind_run. cbn [state_of trace_of fst snd].
  destruct (Hm s) as [Hm1 Hm2].
  destruct (Hk (value_of (m s)) (state_of (m s))) as [Hk1 Hk2].
  split.
  - now rewrite Hk1.
  - apply Forall_app. split; [exact Hm2|].
    now rewrite Hm1 in Hk2.
Qed.

Lemma faithful_call (c : Call) :
  lightPos_uniform c = None -> light_faithful (call c).
Proof.
  intros Hc s. split; [reflexivity|].
  apply Forall_cons; [|apply Forall_nil].
  intros v Hv. congruence.
Qed.

Lemma faithful_gets {A : Type} (f : State -> A) : light_faithful (gets f).
Proof. intros s. split; [reflexivity | apply Forall_nil]. Qed.

Lemma faithful_when (b : bool) (m : Prog unit) :
  light_faithful m -> light_faithful (when b m).
Proof. destruct b; [trivial | intros _; apply faithful_ret]. Qed.

Lemma faithful_update_window (i : nat) (f : WindowData -> WindowData) :
  light_faithful (update_window i f).
Proof. intros s. split; [reflexivity | apply Forall_nil]. Qed.

Lemma faithful_set_deltaTime (x : float) : light_faithful (set_deltaTime x).
Proof. intros s. split; [reflexivity | apply Forall_nil]. Qed.

Lemma faithful_set_lastFrame (x : float) : light_faithful (set_lastFrame x).
Proof. intros s. split; [reflexivity | apply Forall_nil]. Qed.

Lemma faithful_for_each {A : Type} (l : list A) (body : A -> Prog unit) :
  (forall x, light_faithful (body x)) -> light_faithful (for_each l body).
Proof.
  intros Hbody. induction l as [|x l IH]; cbn [for_each].
  - apply faithful_ret.
  - apply faithful_bind; [apply Hbody | intros _; exact IH].
Qed.

Lemma value_bind {A B : Type} (m : Prog A) (k : A -> Prog B) (s : State) :
  value_of (bind m k s) = value_of (k (value_of (m s)) (state_of (m s))).
Proof. now rewrite bind_run. Qed.

Lemma state_bind {A B : Type} (m : Prog A) (k : A -> Prog B) (s : State) :
  state_of (bind m k s) = state_of (k (value_of (m s)) (state_of (m s))).
Proof. now rewrite bind_run. Qed.

Lemma trace_bind {A B : Type} (m : Prog A) (k : A -> Prog B) (s : State) :
  trace_of (bind m k s)
  = trace_of (m s) ++ trace_of (k (value_of (m s)) (state_of (m s))).
Proof. now rewrite bind_run. Qed.

Lemma state_call (c : Call) (s : State) : state_of (call c s) = s.
Proof. reflexivity. Qed.

Lemma trace_call (c : Call) (s : State) : trace_of (call c s) = [c].
Proof. reflexivity. Qed.

Lemma value_ret {A : Type} (a : A) (s : State) : value_of (ret a s) = a.
Proof. reflexivity. Qed.

Lemma trace_ret {A : Type} (a : A) (s : State) : trace_of (ret a s) = [].
Proof. reflexivity. Qed.

(** Sending the light found in the state as [lightPos]. *)
Lemma faithful_send_light (k : vec3 -> Prog unit) :
  (forall s, lightPos (state_of (k (lightPos s) s)) = lightPos s
             /\ Forall (fun c => forall v, lightPos_uniform c = Some v ->
                                           v = lightPos s)
                       (trace_of (k (lightPos s) s))) ->
  light_faithful (bind (gets lightPos) k).
Proof.
  intros Hk s. rewrite bind_run. cbn [gets value_of state_of trace_of fst snd app].
  apply Hk.
Qed.

Lemma update_light_run (time : double) (s : State) :
  update_light time s
  = (tt,
     mkState (windows s) (deltaTime s) (lastFrame s)
             (animated_light time (lightPos s)),
     []).
Proof. reflexivity. Qed.

End ProgramFacts.

Section WindowFacts.

Context {ops : FloatOps} {ext : Collaborators}.

Lemma in_bind_left {A B : Type} (m : Prog A) (k : A -> Prog B) (s : State)
    (c : Call) :
  In c (trace_of (m s)) -> In c (trace_of (bind m k s)).
Proof. intros H. rewrite bind_run. apply in_or_app. now left. Qed.

Lemma in_bind_right {A B : Type} (m : Prog A) (k : A -> Prog B) (s : State)
    (c : Call) :
  In c (trace_of (k (value_of (m s)) (state_of (m s)))) ->
  In c (trace_of (bind m k s)).
Proof. intros H. rewrite bind_run. apply in_or_app. now right. Qed.

Lemma keeps_ret {A : Type} (i : nat) (a : A) : keeps_window i (ret a).
Proof. intros s. reflexivity. Qed.

Lemma keeps_bind {A B : Type} (i : nat) (m : Prog A) (k : A -> Prog B) :
  keeps_window i m -> (forall a, keeps_window i (k a)) ->
  keeps_window i (bind m k).
Proof.
  intros Hm Hk s. rewrite bind_run. cbn [state_of fst snd].
  now rewrite Hk, Hm.
Qed.

Lemma keeps_call (i : nat) (c : Call) : keeps_window i (call c).
Proof. intros s. reflexivity. Qed.

Lemma keeps_gets {A : Type} (i : nat) (f : State -> A) :
  keeps_window i (gets f).
Proof. intros s. reflexivity. Qed.

Lemma keeps_when (i : nat) (b : bool) (m : Prog unit) :
  keeps_window i m -> keeps_window i (when b m).
Proof. destruct b; [trivial | intros _; apply keeps_ret]. Qed.

Lemma keeps_update_window (i j : nat) (f : WindowData -> WindowData) :
  i <> j -> keeps_window i (update_window j f).
Proof.
  intros Hij s. unfold update_window, modify, state_of. cbn.
  destruct (Nat.eqb_spec i j); [contradiction | reflexivity].
Qed.

Lemma keeps_set_deltaTime (i : nat) (x : float) :
  keeps_window i (set_deltaTime x).
Proof. intros s. reflexivity. Qed.

Lemma keeps_set_lastFrame (i : nat) (x : float) :
  keeps_window i (set_lastFrame x).
Proof. intros s. reflexivity. Qed.

End WindowFacts.

Ltac faithful_step :=
  first
    [ apply faithful_ret
    | apply faithful_gets
    | apply faithful_update_window
    | apply faithful_set_deltaTime
    | apply faithful_set_lastFrame
    | apply faithful_call; reflexivity
    | apply faithful_when
    | apply faithful_bind; [|intros ?] ].

Ltac keeps_step :=
  first
    [ apply keeps_ret
    | apply keeps_gets
    | apply keeps_call
    | apply keeps_update_window; assumption
    | apply keeps_set_deltaTime
    | apply keeps_set_lastFrame
    | apply keeps_when
    | apply keeps_bind; [|intros ?] ].

Section MultiWindowFacts.

Context {ops : FloatOps} {ext : Collaborators}.
Import String.
Local Open Scope string_scope.

Lemma processInput_faithful (i : nat) (pressed : Key -> bool) (dt : float) :
  light_faithful (MultiWindow.processInput i pressed dt).
Proof.
  unfold MultiWindow.processInput, glfwSetWindowShouldClose.
  repeat faithful_step.
Qed.

Lemma processInput_keeps (i j : nat) (pressed : Key -> bool) (dt : float) :
  i <> j -> keeps_window i (MultiWindow.processInput j pressed dt).
Proof.
  intros Hij.
  unfold MultiWindow.processInput, glfwSetWindowShouldClose.
  repeat keeps_step.
Qed.

Lemma render_window_faithful (sphereVertices : list float)
    (inp : FrameInput) (i : nat) :
  light_faithful (MultiWindow.render_window sphereVertices inp i).
Proof.
  unfold MultiWindow.render_window, glfwWindowShouldClose.
  apply faithful_bind; [apply faithful_gets|]. intros closed.
  destruct closed; [apply faithful_ret|].
  do 2 (apply faithful_bind; [faithful_step | intros ?]).
  apply faithful_bind; [apply processInput_faithful | intros ?].
  do 5 (apply faithful_bind; [faithful_step | intros ?]).
  apply faithful_send_light. intros s.
  rewrite bind_run. cbn [call value_of state_of trace_of fst snd app].
  match goal with
  | |- lightPos (state_of (?m s)) = _ /\ _ =>
      assert (Hrest : light_faithful m) by (cbv zeta; repeat faithful_step)
  end.
  destruct (Hrest s) as [H1 H2].
  split; [exact H1|].
  apply Forall_cons; [|exact H2].
  intros v Hv. cbn in Hv. congruence.
Qed.

Lemma deliver_faithful (e : nat * InputEvent) :
  light_faithful (MultiWindow.deliver e).
Proof.
  destruct e as [i ev].
  destruct ev; cbn [MultiWindow.deliver]; unfold glfwSetWindowShouldClose;
    repeat faithful_step.
Qed.

Lemma render_window_keeps (sphereVertices : list float) (inp : FrameInput)
    (i j : nat) :
  i <> j -> keeps_window i (MultiWindow.render_window sphereVertices inp j).
Proof.
  intros Hij. unfold MultiWindow.render_window, glfwWindowShouldClose.
  apply keeps_bind; [apply keeps_gets|]. intros closed.
  destruct closed; [apply keeps_ret|].
  do 2 (apply keeps_bind; [keeps_step | intros ?]).
  apply keeps_bind; [now apply processInput_keeps | intros ?].
  cbv zeta. repeat keeps_step.
Qed.

(** A window that has not asked to close is sent the light of the
    state it is rendered in. *)
Lemma render_window_live (sphereVertices : list float) (inp : FrameInput)
    (i : nat) (s : State) :
  shouldClose (windows s i) = false ->
  In (setVec3 i lightingShader "lightPos" (lightPos s))
     (trace_of (MultiWindow.render_window sphereVertices inp i s)).
Proof.
  intros Hlive. unfold MultiWindow.render_window, glfwWindowShouldClose.
  apply in_bind_right. cbn [gets value_of state_of fst snd].
  rewrite Hlive.
  do 9 (apply in_bind_right; cbn [call gets value_of state_of fst snd]).
  apply in_bind_left. cbn [call trace_of snd]. left.
  f_equal. apply processInput_faithful.
Qed.

(** A window that has asked to close is skipped. *)
Lemma render_window_closed (sphereVertices : list float) (inp : FrameInput)
    (i : nat) (s : State) :
  shouldClose (windows s i) = true ->
  MultiWindow.render_window sphereVertices inp i s = (tt, s, []).
Proof.
  intros Hclosed. unfold MultiWindow.render_window, glfwWindowShouldClose.
  unfold bind, gets. now rewrite Hclosed.
Qed.

End MultiWindowFacts.

Section MultiWindowResults.

Context {ops : FloatOps} {ext : Collaborators}.
Import String.
Local Open Scope string_scope.

(** What follows the light update in a pass: the three windows, then
    the events. *)
Lemma after_light_faithful (sphereVertices : list float) (inp : FrameInput) :
  light_faithful
    (bind (for_each [0%nat; 1%nat; 2%nat]
                    (MultiWindow.render_window sphereVertices inp))
          (fun _ => bind (call glfwPollEvents)
                         (fun _ => for_each (polled inp) MultiWindow.deliver))).
Proof.
  apply faithful_bind.
  - apply faithful_for_each. intros i. apply render_window_faithful.
  - intros _. apply faithful_bind; [apply faithful_call; reflexivity|].
    intros _. apply faithful_for_each. intros e. apply deliver_faithful.
Qed.

Lemma frame_run (sphereVertices : list float) (inp : FrameInput) (s : State) :
  MultiWindow.frame sphereVertices inp s
  = bind (for_each [0%nat; 1%nat; 2%nat]
                   (MultiWindow.render_window sphereVertices inp))
         (fun _ => bind (call glfwPollEvents)
                        (fun _ => for_each (polled inp) MultiWindow.deliver))
         (mkState (windows s)
                  (fsub (f_of_d (time_frame inp)) (lastFrame s))
                  (f_of_d (time_frame inp))
                  (animated_light (time_light inp) (lightPos s))).
Proof.
  unfold MultiWindow.frame. cbv zeta.
  rewrite !bind_run. reflexivity.
Qed.

(** C3. In one pass of the three-window render loop the light position
    is assigned once, before the windows are visited: it is the value
    the animation computes from the pass's second clock reading, it is
    still the light position when the pass ends, every call of the pass
    that sets the uniform [lightPos] passes exactly this value, and
    every window that has not asked to close receives such a call. *)
Theorem frame_light_shared (sphereVertices : list float) (inp : FrameInput)
    (s : State) :
  lightPos (state_of (MultiWindow.frame sphereVertices inp s))
  = animated_light (time_light inp) (lightPos s)
  /\ Forall
       (fun c => forall v, lightPos_uniform c = Some v ->
                           v = animated_light (time_light inp) (lightPos s))
       (trace_of (MultiWindow.frame sphereVertices inp s))
  /\ forall i, (i < 3)%nat ->
       shouldClose (windows s i) = false ->
       In (setVec3 i lightingShader "lightPos"
                   (animated_light (time_light inp) (lightPos s)))
          (trace_of (MultiWindow.frame sphereVertices inp s)).
Proof.
  rewrite frame_run.
  set (s2 := mkState (windows s)
                     (fsub (f_of_d (time_frame inp)) (lastFrame s))
                     (f_of_d (time_frame inp))
                     (animated_light (time_light inp) (lightPos s))).
  destruct (after_light_faithful sphereVertices inp s2) as [Hkeep Hall].
  split; [exact Hkeep|]. split; [exact Hall|].
  intros i Hi Hlive.
  apply in_bind_left. cbn [for_each].
  pose proof (render_window_faithful sphereVertices inp 0 s2) as [L0 _].
  pose proof (render_window_keeps sphereVertices inp) as K.
  set (rw := MultiWindow.render_window sphereVertices inp) in *.
  destruct i as [|[|[|i]]]; [| | |lia].
  - apply in_bind_left.
    apply (render_window_live sphereVertices inp 0 s2). exact Hlive.
  - apply in_bind_right, in_bind_left.
    replace (animated_light (time_light inp) (lightPos s))
      with (lightPos (state_of (rw 0%nat s2))) by exact L0.
    apply render_window_live.
    rewrite (K 1%nat 0%nat) by lia. exact Hlive.
  - apply in_bind_right, in_bind_right, in_bind_left.
    pose proof (render_window_faithful sphereVertices inp 1
                  (state_of (rw 0%nat s2))) as [L1 _].
    fold rw in L1.
    replace (animated_light (time_light inp) (lightPos s))
      with (lightPos (state_of (rw 1%nat (state_of (rw 0%nat s2)))))
      by (rewrite L1; exact L0).
    apply render_window_live.
    rewrite (K 2%nat 1%nat), (K 2%nat 0%nat) by lia. exact Hlive.
Qed.

(** The loop is left as soon as one window has asked to close: no pass
    is run, no call is made. *)
Lemma render_loop_stops (sphereVertices : list float)
    (inputs : list FrameInput) (s : State) (i : nat) :
  (i < 3)%nat -> shouldClose (windows s i) = true ->
  MultiWindow.render_loop sphereVertices inputs s = (true, s, []).
Proof.
  intros Hi Hclosed.
  assert (Hcond : MultiWindow.loop_condition s = false).
  { unfold MultiWindow.loop_condition.
    destruct i as [|[|[|i]]]; [| | |lia]; rewrite Hclosed; cbn;
      now rewrite ?andb_false_r. }
  destruct inputs; cbn [MultiWindow.render_loop]; now rewrite Hcond.
Qed.

(** Inside the loop no window has asked to close when a pass starts, so
    the skip in the body is never taken there. *)
Lemma loop_condition_all_live (s : State) :
  MultiWindow.loop_condition s = true ->
  forall i, (i < 3)%nat -> shouldClose (windows s i) = false.
Proof.
  unfold MultiWindow.loop_condition. intros H i Hi.
  apply andb_prop in H. destruct H as [H H2].
  apply andb_prop in H. destruct H as [H0 H1].
  destruct i as [|[|[|i]]]; [| | |lia];
    now apply negb_true_iff.
Qed.

End MultiWindowResults.

(** C2, the code against the claim. Window 0 is asked to close during the
    first pass; windows 1 and 2 are not, and two more passes are on offer.
    The loop is left after the first pass: not every window has asked to
    close, and windows 1 and 2 have presented one frame each instead of
    three. *)
Theorem render_loop_left_on_first_close :
  let r := @MultiWindow.render_loop Symbolic.sym_ops Symbolic.sym_ext []
             [Symbolic.closing_frame 0 0; Symbolic.quiet_frame 1;
              Symbolic.quiet_frame 2]
             Symbolic.start in
  value_of r = true
  /\ all_closed (state_of r) = false
  /\ shouldClose (windows (state_of r) 1%nat) = false
  /\ shouldClose (windows (state_of r) 2%nat) = false
  /\ frames_presented 1 (trace_of r) = 1%nat
  /\ frames_presented 2 (trace_of r) = 1%nat.
Proof. vm_compute. repeat split. Qed.

Section SingleWindowFacts.

Context {ops : FloatOps} {ext : Collaborators}.
Import String.
Local Open Scope string_scope.

Lemma single_processInput_faithful (pressed : Key -> bool) :
  light_faithful (SingleWindow.processInput pressed).
Proof.
  unfold SingleWindow.processInput, glfwSetWindowShouldClose.
  repeat faithful_step.
Qed.

Lemma single_deliver_faithful (e : nat * InputEvent) :
  light_faithful (SingleWindow.deliver e).
Proof.
  destruct e as [i ev].
  destruct ev; cbn [SingleWindow.deliver snd];
    unfold glfwSetWindowShouldClose; repeat faithful_step.
Qed.

Lemma render_faithful (sphereVertices : list float) :
  light_faithful (SingleWindow.render sphereVertices).
Proof.
  unfold SingleWindow.render.
  do 3 (apply faithful_bind; [faithful_step | intros ?]).
  apply faithful_send_light. intros s.
  rewrite bind_run. cbn [call value_of state_of trace_of fst snd app].
  match goal with
  | |- lightPos (state_of (?m s)) = _ /\ _ =>
      assert (Hrest : light_faithful m) by (cbv zeta; repeat faithful_step)
  end.
  destruct (Hrest s) as [H1 H2].
  split; [exact H1|].
  apply Forall_cons; [|exact H2].
  intros v Hv. cbn in Hv. congruence.
Qed.

Lemma render_sends_light (sphereVertices : list float) (s : State) :
  In (setVec3 0 lightingShader "lightPos" (lightPos s))
     (trace_of (SingleWindow.render sphereVertices s)).
Proof.
  unfold SingleWindow.render.
  do 4 (apply in_bind_right; cbn [call gets value_of state_of fst snd]).
  apply in_bind_left. now left.
Qed.

(** What follows the light update in a pass. *)
Lemma single_after_light_faithful (sphereVertices : list float)
    (inp : FrameInput) :
  light_faithful
    (bind (SingleWindow.render sphereVertices)
          (fun _ => bind (call glfwPollEvents)
                         (fun _ => for_each (polled inp) SingleWindow.deliver))).
Proof.
  apply faithful_bind; [apply render_faithful|]. intros _.
  apply faithful_bind; [apply faithful_call; reflexivity|]. intros _.
  apply faithful_for_each. intros e. apply single_deliver_faithful.
Qed.

(** One pass: the light is animated from the second clock reading and
    sent to the shader. *)
Lemma single_frame_light (sphereVertices : list float) (inp : FrameInput)
    (s : State) :
  lightPos (state_of (SingleWindow.frame sphereVertices inp s))
  = animated_light (time_light inp) (lightPos s)
  /\ In (setVec3 0 lightingShader "lightPos"
                 (animated_light (time_light inp) (lightPos s)))
        (trace_of (SingleWindow.frame sphereVertices inp s)).
Proof.
  unfold SingleWindow.frame. cbv zeta.
  do 3 (rewrite bind_run;
        cbn [gets set_deltaTime set_lastFrame modify value_of state_of
             trace_of fst snd app]).
  set (s0 := mkState (windows s)
                     (fsub (f_of_d (time_frame inp)) (lastFrame s))
                     (f_of_d (time_frame inp)) (lightPos s)).
  rewrite bind_run.
  destruct (single_processInput_faithful (key_pressed inp 0%nat) s0)
    as [Hp _].
  set (s1 := state_of (SingleWindow.processInput (key_pressed inp 0%nat) s0))
    in *.
  do 3 (rewrite bind_run;
        cbn [call update_light value_of state_of trace_of fst snd app]).
  rewrite update_light_run. cbn [value_of state_of trace_of fst snd app].
  set (s2 := mkState (windows s1) (deltaTime s1) (lastFrame s1)
                     (animated_light (time_light inp) (lightPos s1))).
  destruct (single_after_light_faithful sphereVertices inp s2) as [Hkeep _].
  assert (Hlight : lightPos s2 = animated_light (time_light inp) (lightPos s))
    by (unfold s2; cbn [lightPos]; rewrite Hp; reflexivity).
  split.
  - cbn [state_of fst snd]. fold (@state_of ops ext unit).
    rewrite <- Hlight. exact Hkeep.
  - cbn [trace_of snd]. apply in_or_app. right.
    do 2 right. rewrite <- Hlight.
    apply in_bind_left. apply render_sends_light.
Qed.

Lemma animated_light_z (time : double) (before : vec3) :
  vz (animated_light time before) = vz before.
Proof. reflexivity. Qed.

(** The [z] coordinate of the light is never assigned. *)
Lemma run_frames_light_z (sphereVertices : list float)
    (inputs : list FrameInput) (s : State) :
  vz (lightPos (state_of
                  (run_frames (SingleWindow.frame sphereVertices) inputs s)))
  = vz (lightPos s).
Proof.
  unfold run_frames. revert s.
  induction inputs as [|inp inputs IH]; intros s; cbn [for_each].
  - reflexivity.
  - rewrite bind_run. cbn [state_of fst snd].
    fold (@state_of ops ext unit). rewrite IH.
    destruct (single_frame_light sphereVertices inp s) as [-> _].
    apply animated_light_z.
Qed.

End SingleWindowFacts.

Section LightOrbit.

Variable garbage : R.
Context {ext : @Collaborators (R_ops garbage)}.
Import String.
Local Open Scope string_scope.
Local Open Scope R_scope.

Lemma animated_light_orbit (t : R) (before : @vec3 (R_ops garbage)) :
  @vz (R_ops garbage) before = Q2R (35 # 10) ->
  @animated_light (R_ops garbage) t before = orbit t.
Proof.
  intros Hz. unfold animated_light, orbit. cbn. rewrite Hz.
  unfold Q2R. cbn.
  f_equal.
  - replace (t * (1 * / 1)) with (1 * t) by field. field.
  - replace (t * (1 * / 1)) with (1 * t) by field. field.
  - field.
Qed.

Lemma orbit_at_0 : @orbit garbage 0 = @mkVec3 (R_ops garbage) 0 2 (7 / 2).
Proof.
  unfold orbit. rewrite Rmult_0_r, sin_0, cos_0. f_equal; field.
Qed.

Lemma orbit_at_half_pi :
  @orbit garbage (PI / 2) = @mkVec3 (R_ops garbage) 2 0 (7 / 2).
Proof.
  unfold orbit. rewrite Rmult_1_l, sin_PI2, cos_PI2. f_equal; field.
Qed.

(** C6. In exact real arithmetic, in every pass of the render loop,
    whatever passes ran before it since the program started, the light
    position after the light update is
    [C + (R sin(w t), R cos(w t), 0)] with [C = (0, 0, 3.5)], [R = 2],
    [w = 1] and [t] the clock reading of the update, and this is the
    value sent as the uniform [lightPos]; at [t = 0] it is
    [(0, 2, 3.5)], at [t = pi / 2] it is [(2, 0, 3.5)]. *)
Theorem light_follows_orbit (sphereVertices : list (@float (R_ops garbage)))
    (before : list (@FrameInput (R_ops garbage)))
    (inp : @FrameInput (R_ops garbage)) :
  let s := state_of
             (run_frames (@SingleWindow.frame (R_ops garbage) ext sphereVertices)
                         before
                         (initial_state SingleWindow.globals)) in
  let r := @SingleWindow.frame (R_ops garbage) ext sphereVertices inp s in
  lightPos (state_of r) = orbit (@time_light (R_ops garbage) inp)
  /\ In (@setVec3 (R_ops garbage) ext 0 lightingShader "lightPos"
                  (orbit (@time_light (R_ops garbage) inp)))
        (trace_of r)
  /\ @orbit garbage 0 = @mkVec3 (R_ops garbage) 0 2 (7 / 2)
  /\ @orbit garbage (PI / 2) = @mkVec3 (R_ops garbage) 2 0 (7 / 2).
Proof.
  intros s r.
  assert (Hz : @vz (R_ops garbage) (lightPos s) = Q2R (35 # 10)).
  { unfold s. rewrite run_frames_light_z. reflexivity. }
  destruct (single_frame_light sphereVertices inp s) as [Hstate Hsent].
  rewrite (animated_light_orbit _ _ Hz) in Hstate, Hsent.
  repeat split.
  - exact Hstate.
  - exact Hsent.
  - apply orbit_at_0.
  - apply orbit_at_half_pi.
Qed.

End LightOrbit.

Section ExitPaths.

Context {ops : FloatOps} {ext : Collaborators}.
Import String.
Local Open Scope string_scope.

(** Window creation fails: diagnostic, [glfwTerminate], [return -1]. *)
Lemma main_without_window (env : Env) (s : State) :
  window_created env 0%nat = false ->
  SingleWindow.main env s
  = (Some (-1), s,
     [glfwInit; glfwWindowHint; glfwWindowHint; glfwWindowHint;
      glfwCreateWindow 0; print "Failed to create GLFW window";
      glfwTerminate]).
Proof.
  intros Hw. unfold SingleWindow.main. rewrite Hw. reflexivity.
Qed.

(** GLAD fails to load: diagnostic and [return -1], nothing else. *)
Lemma main_without_glad (env : Env) (s : State) :
  window_created env 0%nat = true -> glad_loaded env 0%nat = false ->
  SingleWindow.main env s
  = (Some (-1), s,
     [glfwInit; glfwWindowHint; glfwWindowHint; glfwWindowHint;
      glfwCreateWindow 0; glfwMakeContextCurrent 0; glfwSetCallbacks 0;
      glfwSetInputMode 0; gladLoadGLLoader;
      print "Failed to initialize GLAD"]).
Proof.
  intros Hw Hg. unfold SingleWindow.main. rewrite Hw, Hg. reflexivity.
Qed.

Lemma ends_with_cons {A : Type} (x : A) (l suffix : list A) :
  (exists before, l = before ++ suffix)%list ->
  (exists before, x :: l = before ++ suffix)%list.
Proof. intros [before ->]. now exists (x :: before). Qed.

Lemma ends_with_app {A : Type} (l1 l2 suffix : list A) :
  (exists before, l2 = before ++ suffix)%list ->
  (exists before, l1 ++ l2 = before ++ suffix)%list.
Proof.
  intros [before ->]. exists (l1 ++ before)%list. apply app_assoc.
Qed.

(** Leaving the render loop: the four objects are deleted and GLFW is
    terminated, last of all. *)
Lemma main_returns_0 (env : Env) (s : State) :
  value_of (SingleWindow.main env s) = Some 0 ->
  exists before,
    trace_of (SingleWindow.main env s)
    = (before ++ [glDelete 0 sphereVAO; glDelete 0 lightCubeVAO;
                  glDelete 0 VBO; glDelete 0 lightVBO; glfwTerminate])%list.
Proof.
  unfold SingleWindow.main.
  destruct (window_created env 0%nat); [|intros H; discriminate H].
  destruct (glad_loaded env 0%nat); [|intros H; discriminate H].
  cbv beta iota zeta delta [negb].
  generalize (generateSphere [] (f_lit (5 # 10)) 24 12) as sv. intros sv.
  unfold SingleWindow.setup_buffers, SingleWindow.teardown.
  set (loop := SingleWindow.render_loop sv (frames env)).
  intros H.
  repeat (rewrite value_bind, ?state_bind, ?state_call in H).
  repeat (rewrite trace_bind, ?state_bind, ?state_call, ?trace_call).
  destruct (value_of (loop s)); cbv beta iota zeta delta [negb] in *.
  - repeat (rewrite trace_bind, ?state_bind, ?state_call, ?trace_call).
    rewrite trace_ret.
    repeat first [ solve [exists []; reflexivity]
                 | apply ends_with_cons
                 | apply ends_with_app ].
  - rewrite value_ret in H. discriminate H.
Qed.

End ExitPaths.

(** C8, the code against the claim. The window is created and GLAD fails
    to load: [main] returns -1 without having called [glfwTerminate].
    When the window cannot be created it does call it before returning
    -1, and when the render loop is left it deletes its objects and calls
    it. *)
Theorem glad_failure_skips_teardown :
  let start := @initial_state Symbolic.sym_ops Symbolic.sym_ext
                 (@SingleWindow.globals Symbolic.sym_ops Symbolic.sym_ext) in
  let glad_fails :=
    @SingleWindow.main Symbolic.sym_ops Symbolic.sym_ext
      (@mkEnv Symbolic.sym_ops (fun _ => true) (fun _ => false) []) start in
  let no_window :=
    @SingleWindow.main Symbolic.sym_ops Symbolic.sym_ext
      (@mkEnv Symbolic.sym_ops (fun _ => false) (fun _ => false) []) start in
  let closed_by_user :=
    @SingleWindow.main Symbolic.sym_ops Symbolic.sym_ext
      (@mkEnv Symbolic.sym_ops (fun _ => true) (fun _ => true)
              [Symbolic.closing_frame 0 0]) start in
  (value_of glad_fails = Some (-1)
   /\ terminates_glfw (trace_of glad_fails) = false)
  /\ (value_of no_window = Some (-1)
      /\ terminates_glfw (trace_of no_window) = true)
  /\ (value_of closed_by_user = Some 0
      /\ terminates_glfw (trace_of closed_by_user) = true
      /\ deletes 0 sphereVAO (trace_of closed_by_user) = true
      /\ deletes 0 VBO (trace_of closed_by_user) = true
      /\ deletes 0 lightCubeVAO (trace_of closed_by_user) = true
      /\ deletes 0 lightVBO (trace_of closed_by_user) = true).
Proof. vm_compute. repeat split. Qed.

(** * The results at the parameters the programs use *)

(** C1 at the smallest sphere the contract allows. *)
Lemma generateSphere_vertex_count_witness :
  (exists buffer,
      @Checked.generateSphere Symbolic.sym_ops [] (Symbolic.Lit (1 # 2)) 3 2
      = Some buffer
      /\ Z.of_nat (length buffer)
         = Z.of_nat (length (@nil Symbolic.term)) + 6 * (6 * 3 * (2 - 1)))
  /\ (exists buffer,
         @Checked.generateSphere Symbolic.sym_ops [] (Symbolic.Lit (1 # 2)) 3 2
         = Some buffer
         /\ vertex_count buffer = 6 * 3 * (2 - 1)
         /\ vertex_count buffer = 3 * (2 * 3 * (2 - 1))).
Proof.
  apply (@generateSphere_vertex_count Symbolic.sym_ops []
           (Symbolic.Lit (1 # 2)) 3 2);
    unfold grid_fits, grid_size, Int.INT_MAX; lia.
Defined.

(** C4 for the sphere of the three-window program. *)
Lemma generateSphere_triangles_witness :
  exists tempVertices,
    @Checked.sphereGrid Symbolic.sym_ops (Symbolic.Lit (1 # 2)) 16 8
    = Some tempVertices
    /\ @Checked.generateSphere Symbolic.sym_ops [] (Symbolic.Lit (1 # 2)) 16 8
       = Some ([] ++ flat_map (triangle_floats tempVertices)
                       (flat_map
                          (fun i => flat_map (spec_cell_triangles 16 8 i)
                                             (zrange 0 16))
                          (zrange 0 8))).
Proof.
  apply (@generateSphere_triangles Symbolic.sym_ops []
           (Symbolic.Lit (1 # 2)) 16 8);
    unfold grid_fits, grid_size, Int.INT_MAX; lia.
Defined.

(** C10 for the sphere of the single-window program. *)
Lemma triangulation_reads_in_bounds_witness :
  Forall
    (fun idx =>
       0 <= idx <= corner_k4 24 (12 - 1) (24 - 1) * 6 + 5
       /\ in_bounds (@sphereGrid Symbolic.sym_ops (Symbolic.Lit (1 # 2)) 24 12)
                    idx)
    (all_reads 24 12).
Proof.
  apply (@triangulation_reads_in_bounds Symbolic.sym_ops []
           (Symbolic.Lit (1 # 2)) 24 12);
    unfold grid_fits, grid_size, Int.INT_MAX; lia.
Defined.


Section PassWitness.

Import String.
Local Open Scope string_scope.

(** C3 for a quiet first pass of the three windows: the middle window is
    sent the animated light. *)
Lemma frame_light_shared_witness :
  In (@setVec3 Symbolic.sym_ops Symbolic.sym_ext 1 lightingShader "lightPos"
        (animated_light
           (@time_light Symbolic.sym_ops (Symbolic.quiet_frame 0))
           (lightPos Symbolic.start)))
     (trace_of (@MultiWindow.frame Symbolic.sym_ops Symbolic.sym_ext []
                  (Symbolic.quiet_frame 0) Symbolic.start)).
Proof.
  apply (@frame_light_shared Symbolic.sym_ops Symbolic.sym_ext []
           (Symbolic.quiet_frame 0) Symbolic.start).
  - lia.
  - reflexivity.
Defined.

End PassWitness.

(** * Further properties of generateSphere *)

Section SphereEdges.

Context {ops : FloatOps}.

Lemma all_reads_nothing (sectorCount stackCount : Z) :
  stackCount <= 1 \/ sectorCount <= 0 ->
  all_reads sectorCount stackCount = [].
Proof.
  intros Hdeg. unfold all_reads.
  assert (Hrow : forall i,
             0 <= i < stackCount ->
             flat_map (cell_reads sectorCount stackCount i)
                      (zrange 0 sectorCount) = []).
  { intros i Hi. destruct Hdeg as [Hst | Hsc].
    - assert (stackCount = 1) by lia. assert (i = 0) by lia. subst.
      induction (zrange 0 sectorCount) as [|j l IH]; [reflexivity|].
      cbn [flat_map]. rewrite IH. reflexivity.
    - now rewrite zrange_nil by lia. }
  assert (Hin : forall i, In i (zrange 0 stackCount) -> 0 <= i < stackCount)
    by (intros i Hi; now apply In_zrange).
  induction (zrange 0 stackCount) as [|i l IH]; [reflexivity|].
  cbn [flat_map]. rewrite Hrow by (apply Hin; now left).
  apply IH. intros k Hk. apply Hin. now right.
Qed.

Lemma generateSphere_nothing_to_do (vertices : list float) (radius : float)
    (sectorCount stackCount : Z) :
  stackCount <= 1 \/ sectorCount <= 0 ->
  generateSphere vertices radius sectorCount stackCount = vertices.
Proof.
  intros Hdeg. unfold generateSphere. cbv zeta.
  rewrite triangulate_reads, all_reads_nothing by exact Hdeg.
  apply app_nil_r.
Qed.

(** X1. With no stack, a single stack or no sector (and a grid that
    fits) the call is defined, returns, and has appended nothing: a
    single stack is top and bottom row at once, and both triangles of
    its cells are skipped. *)
Theorem generateSphere_degenerate (vertices : list float) (radius : float)
    (sectorCount stackCount : Z) :
  0 <= sectorCount -> 0 <= stackCount ->
  grid_fits sectorCount stackCount ->
  stackCount <= 1 \/ sectorCount = 0 ->
  Checked.generateSphere vertices radius sectorCount stackCount
  = Some vertices.
Proof.
  intros Hsc Hst Hfit Hdeg.
  destruct (checked_generateSphere_defined vertices radius
              sectorCount stackCount Hsc Hst Hfit) as [_ ->].
  f_equal. apply generateSphere_nothing_to_do. lia.
Qed.

Lemma decode_triangles (tempVertices : list float) (l : list (Z * Z * Z)) :
  length (decode_vertices (flat_map (triangle_floats tempVertices) l))
  = (3 * length l)%nat.
Proof.
  induction l as [|[[a b] c] l IH]; [reflexivity|].
  cbn [flat_map triangle_floats length].
  rewrite !vertex_floats_six. cbn [app decode_vertices length].
  rewrite IH. lia.
Qed.

(** X2. For [sectorCount >= 0] and [stackCount >= 0] whose grid fits,
    degenerate values included, the buffer the call fills from empty
    holds whole triangles: 18 floats and 3 decoded vertices for each
    triangle kept, so the count [size() / 6] handed to [glDrawArrays]
    drops nothing. *)
Theorem buffer_holds_whole_triangles (radius : float)
    (sectorCount stackCount : Z) :
  0 <= sectorCount -> 0 <= stackCount ->
  grid_fits sectorCount stackCount ->
  exists buffer,
    Checked.generateSphere [] radius sectorCount stackCount = Some buffer
    /\ Z.of_nat (length buffer)
       = 18 * Z.of_nat (length (spec_triangles sectorCount stackCount))
    /\ Z.of_nat (length (decode_vertices buffer))
       = 3 * Z.of_nat (length (spec_triangles sectorCount stackCount))
    /\ vertex_count buffer
       = 3 * Z.of_nat (length (spec_triangles sectorCount stackCount))
    /\ 6 * vertex_count buffer = Z.of_nat (length buffer).
Proof.
  intros Hsc Hst Hfit.
  destruct (checked_generateSphere_defined [] radius
              sectorCount stackCount Hsc Hst Hfit) as [_ Hrun].
  exists (generateSphere [] radius sectorCount stackCount).
  split; [exact Hrun|].
  set (buffer := generateSphere [] radius sectorCount stackCount).
  set (triangles := Z.of_nat (length (spec_triangles sectorCount stackCount))).
  assert (Hbuf : buffer = flat_map
                   (triangle_floats (sphereGrid radius sectorCount stackCount))
                   (spec_triangles sectorCount stackCount)).
  { unfold buffer. rewrite generateSphere_spec_triangles; [reflexivity|].
    now apply (grid_fits_stackCount sectorCount). }
  assert (Hlen : Z.of_nat (length buffer) = 18 * triangles).
  { rewrite Hbuf.
    rewrite (length_flat_map_const _ 18)
      by (intros; apply length_triangle_floats).
    unfold triangles. lia. }
  assert (Hcount : vertex_count buffer = 3 * triangles).
  { unfold vertex_count. rewrite Hlen.
    replace (18 * triangles) with (3 * triangles * 6) by lia.
    apply Z.div_mul. lia. }
  repeat split.
  - exact Hlen.
  - rewrite Hbuf, decode_triangles. unfold triangles. lia.
  - exact Hcount.
  - rewrite Hcount, Hlen. lia.
Qed.

Lemma cell_corners_distinct (sectorCount stackCount i j a b c : Z) :
  0 < sectorCount -> 0 <= i < stackCount -> 0 <= j < sectorCount ->
  In (a, b, c) (spec_cell_triangles sectorCount stackCount i j) ->
  (a <> b /\ b <> c /\ a <> c)
  /\ 0 <= a < (stackCount + 1) * (sectorCount + 1)
  /\ 0 <= b < (stackCount + 1) * (sectorCount + 1)
  /\ 0 <= c < (stackCount + 1) * (sectorCount + 1).
Proof.
  intros Hsc Hi Hj Hin.
  assert (Hk : 0 <= i * (sectorCount + 1)
               /\ (i + 1) * (sectorCount + 1) <= stackCount * (sectorCount + 1)).
  { split; [apply Z.mul_nonneg_nonneg; lia|].
    apply Z.mul_le_mono_nonneg_r; lia. }
  unfold spec_cell_triangles, corner_k4, corner_k2, corner_k3, corner_k1 in Hin.
  apply in_app_or in Hin.
  destruct (i =? 0); destruct (i =? stackCount - 1); cbn [In] in Hin;
    repeat match goal with
           | H : _ \/ _ |- _ => destruct H
           | H : False |- _ => destruct H
           | H : (_, _, _) = (_, _, _) |- _ => inversion H; clear H; subst
           end;
    lia.
Qed.

(** X3. Where the grid fits, the call appends the floats of a list of
    triangles every one of which has three different corners, all grid
    points of the [(stackCount + 1) x (sectorCount + 1)] grid: no
    triangle is degenerate by index and no corner number leaves the
    grid. *)
Theorem triangle_corners_distinct (vertices : list float) (radius : float)
    (sectorCount stackCount : Z) :
  0 < sectorCount -> 0 <= stackCount ->
  grid_fits sectorCount stackCount ->
  exists tempVertices,
    Checked.sphereGrid radius sectorCount stackCount = Some tempVertices
    /\ Checked.generateSphere vertices radius sectorCount stackCount
       = Some (vertices
               ++ flat_map (triangle_floats tempVertices)
                           (spec_triangles sectorCount stackCount))
    /\ Forall
         (fun t =>
            (fst (fst t) <> snd (fst t) /\ snd (fst t) <> snd t
             /\ fst (fst t) <> snd t)
            /\ 0 <= fst (fst t) < (stackCount + 1) * (sectorCount + 1)
            /\ 0 <= snd (fst t) < (stackCount + 1) * (sectorCount + 1)
            /\ 0 <= snd t < (stackCount + 1) * (sectorCount + 1))
         (spec_triangles sectorCount stackCount).
Proof.
  intros Hsc Hst Hfit.
  destruct (checked_generateSphere_defined vertices radius
              sectorCount stackCount ltac:(lia) Hst Hfit) as [Hgrid Hrun].
  exists (sphereGrid radius sectorCount stackCount).
  split; [exact Hgrid|]. split.
  - rewrite Hrun. f_equal. apply generateSphere_spec_triangles.
    apply (grid_fits_stackCount sectorCount); trivial; lia.
  - apply Forall_forall. intros [[a b] c] Hin.
    unfold spec_triangles in Hin.
    apply in_flat_map in Hin. destruct Hin as [i [Hi Hin]].
    apply in_flat_map in Hin. destruct Hin as [j [Hj Hin]].
    apply In_zrange in Hi. apply In_zrange in Hj. cbn [fst snd].
    now apply (cell_corners_distinct sectorCount stackCount i j).
Qed.

End SphereEdges.

(** * Further properties of the programs *)

Section RunFacts.

Context {ops : FloatOps} {ext : Collaborators}.

Lemma value_gets {A : Type} (f : State -> A) (s : State) :
  value_of (gets f s) = f s.
Proof. reflexivity. Qed.

Lemma state_gets {A : Type} (f : State -> A) (s : State) :
  state_of (gets f s) = s.
Proof. reflexivity. Qed.

Lemma trace_gets {A : Type} (f : State -> A) (s : State) :
  trace_of (gets f s) = [].
Proof. reflexivity. Qed.

Lemma state_ret {A : Type} (a : A) (s : State) : state_of (ret a s) = s.
Proof. reflexivity. Qed.

Lemma frames_presented_app (w : nat) (t1 t2 : list Call) :
  frames_presented w (t1 ++ t2)
  = (frames_presented w t1 + frames_presented w t2)%nat.
Proof. unfold frames_presented. now rewrite filter_app, length_app. Qed.

Lemma respects_ret {A : Type} (R : State -> State -> Prop) (a : A) :
  (forall s, R s s) -> respects R (ret a).
Proof. intros Hrefl s. apply Hrefl. Qed.

Lemma respects_bind {A B : Type} (R : State -> State -> Prop)
    (m : Prog A) (k : A -> Prog B) :
  (forall s1 s2 s3, R s1 s2 -> R s2 s3 -> R s1 s3) ->
  respects R m -> (forall a, respects R (k a)) -> respects R (bind m k).
Proof.
  intros Htrans Hm Hk s. rewrite state_bind.
  eapply Htrans; [apply Hm | apply Hk].
Qed.

Lemma respects_call (R : State -> State -> Prop) (c : Call) :
  (forall s, R s s) -> respects R (call c).
Proof. intros Hrefl s. apply Hrefl. Qed.

Lemma respects_gets {A : Type} (R : State -> State -> Prop) (f : State -> A) :
  (forall s, R s s) -> respects R (gets f).
Proof. intros Hrefl s. apply Hrefl. Qed.

Lemma respects_when (R : State -> State -> Prop) (b : bool) (m : Prog unit) :
  (forall s, R s s) -> respects R m -> respects R (when b m).
Proof. intros Hrefl Hm. destruct b; [exact Hm | now apply respects_ret]. Qed.

Lemma respects_for_each {A : Type} (R : State -> State -> Prop)
    (l : list A) (body : A -> Prog unit) :
  (forall s, R s s) ->
  (forall s1 s2 s3, R s1 s2 -> R s2 s3 -> R s1 s3) ->
  (forall x, In x l -> respects R (body x)) ->
  respects R (for_each l body).
Proof.
  intros Hrefl Htrans. induction l as [|x l IH]; intros Hbody; cbn [for_each].
  - now apply respects_ret.
  - apply respects_bind; [exact Htrans | apply Hbody; now left |].
    intros _. apply IH. intros y Hy. apply Hbody. now right.
Qed.

Lemma respects_modify (R : State -> State -> Prop) (f : State -> State) :
  (forall s, R s (f s)) -> respects R (modify f).
Proof. intros Hf s. apply Hf. Qed.

Lemma same_clock_refl (s : State) : same_clock s s.
Proof. split; reflexivity. Qed.

Lemma same_clock_trans (s1 s2 s3 : State) :
  same_clock s1 s2 -> same_clock s2 s3 -> same_clock s1 s3.
Proof. intros [A1 A2] [B1 B2]. split; congruence. Qed.

Lemma close_kept_refl (i : nat) (s : State) : close_kept i s s.
Proof. intros H. exact H. Qed.

Lemma close_kept_trans (i : nat) (s1 s2 s3 : State) :
  close_kept i s1 s2 -> close_kept i s2 s3 -> close_kept i s1 s3.
Proof. unfold close_kept. auto. Qed.

Lemma close_kept_update (i j : nat) (f : WindowData -> WindowData) :
  (forall wd, shouldClose wd = true -> shouldClose (f wd) = true) ->
  respects (close_kept i) (update_window j f).
Proof.
  intros Hf. apply respects_modify. intros s Hs. cbn.
  destruct (Nat.eqb i j); [now apply Hf | exact Hs].
Qed.

Lemma same_clock_update (j : nat) (f : WindowData -> WindowData) :
  respects same_clock (update_window j f).
Proof. apply respects_modify. intros s. split; reflexivity. Qed.

End RunFacts.

Ltac clock_step :=
  first
    [ apply respects_ret; exact same_clock_refl
    | apply respects_gets; exact same_clock_refl
    | apply respects_call; exact same_clock_refl
    | apply same_clock_update
    | apply respects_when; [exact same_clock_refl|]
    | apply respects_bind; [exact same_clock_trans | | intros ?] ].

Ltac close_step :=
  first
    [ apply respects_ret; apply close_kept_refl
    | apply respects_gets; apply close_kept_refl
    | apply respects_call; apply close_kept_refl
    | apply close_kept_update; intros ? ?; (assumption || reflexivity)
    | apply respects_modify; intros ? ?; assumption
    | apply respects_when; [apply close_kept_refl|]
    | apply respects_bind; [apply close_kept_trans | | intros ?] ].

Section MultiWindowRuns.

Context {ops : FloatOps} {ext : Collaborators}.
Import String.
Local Open Scope string_scope.

Lemma processInput_run (i : nat) (pressed : Key -> bool) (dt : float)
    (s : State) :
  let s' := state_of (MultiWindow.processInput i pressed dt s) in
  trace_of (MultiWindow.processInput i pressed dt s) = []
  /\ windows s' i
     = mkWindowData (pressed KEY_ESCAPE || shouldClose (windows s i))
                    (moved_camera pressed dt (camera (windows s i)))
                    (lastX (windows s i)) (lastY (windows s i))
                    (firstMouse (windows s i))
  /\ (forall j, j <> i -> windows s' j = windows s j)
  /\ deltaTime s' = deltaTime s
  /\ lastFrame s' = lastFrame s
  /\ lightPos s' = lightPos s.
Proof.
  intros s'. subst s'.
  split; [|split; [|split]].
  - unfold MultiWindow.processInput, moved_camera, glfwSetWindowShouldClose.
    destruct (pressed KEY_ESCAPE), (pressed KEY_W), (pressed KEY_S),
      (pressed KEY_A), (pressed KEY_D); reflexivity.
  - unfold MultiWindow.processInput, moved_camera, glfwSetWindowShouldClose.
    destruct (pressed KEY_ESCAPE), (pressed KEY_W), (pressed KEY_S),
      (pressed KEY_A), (pressed KEY_D);
      cbn; rewrite ?Nat.eqb_refl; cbn;
      destruct (windows s i); reflexivity.
  - intros j Hj. now apply processInput_keeps.
  - unfold MultiWindow.processInput, glfwSetWindowShouldClose.
    destruct (pressed KEY_ESCAPE), (pressed KEY_W), (pressed KEY_S),
      (pressed KEY_A), (pressed KEY_D); repeat split; reflexivity.
Qed.

(** X7. [processInput] makes no call; it raises the close flag of its window
    when Escape is down and never lowers it, moves the camera of its
    window by the keys W, S, A, D in this order with the time step it is
    given, and touches nothing else. *)
Theorem processInput_effect (i : nat) (pressed : Key -> bool) (dt : float)
    (s : State) :
  let s' := state_of (MultiWindow.processInput i pressed dt s) in
  trace_of (MultiWindow.processInput i pressed dt s) = []
  /\ windows s' i
     = mkWindowData (pressed KEY_ESCAPE || shouldClose (windows s i))
                    (moved_camera pressed dt (camera (windows s i)))
                    (lastX (windows s i)) (lastY (windows s i))
                    (firstMouse (windows s i))
  /\ (forall j, j <> i -> windows s' j = windows s j)
  /\ deltaTime s' = deltaTime s
  /\ lastFrame s' = lastFrame s
  /\ lightPos s' = lightPos s.
Proof. exact (processInput_run i pressed dt s). Qed.

End MultiWindowRuns.

Section MultiWindowPass.

Context {ops : FloatOps} {ext : Collaborators}.
Import String.
Local Open Scope string_scope.
Local Open Scope list_scope.

(** The turn of a window that has not asked to close. *)
Lemma render_window_run (sphereVertices : list float) (inp : FrameInput)
    (i : nat) (s : State) :
  shouldClose (windows s i) = false ->
  MultiWindow.render_window sphereVertices inp i s
  = (tt,
     state_of (MultiWindow.processInput i (key_pressed inp i) (deltaTime s) s),
     glfwMakeContextCurrent i :: glClearColor :: glClear
       :: window_calls MultiWindow.SCR_WIDTH MultiWindow.SCR_HEIGHT
            sphereVertices i (lightPos s)
            (moved_camera (key_pressed inp i) (deltaTime s)
                          (camera (windows s i)))).
Proof.
  intros Hlive.
  destruct (processInput_run i (key_pressed inp i) (deltaTime s) s)
    as (Htrace & Hwin & _ & _ & _ & Hlight).
  unfold MultiWindow.render_window, glfwWindowShouldClose.
  unfold bind at 1. cbn [gets]. rewrite Hlive.
  unfold bind at 1. cbn [call].
  unfold bind at 1. cbn [gets].
  unfold bind at 1.
  unfold trace_of, state_of in *.
  destruct (MultiWindow.processInput i (key_pressed inp i) (deltaTime s) s)
    as [[u s1] t1].
  cbn [fst snd] in *. subst t1.
  unfold bind, call, gets. cbn [app].
  rewrite Hlight, Hwin. cbn [camera]. destruct u. reflexivity.
Qed.

Lemma render_window_trace (sphereVertices : list float) (inp : FrameInput)
    (i : nat) (s : State) :
  trace_of (MultiWindow.render_window sphereVertices inp i s)
  = if shouldClose (windows s i) then []
    else glfwMakeContextCurrent i :: glClearColor :: glClear
           :: window_calls MultiWindow.SCR_WIDTH MultiWindow.SCR_HEIGHT
                sphereVertices i (lightPos s)
                (moved_camera (key_pressed inp i) (deltaTime s)
                              (camera (windows s i))).
Proof.
  destruct (shouldClose (windows s i)) eqn:Hc.
  - now rewrite render_window_closed.
  - now rewrite render_window_run.
Qed.

Lemma render_window_clock (sphereVertices : list float) (inp : FrameInput)
    (i : nat) :
  respects same_clock (MultiWindow.render_window sphereVertices inp i).
Proof.
  intros s. destruct (shouldClose (windows s i)) eqn:Hc.
  - rewrite render_window_closed by exact Hc. apply same_clock_refl.
  - rewrite render_window_run by exact Hc. cbn [state_of fst snd].
    fold (@state_of ops ext unit).
    destruct (processInput_run i (key_pressed inp i) (deltaTime s) s)
      as (_ & _ & _ & Hd & Hl & _).
    split; assumption.
Qed.

Lemma deliver_trace (events : list (nat * InputEvent)) (s : State) :
  trace_of (for_each events MultiWindow.deliver s) = resize_calls events.
Proof.
  revert s. induction events as [|[i ev] events IH]; intros s;
    cbn [for_each resize_calls flat_map]; [reflexivity|].
  rewrite trace_bind, IH. fold (resize_calls events).
  destruct ev; reflexivity.
Qed.

Lemma pass_trace (sphereVertices : list float) (inp : FrameInput)
    (s : State) :
  let dt := fsub (f_of_d (time_frame inp)) (lastFrame s) in
  let light := animated_light (time_light inp) (lightPos s) in
  let turn i :=
    if shouldClose (windows s i) then []
    else glfwMakeContextCurrent i :: glClearColor :: glClear
           :: window_calls MultiWindow.SCR_WIDTH MultiWindow.SCR_HEIGHT
                sphereVertices i light
                (moved_camera (key_pressed inp i) dt (camera (windows s i))) in
  trace_of (MultiWindow.frame sphereVertices inp s)
  = turn 0%nat ++ turn 1%nat ++ turn 2%nat
    ++ glfwPollEvents :: resize_calls (polled inp).
Proof.
  intros dt light turn. rewrite frame_run.
  fold dt. fold light.
  set (s2 := mkState (windows s) dt (f_of_d (time_frame inp)) light).
  set (rw := MultiWindow.render_window sphereVertices inp).
  rewrite trace_bind. cbn [for_each].
  rewrite !trace_bind, trace_ret, trace_call, deliver_trace, app_nil_r.
  set (s3 := state_of (rw 0%nat s2)).
  set (s4 := state_of (rw 1%nat s3)).
  assert (K := render_window_keeps sphereVertices inp). fold rw in K.
  assert (L := render_window_faithful sphereVertices inp). fold rw in L.
  assert (C := render_window_clock sphereVertices inp). fold rw in C.
  assert (L3 : lightPos s3 = light) by (unfold s3; now rewrite (proj1 (L 0%nat s2))).
  assert (L4 : lightPos s4 = light)
    by (unfold s4; now rewrite (proj1 (L 1%nat s3))).
  assert (D3 : deltaTime s3 = dt) by (unfold s3; now rewrite (proj1 (C 0%nat s2))).
  assert (D4 : deltaTime s4 = dt)
    by (unfold s4; now rewrite (proj1 (C 1%nat s3))).
  assert (W3 : windows s3 1%nat = windows s 1%nat)
    by (unfold s3; now rewrite (K 1%nat 0%nat) by lia).
  assert (W4 : windows s4 2%nat = windows s 2%nat)
    by (unfold s4, s3; now rewrite (K 2%nat 1%nat), (K 2%nat 0%nat) by lia).
  unfold rw. rewrite !render_window_trace.
  fold rw. fold s3. fold s4.
  rewrite L3, L4, D3, D4, W3, W4.
  cbn [lightPos deltaTime windows s2].
  unfold turn. rewrite <- !app_assoc. reflexivity.
Qed.

(** X8. The calls of a pass of the three-window loop, in order: for each
    window that has not asked to close, its context, the clear and the
    calls of its turn, with the one animated light and with its own
    camera moved by its own keys over the time since the previous pass;
    then the event poll and one [glViewport] for each resize delivered. *)
Theorem pass_calls (sphereVertices : list float) (inp : FrameInput)
    (s : State) :
  let dt := fsub (f_of_d (time_frame inp)) (lastFrame s) in
  let light := animated_light (time_light inp) (lightPos s) in
  let turn i :=
    if shouldClose (windows s i) then []
    else glfwMakeContextCurrent i :: glClearColor :: glClear
           :: window_calls MultiWindow.SCR_WIDTH MultiWindow.SCR_HEIGHT
                sphereVertices i light
                (moved_camera (key_pressed inp i) dt (camera (windows s i))) in
  trace_of (MultiWindow.frame sphereVertices inp s)
  = turn 0%nat ++ turn 1%nat ++ turn 2%nat
    ++ glfwPollEvents :: resize_calls (polled inp).
Proof. exact (pass_trace sphereVertices inp s). Qed.

End MultiWindowPass.

Section MultiWindowLoop.

Context {ops : FloatOps} {ext : Collaborators}.
Import String.
Local Open Scope string_scope.
Local Open Scope list_scope.

Lemma resize_calls_present_nothing (w : nat) (events : list (nat * InputEvent)) :
  frames_presented w (resize_calls events) = 0%nat.
Proof.
  induction events as [|[i ev] events IH]; [reflexivity|].
  cbn [resize_calls flat_map]. fold (resize_calls events).
  rewrite frames_presented_app, IH. destruct ev; reflexivity.
Qed.

Lemma window_turn_presents (width height : Z) (sphereVertices : list float)
    (i w : nat) (light : vec3) (cam : Camera) :
  frames_presented w
    (glfwMakeContextCurrent i :: glClearColor :: glClear
       :: window_calls width height sphereVertices i light cam)
  = if Nat.eqb w i then 1%nat else 0%nat.
Proof.
  unfold window_calls, frames_presented. cbn.
  destruct (Nat.eqb w i); reflexivity.
Qed.

(** Inside the loop every pass presents exactly one frame on each of the
    three windows. *)
Lemma pass_presents_each_window (sphereVertices : list float)
    (inp : FrameInput) (s : State) (w : nat) :
  MultiWindow.loop_condition s = true -> (w < 3)%nat ->
  frames_presented w (trace_of (MultiWindow.frame sphereVertices inp s))
  = 1%nat.
Proof.
  intros Hcond Hw. rewrite pass_trace. cbv zeta.
  rewrite !(loop_condition_all_live s Hcond) by lia.
  rewrite !frames_presented_app, !window_turn_presents.
  change (glfwPollEvents :: resize_calls (polled inp))
    with ([glfwPollEvents] ++ resize_calls (polled inp)).
  rewrite frames_presented_app, resize_calls_present_nothing.
  destruct w as [|[|[|w]]]; [reflexivity | reflexivity | reflexivity | lia].
Qed.

(** X9. The three windows advance in lockstep: whatever the passes offered
    and whatever the state the loop is entered in, it presents the same
    number of frames on each window, one for each pass it runs, and when
    it has not been left it has run every pass offered. *)
Theorem render_loop_lockstep (sphereVertices : list float)
    (inputs : list FrameInput) (s : State) :
  exists passes : nat,
    (passes <= List.length inputs)%nat
    /\ (forall w, (w < 3)%nat ->
          frames_presented w
            (trace_of (MultiWindow.render_loop sphereVertices inputs s))
          = passes)
    /\ (value_of (MultiWindow.render_loop sphereVertices inputs s) = false ->
        passes = List.length inputs).
Proof.
  revert s. induction inputs as [|inp inputs IH]; intros s.
  - exists 0%nat. cbn [MultiWindow.render_loop].
    destruct (MultiWindow.loop_condition s); repeat split; auto.
  - cbn [MultiWindow.render_loop].
    destruct (MultiWindow.loop_condition s) eqn:Hcond.
    + destruct (IH (state_of (MultiWindow.frame sphereVertices inp s)))
        as (n & Hn & Hall & Hrun).
      exists (S n). split; [cbn [List.length]; lia|]. split.
      * intros w Hw. rewrite trace_bind, frames_presented_app.
        rewrite pass_presents_each_window by assumption.
        rewrite Hall by exact Hw. reflexivity.
      * rewrite value_bind. intros Hv. cbn [List.length]. f_equal. now apply Hrun.
    + exists 0%nat. repeat split; cbn [List.length]; try lia.
      intros Hv. discriminate Hv.
Qed.

Lemma render_loop_value (sphereVertices : list float)
    (inputs : list FrameInput) (s : State) :
  value_of (MultiWindow.render_loop sphereVertices inputs s)
  = negb (MultiWindow.loop_condition
            (state_of (MultiWindow.render_loop sphereVertices inputs s))).
Proof.
  revert s. induction inputs as [|inp inputs IH]; intros s;
    cbn [MultiWindow.render_loop];
    destruct (MultiWindow.loop_condition s) eqn:Hcond.
  - cbn. now rewrite Hcond.
  - cbn. now rewrite Hcond.
  - rewrite value_bind, state_bind. apply IH.
  - cbn. now rewrite Hcond.
Qed.

End MultiWindowLoop.

Section MultiWindowUniforms.

Context {ops : FloatOps} {ext : Collaborators}.
Import String.
Local Open Scope string_scope.
Local Open Scope list_scope.

Lemma In_resize_calls (c : Call) (events : list (nat * InputEvent)) :
  In c (resize_calls events) -> exists width height, c = glViewport width height.
Proof.
  unfold resize_calls. rewrite in_flat_map. intros [[i ev] [_ Hc]].
  destruct ev; cbn in Hc; try contradiction.
  destruct Hc as [<- | []]. eauto.
Qed.

Lemma In_pass (sphereVertices : list float) (inp : FrameInput) (s : State)
    (c : Call) :
  In c (trace_of (MultiWindow.frame sphereVertices inp s)) ->
  (exists i, (i < 3)%nat /\ shouldClose (windows s i) = false
             /\ In c (glfwMakeContextCurrent i :: glClearColor :: glClear
                        :: window_calls MultiWindow.SCR_WIDTH
                             MultiWindow.SCR_HEIGHT sphereVertices i
                             (animated_light (time_light inp) (lightPos s))
                             (moved_camera (key_pressed inp i)
                                (fsub (f_of_d (time_frame inp)) (lastFrame s))
                                (camera (windows s i)))))
  \/ c = glfwPollEvents
  \/ exists width height, c = glViewport width height.
Proof.
  rewrite pass_trace. cbv zeta. intros Hin.
  repeat (apply in_app_or in Hin; destruct Hin as [Hin | Hin]).
  - left. exists 0%nat. destruct (shouldClose (windows s 0%nat));
      [contradiction | auto].
  - left. exists 1%nat. destruct (shouldClose (windows s 1%nat));
      [contradiction | auto].
  - left. exists 2%nat. destruct (shouldClose (windows s 2%nat));
      [contradiction | auto].
  - destruct Hin as [<- | Hin]; [right; left; reflexivity|].
    right. right. eapply In_resize_calls. exact Hin.
Qed.

Lemma pass_cube_and_eye_only (sphereVertices : list float)
    (inp : FrameInput) (s : State) (c : Call) :
  In c (trace_of (MultiWindow.frame sphereVertices inp s)) ->
  (forall m, cube_model c = Some m ->
     m = scale (translate mat4_identity
                          (animated_light (time_light inp) (lightPos s)))
               (vec3_lit (2 # 10) (2 # 10) (2 # 10)))
  /\ (forall i sh v, c = setVec3 i sh "viewPos" v ->
        v = Position
              (moved_camera (key_pressed inp i)
                 (fsub (f_of_d (time_frame inp)) (lastFrame s))
                 (camera (windows s i)))).
Proof.
  intros Hin. apply In_pass in Hin.
  destruct Hin as [(i & _ & _ & Hin) | [-> | (w & h & ->)]].
  - unfold window_calls in Hin. cbv zeta in Hin. cbn [In] in Hin.
    split.
    + intros m Hm.
      repeat (destruct Hin as [<- | Hin]; [cbn in Hm; congruence|]).
      contradiction.
    + intros j sh v Hv.
      repeat (destruct Hin as [Hc | Hin];
              [rewrite Hv in Hc; try discriminate Hc;
               injection Hc as <- _ <-; try reflexivity|]).
      contradiction.
  - split; [intros m Hm; discriminate Hm | intros i sh v Hv; discriminate Hv].
  - split; [intros m Hm; discriminate Hm | intros i sh v Hv; discriminate Hv].
Qed.

(** X11. In a pass of the three-window loop every window that has not
    asked to close is sent the marker cube placed at the animated light
    (the identity translated to the light position of this pass and
    scaled by 0.2) and, as [viewPos], the position of its own camera
    after this pass's key movement; no other cube [model] matrix and no
    other [viewPos] is sent in the pass. *)
Theorem pass_places_cube_and_eye (sphereVertices : list float)
    (inp : FrameInput) (s : State) (i : nat) :
  (i < 3)%nat -> shouldClose (windows s i) = false ->
  let light := animated_light (time_light inp) (lightPos s) in
  let cube :=
    scale (translate mat4_identity light)
          (vec3_lit (2 # 10) (2 # 10) (2 # 10)) in
  let eye j :=
    Position (moved_camera (key_pressed inp j)
                (fsub (f_of_d (time_frame inp)) (lastFrame s))
                (camera (windows s j))) in
  let calls := trace_of (MultiWindow.frame sphereVertices inp s) in
  In (setMat4 i lightCubeShader "model" cube) calls
  /\ In (setVec3 i lightingShader "viewPos" (eye i)) calls
  /\ (forall c m, In c calls -> cube_model c = Some m -> m = cube)
  /\ (forall j sh v, In (setVec3 j sh "viewPos" v) calls -> v = eye j).
Proof.
  intros Hi Hopen light cube eye calls.
  assert (Hturn : forall c,
             In c (window_calls MultiWindow.SCR_WIDTH MultiWindow.SCR_HEIGHT
                     sphereVertices i light
                     (moved_camera (key_pressed inp i)
                        (fsub (f_of_d (time_frame inp)) (lastFrame s))
                        (camera (windows s i)))) ->
             In c calls).
  { intros c Hc. unfold calls. rewrite pass_trace. cbv zeta. fold light.
    destruct i as [|[|[|i]]]; [| | |lia]; rewrite Hopen.
    - apply in_or_app. left. now do 3 right.
    - apply in_or_app. right. apply in_or_app. left. now do 3 right.
    - apply in_or_app. right. apply in_or_app. right.
      apply in_or_app. left. now do 3 right. }
  split; [|split; [|split]].
  - apply Hturn. unfold window_calls. cbv zeta. cbn [In].
    do 13 right. left. reflexivity.
  - apply Hturn. unfold window_calls. cbv zeta. cbn [In].
    do 4 right. left. reflexivity.
  - intros c m Hc Hm.
    exact (proj1 (pass_cube_and_eye_only sphereVertices inp s c Hc) m Hm).
  - intros j sh v Hc.
    exact (proj2 (pass_cube_and_eye_only sphereVertices inp s _ Hc)
                 j sh v eq_refl).
Qed.

End MultiWindowUniforms.

Section MultiWindowState.

Context {ops : FloatOps} {ext : Collaborators}.
Import String.
Local Open Scope string_scope.
Local Open Scope list_scope.

Lemma cursor_callback_flag (xpos ypos : double) (data : WindowData) :
  shouldClose (MultiWindow.cursor_callback xpos ypos data) = shouldClose data.
Proof.
  unfold MultiWindow.cursor_callback. destruct (firstMouse data); reflexivity.
Qed.

Lemma deliver_close_kept (i : nat) (e : nat * InputEvent) :
  respects (close_kept i) (MultiWindow.deliver e).
Proof.
  destruct e as [j ev].
  destruct ev; cbn [MultiWindow.deliver]; unfold glfwSetWindowShouldClose.
  - apply close_kept_update. intros wd Hwd.
    now rewrite cursor_callback_flag.
  - close_step.
  - close_step.
  - close_step.
Qed.

Lemma render_window_close_kept (sphereVertices : list float)
    (inp : FrameInput) (i j : nat) :
  respects (close_kept i) (MultiWindow.render_window sphereVertices inp j).
Proof.
  intros s. destruct (shouldClose (windows s j)) eqn:Hc.
  - rewrite render_window_closed by exact Hc. apply close_kept_refl.
  - rewrite render_window_run by exact Hc. cbn [state_of fst snd].
    fold (@state_of ops ext unit).
    destruct (processInput_run j (key_pressed inp j) (deltaTime s) s)
      as (_ & Hown & Hother & _).
    intros Hi. destruct (Nat.eq_dec i j) as [-> | Hij].
    + congruence.
    + now rewrite Hother.
Qed.

(** X12. A pass never withdraws a close request: a window that has asked to
    close when the pass starts has still asked to close when it ends. *)
Theorem pass_keeps_close_request (sphereVertices : list float)
    (inp : FrameInput) (i : nat) (s : State) :
  shouldClose (windows s i) = true ->
  shouldClose (windows (state_of (MultiWindow.frame sphereVertices inp s)) i)
  = true.
Proof.
  intros Hclosed. rewrite frame_run.
  set (s2 := mkState _ _ _ _).
  assert (Hrest : respects (close_kept i)
            (bind (for_each [0%nat; 1%nat; 2%nat]
                            (MultiWindow.render_window sphereVertices inp))
                  (fun _ => bind (call glfwPollEvents)
                     (fun _ => for_each (polled inp) MultiWindow.deliver)))).
  { apply respects_bind; [apply close_kept_trans | |intros _].
    - apply respects_for_each;
        [apply close_kept_refl | apply close_kept_trans |].
      intros j _. apply render_window_close_kept.
    - apply respects_bind; [apply close_kept_trans | close_step | intros _].
      apply respects_for_each;
        [apply close_kept_refl | apply close_kept_trans |].
      intros e _. apply deliver_close_kept. }
  apply (Hrest s2). exact Hclosed.
Qed.

Lemma moved_camera_idle (pressed : Key -> bool) (dt : float) (cam : Camera) :
  (forall k, pressed k = false) -> moved_camera pressed dt cam = cam.
Proof. intros H. unfold moved_camera. now rewrite !H. Qed.

Lemma render_window_idle (sphereVertices : list float) (inp : FrameInput)
    (j : nat) (s : State) :
  (forall k, key_pressed inp j k = false) ->
  windows (state_of (MultiWindow.render_window sphereVertices inp j s)) j
  = windows s j.
Proof.
  intros Hidle. destruct (shouldClose (windows s j)) eqn:Hc.
  - now rewrite render_window_closed.
  - rewrite render_window_run by exact Hc. cbn [state_of fst snd].
    fold (@state_of ops ext unit).
    destruct (processInput_run j (key_pressed inp j) (deltaTime s) s)
      as (_ & -> & _).
    rewrite moved_camera_idle, Hidle by exact Hidle.
    destruct (windows s j). cbn in Hc. cbn. now rewrite Hc.
Qed.

(** X13. The windows do not interfere: a window on which no key is down and
    to which no event is delivered comes out of a pass exactly as it went
    in, whatever happens on the other two. *)
Theorem pass_leaves_idle_window (sphereVertices : list float)
    (inp : FrameInput) (j : nat) (s : State) :
  (forall k, key_pressed inp j k = false) ->
  (forall e, In e (polled inp) -> fst e <> j) ->
  windows (state_of (MultiWindow.frame sphereVertices inp s)) j = windows s j.
Proof.
  intros Hkeys Hevents. rewrite frame_run.
  set (s2 := mkState _ _ _ _).
  change (windows s j) with (windows s2 j).
  assert (Hrefl : forall s0 : State, windows s0 j = windows s0 j)
    by reflexivity.
  assert (Htrans : forall s1 s3 s4 : State,
             windows s3 j = windows s1 j -> windows s4 j = windows s3 j ->
             windows s4 j = windows s1 j) by (intros; congruence).
  assert (Hrest : respects (fun a b => windows b j = windows a j)
            (bind (for_each [0%nat; 1%nat; 2%nat]
                            (MultiWindow.render_window sphereVertices inp))
                  (fun _ => bind (call glfwPollEvents)
                     (fun _ => for_each (polled inp) MultiWindow.deliver)))).
  { apply respects_bind; [exact Htrans | |intros _].
    - apply respects_for_each; [exact Hrefl | exact Htrans |].
      intros i _ s0. destruct (Nat.eq_dec j i) as [<- | Hij].
      + now apply render_window_idle.
      + now apply render_window_keeps.
    - apply respects_bind; [exact Htrans | now apply respects_call | intros _].
      apply respects_for_each; [exact Hrefl | exact Htrans |].
      intros [i ev] Hin s0. specialize (Hevents _ Hin). cbn [fst] in Hevents.
      destruct ev; cbn [MultiWindow.deliver]; unfold glfwSetWindowShouldClose;
        try reflexivity;
        apply keeps_update_window; congruence. }
  apply (Hrest s2).
Qed.

(** X14. The clock of a pass: afterwards [lastFrame] is the first clock
    reading of the pass and [deltaTime] its distance from the previous
    [lastFrame], so over two passes in a row [deltaTime] is the time
    between their clock readings. *)
Theorem pass_updates_clock (sphereVertices : list float)
    (inp1 inp2 : FrameInput) (s : State) :
  let s1 := state_of (MultiWindow.frame sphereVertices inp1 s) in
  let s2 := state_of (MultiWindow.frame sphereVertices inp2 s1) in
  lastFrame s1 = f_of_d (time_frame inp1)
  /\ deltaTime s1 = fsub (f_of_d (time_frame inp1)) (lastFrame s)
  /\ deltaTime s2 = fsub (f_of_d (time_frame inp2)) (f_of_d (time_frame inp1)).
Proof.
  assert (Hrest : forall inp,
            respects same_clock
              (bind (for_each [0%nat; 1%nat; 2%nat]
                              (MultiWindow.render_window sphereVertices inp))
                    (fun _ => bind (call glfwPollEvents)
                       (fun _ => for_each (polled inp) MultiWindow.deliver)))).
  { intros inp.
    apply respects_bind; [exact same_clock_trans | |intros _].
    - apply respects_for_each;
        [exact same_clock_refl | exact same_clock_trans |].
      intros i _. apply render_window_clock.
    - apply respects_bind; [exact same_clock_trans | clock_step | intros _].
      apply respects_for_each;
        [exact same_clock_refl | exact same_clock_trans |].
      intros [i ev] _.
      destruct ev; cbn [MultiWindow.deliver]; unfold glfwSetWindowShouldClose;
        clock_step. }
  assert (Hone : forall inp s0,
            lastFrame (state_of (MultiWindow.frame sphereVertices inp s0))
            = f_of_d (time_frame inp)
            /\ deltaTime (state_of (MultiWindow.frame sphereVertices inp s0))
               = fsub (f_of_d (time_frame inp)) (lastFrame s0)).
  { intros inp s0. rewrite frame_run.
    destruct (Hrest inp (mkState (windows s0)
                (fsub (f_of_d (time_frame inp)) (lastFrame s0))
                (f_of_d (time_frame inp))
                (animated_light (time_light inp) (lightPos s0)))) as [Hd Hl].
    split; [exact Hl | exact Hd]. }
  intros s1 s2.
  destruct (Hone inp1 s) as [Hl1 Hd1].
  destruct (Hone inp2 s1) as [_ Hd2].
  repeat split.
  - exact Hl1.
  - exact Hd1.
  - unfold s2. rewrite Hd2. unfold s1. now rewrite Hl1.
Qed.

End MultiWindowState.

Section MultiWindowEscape.

Context {ops : FloatOps} {ext : Collaborators}.
Import String.
Local Open Scope string_scope.
Local Open Scope list_scope.

Lemma for_each_establishes {A : Type} (P : State -> Prop) (l : list A)
    (body : A -> Prog unit) (x : A) :
  In x l ->
  (forall s, P (state_of (body x s))) ->
  (forall y s, P s -> P (state_of (body y s))) ->
  forall s, P (state_of (for_each l body s)).
Proof.
  intros Hin Hx Hkeep. induction l as [|y l IH]; [contradiction|].
  intros s. cbn [for_each]. rewrite state_bind.
  destruct Hin as [-> | Hin].
  - clear IH. generalize (Hx s). generalize (state_of (body x s)).
    induction l as [|z l IHl]; intros s0 Hs0; cbn [for_each].
    + exact Hs0.
    + rewrite state_bind. apply IHl. now apply Hkeep.
  - now apply IH.
Qed.

Lemma render_window_escape (sphereVertices : list float) (inp : FrameInput)
    (i : nat) (s : State) :
  key_pressed inp i KEY_ESCAPE = true ->
  shouldClose
    (windows (state_of (MultiWindow.render_window sphereVertices inp i s)) i)
  = true.
Proof.
  intros Hesc. destruct (shouldClose (windows s i)) eqn:Hc.
  - now rewrite render_window_closed.
  - rewrite render_window_run by exact Hc. cbn [state_of fst snd].
    fold (@state_of ops ext unit).
    destruct (processInput_run i (key_pressed inp i) (deltaTime s) s)
      as (_ & -> & _).
    cbn. now rewrite Hesc.
Qed.

(** X15. Escape on any one window ends the whole program after the current
    pass: the pass is still drawn on all three windows, the window's close
    flag is raised, and the loop is left before the next pass however many
    passes are on offer. *)
Theorem escape_leaves_loop (sphereVertices : list float)
    (inp : FrameInput) (rest : list FrameInput) (i : nat) (s : State) :
  MultiWindow.loop_condition s = true -> (i < 3)%nat ->
  key_pressed inp i KEY_ESCAPE = true ->
  let r := MultiWindow.render_loop sphereVertices (inp :: rest) s in
  value_of r = true
  /\ shouldClose (windows (state_of r) i) = true
  /\ forall w, (w < 3)%nat -> frames_presented w (trace_of r) = 1%nat.
Proof.
  intros Hcond Hi Hesc r.
  assert (Hflag :
            shouldClose
              (windows (state_of (MultiWindow.frame sphereVertices inp s)) i)
            = true).
  { rewrite frame_run. set (s2 := mkState _ _ _ _).
    rewrite state_bind.
    assert (Hwin :
              shouldClose
                (windows
                   (state_of
                      (for_each [0%nat; 1%nat; 2%nat]
                         (MultiWindow.render_window sphereVertices inp) s2)) i)
              = true).
    { apply (for_each_establishes
               (fun s0 => shouldClose (windows s0 i) = true) _ _ i).
      - destruct i as [|[|[|i]]]; cbn; auto; lia.
      - intros s0. now apply render_window_escape.
      - intros j s0. apply render_window_close_kept. }
    revert Hwin.
    generalize (state_of
                  (for_each [0%nat; 1%nat; 2%nat]
                     (MultiWindow.render_window sphereVertices inp) s2)).
    intros s3 Hs3. rewrite state_bind, state_call.
    assert (Hd : respects (close_kept i)
                          (for_each (polled inp) MultiWindow.deliver)).
    { apply respects_for_each;
        [apply close_kept_refl | apply close_kept_trans |].
      intros e _. apply deliver_close_kept. }
    now apply (Hd s3). }
  unfold r. cbn [MultiWindow.render_loop]. rewrite Hcond.
  rewrite value_bind, state_bind, trace_bind.
  rewrite (render_loop_stops sphereVertices rest _ i Hi Hflag).
  cbn [value_of state_of trace_of fst snd]. rewrite app_nil_r.
  repeat split.
  - exact Hflag.
  - intros w Hw. now apply pass_presents_each_window.
Qed.

End MultiWindowEscape.

Section MultiWindowExit.

Context {ops : FloatOps} {ext : Collaborators}.
Import String.
Local Open Scope string_scope.
Local Open Scope list_scope.

(** X16. When one of the three windows cannot be created, the three-window
    [main] prints the diagnostic, calls [glfwTerminate] and returns -1,
    having touched no state and made no other call. *)
Theorem multi_main_without_window (env : Env) (s : State) (i : nat) :
  (i < 3)%nat -> window_created env i = false ->
  MultiWindow.main env s
  = (Some (-1), s,
     [glfwInit; glfwWindowHint; glfwWindowHint; glfwWindowHint;
      glfwCreateWindow 0; glfwCreateWindow 1; glfwCreateWindow 2;
      print "Failed to create GLFW window"; glfwTerminate]).
Proof.
  intros Hi Hw. unfold MultiWindow.main.
  assert (Hany : negb (window_created env 0%nat)
                 || negb (window_created env 1%nat)
                 || negb (window_created env 2%nat) = true).
  { destruct i as [|[|[|i]]]; [| | |lia]; rewrite Hw; cbn;
      now rewrite ?orb_true_r. }
  rewrite Hany. reflexivity.
Qed.

Lemma setup_callbacks_fails (env : Env) (l : list nat) (i : nat) (s : State) :
  In i l -> glad_loaded env i = false ->
  value_of (MultiWindow.setup_callbacks env l s) = false
  /\ terminates_glfw (trace_of (MultiWindow.setup_callbacks env l s)) = false.
Proof.
  intros Hin Hg. revert s.
  induction l as [|j l IH]; [contradiction|]. intros s.
  cbn [MultiWindow.setup_callbacks].
  rewrite ?value_bind, ?trace_bind, ?state_bind, ?state_call, ?trace_call.
  destruct (glad_loaded env j) eqn:Hj; cbn [negb].
  - rewrite ?value_bind, ?trace_bind, ?state_bind, ?state_call, ?trace_call.
    destruct Hin as [-> | Hin]; [congruence|].
    destruct (IH Hin s) as [Hv Ht]. split; [exact Hv|].
    unfold terminates_glfw in *. rewrite !existsb_app. cbn [existsb].
    now rewrite Ht.
  - rewrite ?value_bind, ?trace_bind, ?state_bind, ?state_call, ?trace_call.
    split; reflexivity.
Qed.

Lemma init_window_data_trace (l : list nat) (s : State) :
  trace_of (for_each l MultiWindow.init_window_data s) = [].
Proof.
  revert s. induction l as [|i l IH]; intros s; cbn [for_each];
    [reflexivity|].
  now rewrite trace_bind, IH.
Qed.

(** X17. When the three windows exist and GLAD fails to load for one of them,
    the three-window [main] returns -1 and has not called
    [glfwTerminate]. *)
Theorem multi_main_without_glad (env : Env) (s : State) (i : nat) :
  window_created env 0%nat = true -> window_created env 1%nat = true ->
  window_created env 2%nat = true ->
  (i < 3)%nat -> glad_loaded env i = false ->
  value_of (MultiWindow.main env s) = Some (-1)
  /\ terminates_glfw (trace_of (MultiWindow.main env s)) = false.
Proof.
  intros H0 H1 H2 Hi Hg. unfold MultiWindow.main.
  rewrite H0, H1, H2. cbn [negb orb].
  set (init := for_each [0%nat; 1%nat; 2%nat] MultiWindow.init_window_data).
  repeat (rewrite value_bind, ?state_bind, ?state_call).
  repeat (rewrite trace_bind, ?state_bind, ?state_call, ?trace_call).
  assert (Hin : In i [0%nat; 1%nat; 2%nat])
    by (destruct i as [|[|[|i]]]; cbn; auto; lia).
  destruct (setup_callbacks_fails env _ i (state_of (init s)) Hin Hg)
    as [Hv Ht].
  rewrite Hv. cbn [negb]. rewrite value_ret, trace_ret.
  split; [reflexivity|].
  unfold init in *. rewrite init_window_data_trace.
  unfold terminates_glfw in *. cbn [app existsb orb].
  rewrite app_nil_r. exact Ht.
Qed.

(** X18. Whenever the three-window [main] returns 0, some window had asked to
    close and the run ends with the teardown: the six shaders deleted,
    then the four objects of each window, then [glfwTerminate] last. *)
Theorem multi_main_returns_0 (env : Env) (s : State) :
  value_of (MultiWindow.main env s) = Some 0 ->
  MultiWindow.loop_condition (state_of (MultiWindow.main env s)) = false
  /\ exists before,
       trace_of (MultiWindow.main env s)
       = before
         ++ [delete_Shader 0 lightingShader; delete_Shader 0 lightCubeShader;
             delete_Shader 1 lightingShader; delete_Shader 1 lightCubeShader;
             delete_Shader 2 lightingShader; delete_Shader 2 lightCubeShader;
             glDelete 0 sphereVAO; glDelete 0 lightCubeVAO;
             glDelete 0 VBO; glDelete 0 lightVBO;
             glDelete 1 sphereVAO; glDelete 1 lightCubeVAO;
             glDelete 1 VBO; glDelete 1 lightVBO;
             glDelete 2 sphereVAO; glDelete 2 lightCubeVAO;
             glDelete 2 VBO; glDelete 2 lightVBO;
             glfwTerminate].
Proof.
  unfold MultiWindow.main.
  destruct (negb (window_created env 0%nat) || negb (window_created env 1%nat)
            || negb (window_created env 2%nat));
    [intros H; discriminate H|].
  cbv beta iota zeta.
  generalize (generateSphere [] (f_lit (5 # 10)) 16 8) as sv. intros sv.
  set (init := for_each [0%nat; 1%nat; 2%nat] MultiWindow.init_window_data).
  set (setup := MultiWindow.setup_callbacks env [0%nat; 1%nat; 2%nat]).
  set (buffers := for_each [0%nat; 1%nat; 2%nat] (MultiWindow.setup_buffers sv)).
  set (loop := MultiWindow.render_loop sv (frames env)).
  unfold MultiWindow.load_shaders, MultiWindow.teardown.
  cbn [for_each].
  intros H.
  repeat (rewrite value_bind, ?state_bind, ?state_call in H).
  repeat (rewrite state_bind, ?state_call).
  repeat (rewrite trace_bind, ?state_bind, ?state_call, ?trace_call).
  destruct (value_of (setup (state_of (init s)))); cbn [negb] in *;
    [|rewrite value_ret in H; discriminate H].
  repeat (rewrite value_bind, ?state_bind, ?state_call in H).
  repeat (rewrite state_bind, ?state_call).
  repeat (rewrite trace_bind, ?state_bind, ?state_call, ?trace_call).
  set (s1 := state_of (buffers (state_of (setup (state_of (init s)))))) in *.
  pose proof (render_loop_value sv (frames env) s1) as Hexit. fold loop in Hexit.
  destruct (value_of (loop s1)); cbn [negb] in *;
    [|rewrite value_ret in H; discriminate H].
  repeat (rewrite state_bind, ?state_call, ?state_ret).
  repeat (rewrite trace_bind, ?state_bind, ?state_call, ?trace_call,
           ?trace_ret, ?state_ret).
  split.
  - symmetry in Hexit. now apply negb_true_iff in Hexit.
  - repeat first [ solve [exists []; reflexivity]
                 | apply ends_with_cons
                 | apply ends_with_app ].
Qed.

End MultiWindowExit.

Section SingleWindowRuns.

Context {ops : FloatOps} {ext : Collaborators}.
Import String.
Local Open Scope string_scope.
Local Open Scope list_scope.

Lemma single_processInput_fields (pressed : Key -> bool) (s : State) :
  trace_of (SingleWindow.processInput pressed s) = []
  /\ windows (state_of (SingleWindow.processInput pressed s)) 0%nat
     = mkWindowData (pressed KEY_ESCAPE || shouldClose (windows s 0%nat))
                    (moved_camera pressed (deltaTime s)
                                  (camera (windows s 0%nat)))
                    (lastX (windows s 0%nat)) (lastY (windows s 0%nat))
                    (firstMouse (windows s 0%nat))
  /\ deltaTime (state_of (SingleWindow.processInput pressed s)) = deltaTime s
  /\ lastFrame (state_of (SingleWindow.processInput pressed s)) = lastFrame s
  /\ lightPos (state_of (SingleWindow.processInput pressed s)) = lightPos s.
Proof.
  unfold SingleWindow.processInput, moved_camera, glfwSetWindowShouldClose.
  destruct (pressed KEY_ESCAPE), (pressed KEY_W), (pressed KEY_S),
    (pressed KEY_A), (pressed KEY_D);
    (split; [reflexivity|]); (split; [|repeat split; reflexivity]);
    cbn; destruct (windows s 0%nat); reflexivity.
Qed.

Lemma single_render_run (sphereVertices : list float) (s : State) :
  SingleWindow.render sphereVertices s
  = (tt, s,
     window_calls SingleWindow.SCR_WIDTH SingleWindow.SCR_HEIGHT
                  sphereVertices 0 (lightPos s) (camera (windows s 0%nat))).
Proof. reflexivity. Qed.

Lemma single_deliver_trace (events : list (nat * InputEvent)) (s : State) :
  trace_of (for_each events SingleWindow.deliver s) = resize_calls events.
Proof.
  revert s. induction events as [|[i ev] events IH]; intros s;
    cbn [for_each resize_calls flat_map]; [reflexivity|].
  rewrite trace_bind, IH. fold (resize_calls events).
  destruct ev; reflexivity.
Qed.

Lemma single_frame_run (sphereVertices : list float) (inp : FrameInput)
    (s : State) :
  let s0 := mkState (windows s)
                    (fsub (f_of_d (time_frame inp)) (lastFrame s))
                    (f_of_d (time_frame inp)) (lightPos s) in
  let s1 := state_of (SingleWindow.processInput (key_pressed inp 0%nat) s0) in
  let s2 := mkState (windows s1) (deltaTime s1) (lastFrame s1)
                    (animated_light (time_light inp) (lightPos s1)) in
  state_of (SingleWindow.frame sphereVertices inp s)
  = state_of (for_each (polled inp) SingleWindow.deliver s2)
  /\ trace_of (SingleWindow.frame sphereVertices inp s)
     = glClearColor :: glClear
         :: window_calls SingleWindow.SCR_WIDTH SingleWindow.SCR_HEIGHT
              sphereVertices 0 (lightPos s2) (camera (windows s2 0%nat))
         ++ glfwPollEvents :: resize_calls (polled inp).
Proof.
  intros s0 s1 s2. unfold SingleWindow.frame. cbv zeta.
  destruct (single_processInput_fields (key_pressed inp 0%nat) s0)
    as (Ht & _).
  split.
  - repeat (rewrite state_bind, ?value_gets, ?state_gets, ?state_call).
    rewrite update_light_run, single_render_run. reflexivity.
  - repeat (rewrite trace_bind, ?state_bind, ?value_gets, ?state_gets,
             ?trace_gets, ?state_call, ?trace_call).
    change (state_of
              (set_lastFrame (f_of_d (time_frame inp))
                 (state_of
                    (set_deltaTime
                       (fsub (f_of_d (time_frame inp)) (lastFrame s)) s))))
      with s0.
    fold s1. rewrite Ht.
    rewrite update_light_run. cbn [state_of trace_of fst snd].
    fold (@state_of ops ext unit). fold (@trace_of ops ext unit).
    fold s2. rewrite single_render_run. cbn [state_of trace_of fst snd].
    fold (@state_of ops ext unit). fold (@trace_of ops ext unit).
    rewrite single_deliver_trace. reflexivity.
Qed.

Lemma single_pass_trace (sphereVertices : list float) (inp : FrameInput)
    (s : State) :
  trace_of (SingleWindow.frame sphereVertices inp s)
  = glClearColor :: glClear
      :: window_calls SingleWindow.SCR_WIDTH SingleWindow.SCR_HEIGHT
           sphereVertices 0
           (animated_light (time_light inp) (lightPos s))
           (moved_camera (key_pressed inp 0%nat)
                         (fsub (f_of_d (time_frame inp)) (lastFrame s))
                         (camera (windows s 0%nat)))
      ++ glfwPollEvents :: resize_calls (polled inp).
Proof.
  destruct (single_frame_run sphereVertices inp s) as [_ ->].
  destruct (single_processInput_fields (key_pressed inp 0%nat)
              (mkState (windows s)
                       (fsub (f_of_d (time_frame inp)) (lastFrame s))
                       (f_of_d (time_frame inp)) (lightPos s)))
    as (_ & Hw & _ & _ & Hl).
  cbn [lightPos windows]. rewrite Hl, Hw. reflexivity.
Qed.

(** X19. The calls of a pass of the single-window loop, in order: clear, the
    calls of the window's turn with the animated light and with the
    camera moved by the keys over the time since the previous pass, the
    event poll, and one [glViewport] for each resize delivered. *)
Theorem single_pass_calls (sphereVertices : list float) (inp : FrameInput)
    (s : State) :
  trace_of (SingleWindow.frame sphereVertices inp s)
  = glClearColor :: glClear
      :: window_calls SingleWindow.SCR_WIDTH SingleWindow.SCR_HEIGHT
           sphereVertices 0
           (animated_light (time_light inp) (lightPos s))
           (moved_camera (key_pressed inp 0%nat)
                         (fsub (f_of_d (time_frame inp)) (lastFrame s))
                         (camera (windows s 0%nat)))
      ++ glfwPollEvents :: resize_calls (polled inp).
Proof. exact (single_pass_trace sphereVertices inp s). Qed.

End SingleWindowRuns.

Section SingleWindowLoop.

Context {ops : FloatOps} {ext : Collaborators}.
Import String.
Local Open Scope string_scope.
Local Open Scope list_scope.

Lemma mouse_callback_flag (xpos ypos : double) (g : WindowData) :
  shouldClose (SingleWindow.mouse_callback xpos ypos g) = shouldClose g.
Proof.
  unfold SingleWindow.mouse_callback. destruct (firstMouse g); reflexivity.
Qed.

Lemma single_deliver_close_kept (e : nat * InputEvent) :
  respects (close_kept 0) (SingleWindow.deliver e).
Proof.
  destruct e as [j ev].
  destruct ev; cbn [SingleWindow.deliver snd]; unfold glfwSetWindowShouldClose.
  - apply close_kept_update. intros wd Hwd.
    now rewrite mouse_callback_flag.
  - close_step.
  - close_step.
  - close_step.
Qed.

Lemma single_frame_escape (sphereVertices : list float) (inp : FrameInput)
    (s : State) :
  key_pressed inp 0%nat KEY_ESCAPE = true ->
  shouldClose (windows (state_of (SingleWindow.frame sphereVertices inp s))
                       0%nat) = true.
Proof.
  intros Hesc.
  destruct (single_frame_run sphereVertices inp s) as [-> _].
  assert (Hd : respects (close_kept 0)
                        (for_each (polled inp) SingleWindow.deliver)).
  { apply respects_for_each;
      [apply close_kept_refl | apply close_kept_trans |].
    intros e _. apply single_deliver_close_kept. }
  apply Hd. cbn [windows].
  destruct (single_processInput_fields (key_pressed inp 0%nat)
              (mkState (windows s)
                       (fsub (f_of_d (time_frame inp)) (lastFrame s))
                       (f_of_d (time_frame inp)) (lightPos s)))
    as (_ & -> & _).
  cbn. now rewrite Hesc.
Qed.

Lemma single_pass_presents (sphereVertices : list float) (inp : FrameInput)
    (s : State) :
  frames_presented 0 (trace_of (SingleWindow.frame sphereVertices inp s))
  = 1%nat.
Proof.
  rewrite single_pass_trace.
  change (glClearColor :: glClear :: ?l ++ ?r) with ([glClearColor; glClear] ++ l ++ r).
  rewrite !frames_presented_app.
  change (glfwPollEvents :: resize_calls (polled inp))
    with ([glfwPollEvents] ++ resize_calls (polled inp)).
  rewrite frames_presented_app, resize_calls_present_nothing.
  reflexivity.
Qed.

(** X20. The single-window loop is left exactly when the window has asked to
    close; it presents one frame for each pass it runs, and while the
    window has not asked to close it uses up the passes offered. *)
Theorem single_render_loop_exit (sphereVertices : list float)
    (inputs : list FrameInput) (s : State) :
  let r := SingleWindow.render_loop sphereVertices inputs s in
  value_of r = shouldClose (windows (state_of r) 0%nat)
  /\ (frames_presented 0 (trace_of r) <= List.length inputs)%nat
  /\ (value_of r = false ->
      frames_presented 0 (trace_of r) = List.length inputs).
Proof.
  revert s. induction inputs as [|inp inputs IH]; intros s;
    cbn [SingleWindow.render_loop];
    destruct (shouldClose (windows s 0%nat)) eqn:Hc; cbn [negb].
  - cbn. rewrite Hc. repeat split; auto; try (intros H; discriminate H).
  - cbn. rewrite Hc. repeat split; auto.
  - cbn. rewrite Hc. repeat split; try lia; try (intros H; discriminate H).
  - cbv zeta. rewrite value_bind, state_bind, trace_bind.
    rewrite frames_presented_app, single_pass_presents.
    destruct (IH (state_of (SingleWindow.frame sphereVertices inp s)))
      as (Hv & Hle & Hall).
    cbv zeta in Hv, Hle, Hall.
    repeat split.
    + exact Hv.
    + cbn [List.length]. lia.
    + intros H. cbn [List.length]. rewrite (Hall H). reflexivity.
Qed.

(** X21. Escape ends the single-window program after the current pass: the
    pass is still drawn, then the loop is left however many passes are on
    offer. *)
Theorem single_escape_leaves_loop (sphereVertices : list float)
    (inp : FrameInput) (rest : list FrameInput) (s : State) :
  shouldClose (windows s 0%nat) = false ->
  key_pressed inp 0%nat KEY_ESCAPE = true ->
  let r := SingleWindow.render_loop sphereVertices (inp :: rest) s in
  value_of r = true /\ frames_presented 0 (trace_of r) = 1%nat.
Proof.
  intros Hlive Hesc r. unfold r. cbn [SingleWindow.render_loop].
  rewrite Hlive. cbn [negb].
  rewrite value_bind, trace_bind, frames_presented_app, single_pass_presents.
  pose proof (single_frame_escape sphereVertices inp s Hesc) as Hflag.
  destruct rest as [|inp2 rest]; cbn [SingleWindow.render_loop];
    rewrite Hflag; cbn; auto.
Qed.

End SingleWindowLoop.

(** * The fragment shader *)

Section FragmentShader.

Import Fragment.
Local Open Scope R_scope.

Lemma dot_self_nonneg (a : rvec3) : 0 <= dot a a.
Proof.
  unfold dot.
  pose proof (Rle_0_sqr (x a)). pose proof (Rle_0_sqr (y a)).
  pose proof (Rle_0_sqr (z a)). unfold Rsqr in *. lra.
Qed.

Lemma cauchy_schwarz (a b : rvec3) :
  dot a b * dot a b <= dot a a * dot b b.
Proof.
  unfold dot. destruct a as [a1 a2 a3], b as [b1 b2 b3]. cbn.
  pose proof (Rle_0_sqr (a1 * b2 - a2 * b1)) as H12.
  pose proof (Rle_0_sqr (a1 * b3 - a3 * b1)) as H13.
  pose proof (Rle_0_sqr (a2 * b3 - a3 * b2)) as H23.
  unfold Rsqr in *. lra.
Qed.

Lemma normalize_defined (a : rvec3) :
  length a <> 0 -> normalize a = Some (direction a).
Proof.
  intros Hne. unfold normalize.
  destruct (Req_EM_T (length a) 0) as [E|_]; [contradiction | reflexivity].
Qed.

Lemma length_positive (a : rvec3) : length a <> 0 -> 0 < length a.
Proof.
  intros Hne. pose proof (sqrt_pos (dot a a)) as Hpos.
  unfold length in *. lra.
Qed.

Lemma direction_unit (a : rvec3) :
  length a <> 0 -> dot (direction a) (direction a) = 1.
Proof.
  intros Hl0. pose proof (dot_self_nonneg a) as Hpos.
  assert (Hl : length a * length a = dot a a)
    by (unfold length; now apply sqrt_sqrt).
  unfold direction, scalar, dot at 1. cbn.
  unfold dot in Hl.
  replace (/ length a * x a * (/ length a * x a)
           + / length a * y a * (/ length a * y a)
           + / length a * z a * (/ length a * z a))
    with ((x a * x a + y a * y a + z a * z a) / (length a * length a))
    by (field; exact Hl0).
  rewrite Hl. field. rewrite <- Hl.
  intros H0. apply Rmult_integral in H0. tauto.
Qed.

Lemma dot_direction_sign (a b : rvec3) :
  length a <> 0 -> length b <> 0 ->
  dot a b <= 0 -> dot (direction a) (direction b) <= 0.
Proof.
  intros Ha Hb Hneg.
  assert (Hla : 0 < / length a)
    by (apply Rinv_0_lt_compat; now apply length_positive).
  assert (Hlb : 0 < / length b)
    by (apply Rinv_0_lt_compat; now apply length_positive).
  unfold direction, scalar, dot. cbn. unfold dot in Hneg.
  replace (/ length a * x a * (/ length b * x b)
           + / length a * y a * (/ length b * y b)
           + / length a * z a * (/ length b * z b))
    with ((/ length a * / length b) * (x a * x b + y a * y b + z a * z b))
    by ring.
  assert (0 < / length a * / length b) by (apply Rmult_lt_0_compat; assumption).
  nra.
Qed.

(** X23. Where the normal is not the zero vector and the fragment is not
    at the light, the diffuse factor is defined and lies between 0 and
    1, and it is 0 whenever the light is not in front of the surface. *)
Theorem diffuse_factor_bounds (FragPos Normal lightPos : rvec3) :
  length Normal <> 0 -> length (sub lightPos FragPos) <> 0 ->
  exists d,
    diff FragPos Normal lightPos = Some d
    /\ 0 <= d <= 1
    /\ (dot Normal (sub lightPos FragPos) <= 0 -> d = 0).
Proof.
  intros Hn Hl. unfold diff.
  rewrite !normalize_defined by assumption.
  eexists. split; [reflexivity|].
  pose proof (direction_unit Normal Hn) as Un.
  pose proof (direction_unit (sub lightPos FragPos) Hl) as Ul.
  pose proof (cauchy_schwarz (direction Normal)
                (direction (sub lightPos FragPos))) as Hcs.
  rewrite Un, Ul in Hcs.
  split; [split|].
  - apply Rmax_r.
  - apply Rmax_lub; [nra | lra].
  - intros Hback. apply Rmax_right. now apply dot_direction_sign.
Qed.

Variable pow : R -> R -> R.

(** What the shader relies on: a power of a non-negative base with a
    positive exponent is not negative. *)
Hypothesis pow_nonneg : forall b e, 0 <= b -> 0 < e -> 0 <= pow b e.

(** X24. With colours that have no negative component, a positive
    shininess, and a fragment at which every vector the shader
    normalises is non-zero (the normal, the directions to the light and
    to the eye, and the sum of these two directions), the shader is
    defined and never darkens below the ambient term: each channel
    written is at least 0.1 times the light colour times the object
    colour, and alpha is 1. *)
Theorem fragment_ambient_floor
    (FragPos Normal ViewPos objectColor lightColor lightPos : rvec3)
    (shininess : R) :
  nonneg objectColor -> nonneg lightColor -> 0 < shininess ->
  length Normal <> 0 ->
  length (sub lightPos FragPos) <> 0 ->
  length (sub ViewPos FragPos) <> 0 ->
  length (add (direction (sub lightPos FragPos))
              (direction (sub ViewPos FragPos))) <> 0 ->
  exists colour,
    main pow FragPos Normal ViewPos objectColor lightColor lightPos shininess
    = Some (colour, 1)
    /\ le (mul (scalar (1 / 10) lightColor) objectColor) colour
    /\ nonneg colour.
Proof.
  intros (Ho1 & Ho2 & Ho3) (Hl1 & Hl2 & Hl3) Hsh Hn Hl Hv Hh.
  unfold main, diff, spec. cbv zeta.
  rewrite (normalize_defined Normal) by assumption.
  rewrite (normalize_defined (sub lightPos FragPos)) by assumption.
  rewrite (normalize_defined (sub ViewPos FragPos)) by assumption.
  cbv beta iota.
  rewrite (normalize_defined _ Hh).
  eexists. split; [reflexivity|].
  set (d := Rmax _ 0).
  set (sp := pow _ shininess).
  assert (Hd : 0 <= d) by apply Rmax_r.
  assert (Hs : 0 <= sp) by (apply pow_nonneg; [apply Rmax_r | exact Hsh]).
  clearbody d sp.
  unfold le, nonneg, mul, add, scalar. cbn.
  assert (Hx : 0 <= d * x lightColor + 1 / 2 * sp * x lightColor) by nra.
  assert (Hy : 0 <= d * y lightColor + 1 / 2 * sp * y lightColor) by nra.
  assert (Hz : 0 <= d * z lightColor + 1 / 2 * sp * z lightColor) by nra.
  repeat split; nra.
Qed.

End FragmentShader.

Section SingleWindowExit.

Context {ops : FloatOps} {ext : Collaborators}.
Import String.
Local Open Scope string_scope.
Local Open Scope list_scope.

Lemma single_render_loop_value (sphereVertices : list float)
    (inputs : list FrameInput) (s : State) :
  value_of (SingleWindow.render_loop sphereVertices inputs s)
  = shouldClose
      (windows (state_of (SingleWindow.render_loop sphereVertices inputs s))
               0%nat).
Proof.
  revert s. induction inputs as [|inp inputs IH]; intros s;
    cbn [SingleWindow.render_loop];
    destruct (shouldClose (windows s 0%nat)) eqn:Hc; cbn [negb].
  - cbn. now rewrite Hc.
  - cbn. now rewrite Hc.
  - cbn. now rewrite Hc.
  - rewrite value_bind, state_bind. apply IH.
Qed.

(** X25. The single-window program returns 0 only when its window was created,
    GLAD was loaded and the window has asked to close; its last calls
    then delete the two vertex arrays and the two buffers and terminate
    GLFW. *)
Theorem single_main_returns_0 (env : Env) (s : State) :
  value_of (SingleWindow.main env s) = Some 0 ->
  window_created env 0%nat = true
  /\ glad_loaded env 0%nat = true
  /\ shouldClose (windows (state_of (SingleWindow.main env s)) 0%nat) = true
  /\ exists before,
       trace_of (SingleWindow.main env s)
       = before ++ [glDelete 0 sphereVAO; glDelete 0 lightCubeVAO;
                    glDelete 0 VBO; glDelete 0 lightVBO; glfwTerminate].
Proof.
  intros H. pose proof (main_returns_0 env s H) as Htrace.
  revert H Htrace. unfold SingleWindow.main.
  destruct (window_created env 0%nat); [|intros H; discriminate H].
  destruct (glad_loaded env 0%nat); [|intros H; discriminate H].
  cbv beta iota zeta delta [negb].
  generalize (generateSphere [] (f_lit (5 # 10)) 24 12) as sv. intros sv.
  unfold SingleWindow.setup_buffers, SingleWindow.teardown.
  set (loop := SingleWindow.render_loop sv (frames env)).
  intros H Htrace.
  repeat split; [|exact Htrace].
  repeat (rewrite value_bind, ?state_bind, ?state_call in H).
  repeat (rewrite state_bind, ?state_call).
  pose proof (single_render_loop_value sv (frames env) s) as Hexit.
  fold loop in Hexit.
  destruct (value_of (loop s)); cbv beta iota zeta delta [negb] in *.
  - repeat (rewrite state_bind, ?state_call, ?state_ret).
    symmetry. exact Hexit.
  - rewrite value_ret in H. discriminate H.
Qed.

End SingleWindowExit.

(** * The further results at concrete parameters *)

(** A sphere of one stack: nothing is appended. *)
Lemma generateSphere_degenerate_witness :
  @Checked.generateSphere Symbolic.sym_ops [] (Symbolic.Lit (1 # 2)) 24 1
  = Some [].
Proof.
  apply (@generateSphere_degenerate Symbolic.sym_ops []
           (Symbolic.Lit (1 # 2)) 24 1).
  - lia.
  - lia.
  - unfold grid_fits, grid_size, Int.INT_MAX. lia.
  - left. lia.
Defined.

(** The buffer of the three-window program. *)
Lemma buffer_holds_whole_triangles_witness :
  exists buffer,
    @Checked.generateSphere Symbolic.sym_ops [] (Symbolic.Lit (1 # 2)) 16 8
    = Some buffer
    /\ Z.of_nat (length buffer)
       = 18 * Z.of_nat (length (spec_triangles 16 8))
    /\ Z.of_nat (length (decode_vertices buffer))
       = 3 * Z.of_nat (length (spec_triangles 16 8))
    /\ vertex_count buffer = 3 * Z.of_nat (length (spec_triangles 16 8))
    /\ 6 * vertex_count buffer = Z.of_nat (length buffer).
Proof.
  apply (@buffer_holds_whole_triangles Symbolic.sym_ops
           (Symbolic.Lit (1 # 2)) 16 8).
  - lia.
  - lia.
  - unfold grid_fits, grid_size, Int.INT_MAX. lia.
Defined.

(** The triangles of the single-window sphere. *)
Lemma triangle_corners_distinct_witness :
  exists tempVertices,
    @Checked.sphereGrid Symbolic.sym_ops (Symbolic.Lit (1 # 2)) 24 12
    = Some tempVertices
    /\ @Checked.generateSphere Symbolic.sym_ops [] (Symbolic.Lit (1 # 2)) 24 12
       = Some ([] ++ flat_map (triangle_floats tempVertices)
                             (spec_triangles 24 12))
    /\ Forall
         (fun t =>
            (fst (fst t) <> snd (fst t) /\ snd (fst t) <> snd t
             /\ fst (fst t) <> snd t)
            /\ 0 <= fst (fst t) < (12 + 1) * (24 + 1)
            /\ 0 <= snd (fst t) < (12 + 1) * (24 + 1)
            /\ 0 <= snd t < (12 + 1) * (24 + 1))
         (spec_triangles 24 12).
Proof.
  apply (@triangle_corners_distinct Symbolic.sym_ops []
           (Symbolic.Lit (1 # 2)) 24 12).
  - lia.
  - lia.
  - unfold grid_fits, grid_size, Int.INT_MAX. lia.
Defined.

Section RunWitnesses.

Import String.
Local Open Scope string_scope.
Local Open Scope list_scope.

(** The middle window in a first pass during which W is held down in
    it: the cube is placed at the light and the eye is the camera moved
    forward. *)
Lemma pass_places_cube_and_eye_witness :
  let inp := Scenario.forward_frame 0 1 in
  let light :=
    animated_light (@time_light Symbolic.sym_ops inp)
                   (lightPos Symbolic.start) in
  let cube :=
    @scale Symbolic.sym_ops Symbolic.sym_ext
           (translate mat4_identity light)
           (vec3_lit (2 # 10) (2 # 10) (2 # 10)) in
  let eye j :=
    @Position Symbolic.sym_ops Symbolic.sym_ext
      (moved_camera (@key_pressed Symbolic.sym_ops inp j)
         (fsub (f_of_d (@time_frame Symbolic.sym_ops inp))
               (lastFrame Symbolic.start))
         (camera (windows Symbolic.start j))) in
  let calls :=
    trace_of (@MultiWindow.frame Symbolic.sym_ops Symbolic.sym_ext []
                inp Symbolic.start) in
  eye 1%nat
  = @Position Symbolic.sym_ops Symbolic.sym_ext
      (Symbolic.CamKey (camera (windows Symbolic.start 1%nat)) FORWARD
         (Symbolic.Sub (Symbolic.Narrow (Symbolic.OfInt 0)) (Symbolic.Lit 0)))
  /\ In (setMat4 1 lightCubeShader "model" cube) calls
  /\ In (setVec3 1 lightingShader "viewPos" (eye 1%nat)) calls
  /\ (forall c m, In c calls -> cube_model c = Some m -> m = cube)
  /\ (forall j sh v, In (setVec3 j sh "viewPos" v) calls -> v = eye j).
Proof.
  split; [reflexivity|].
  apply (@pass_places_cube_and_eye Symbolic.sym_ops Symbolic.sym_ext []
           (Scenario.forward_frame 0 1) Symbolic.start 1%nat).
  - lia.
  - reflexivity.
Defined.

(** Window 1 is closed in a first pass and stays closed over a second. *)
Lemma pass_keeps_close_request_witness :
  shouldClose
    (windows
       (state_of
          (@MultiWindow.frame Symbolic.sym_ops Symbolic.sym_ext []
             (Symbolic.quiet_frame 1)
             (state_of
                (@MultiWindow.frame Symbolic.sym_ops Symbolic.sym_ext []
                   (Symbolic.closing_frame 0 1) Symbolic.start))))
       1%nat)
  = true.
Proof.
  apply (@pass_keeps_close_request Symbolic.sym_ops Symbolic.sym_ext []
           (Symbolic.quiet_frame 1) 1%nat).
  reflexivity.
Defined.

(** Window 2 over a pass in which window 1 is closed. *)
Lemma pass_leaves_idle_window_witness :
  windows
    (state_of
       (@MultiWindow.frame Symbolic.sym_ops Symbolic.sym_ext []
          (Symbolic.closing_frame 0 1) Symbolic.start))
    2%nat
  = windows Symbolic.start 2%nat.
Proof.
  apply (@pass_leaves_idle_window Symbolic.sym_ops Symbolic.sym_ext []
           (Symbolic.closing_frame 0 1) 2%nat Symbolic.start).
  - intros k. reflexivity.
  - intros e [<- | []]. cbn. lia.
Defined.

(** Escape in window 1 during the first of three passes on offer. *)
Lemma escape_leaves_loop_witness :
  value_of
    (@MultiWindow.render_loop Symbolic.sym_ops Symbolic.sym_ext []
       (Scenario.escape_frame 0 1
          :: [Symbolic.quiet_frame 1; Symbolic.quiet_frame 2])
       Symbolic.start)
  = true
  /\ shouldClose
       (windows
          (state_of
             (@MultiWindow.render_loop Symbolic.sym_ops Symbolic.sym_ext []
                (Scenario.escape_frame 0 1
                   :: [Symbolic.quiet_frame 1; Symbolic.quiet_frame 2])
                Symbolic.start))
          1%nat)
     = true
  /\ forall w, (w < 3)%nat ->
       frames_presented w
         (trace_of
            (@MultiWindow.render_loop Symbolic.sym_ops Symbolic.sym_ext []
               (Scenario.escape_frame 0 1
                  :: [Symbolic.quiet_frame 1; Symbolic.quiet_frame 2])
               Symbolic.start))
       = 1%nat.
Proof.
  apply (@escape_leaves_loop Symbolic.sym_ops Symbolic.sym_ext []
           (Scenario.escape_frame 0 1)
           [Symbolic.quiet_frame 1; Symbolic.quiet_frame 2] 1%nat
           Symbolic.start).
  - reflexivity.
  - lia.
  - reflexivity.
Defined.

(** The third window cannot be created. *)
Lemma multi_main_without_window_witness :
  @MultiWindow.main Symbolic.sym_ops Symbolic.sym_ext (Scenario.no_window 2)
    Symbolic.start
  = (Some (-1), Symbolic.start,
     [glfwInit; glfwWindowHint; glfwWindowHint; glfwWindowHint;
      glfwCreateWindow 0; glfwCreateWindow 1; glfwCreateWindow 2;
      print "Failed to create GLFW window"; glfwTerminate]).
Proof.
  apply (@multi_main_without_window Symbolic.sym_ops Symbolic.sym_ext
           (Scenario.no_window 2) Symbolic.start 2%nat).
  - lia.
  - reflexivity.
Defined.

(** GLAD fails for the second window. *)
Lemma multi_main_without_glad_witness :
  value_of (@MultiWindow.main Symbolic.sym_ops Symbolic.sym_ext
              (Scenario.no_glad 1) Symbolic.start)
  = Some (-1)
  /\ terminates_glfw
       (trace_of (@MultiWindow.main Symbolic.sym_ops Symbolic.sym_ext
                    (Scenario.no_glad 1) Symbolic.start))
     = false.
Proof.
  apply (@multi_main_without_glad Symbolic.sym_ops Symbolic.sym_ext
           (Scenario.no_glad 1) Symbolic.start 1%nat).
  - reflexivity.
  - reflexivity.
  - reflexivity.
  - lia.
  - reflexivity.
Defined.

(** A run of the three-window program in which the second window is
    closed during the second pass. *)
Lemma multi_main_returns_0_witness :
  MultiWindow.loop_condition
    (state_of (@MultiWindow.main Symbolic.sym_ops Symbolic.sym_ext
                 (Scenario.healthy
                    [Symbolic.quiet_frame 0; Symbolic.closing_frame 1 1])
                 Symbolic.start))
  = false
  /\ exists before,
       trace_of (@MultiWindow.main Symbolic.sym_ops Symbolic.sym_ext
                   (Scenario.healthy
                      [Symbolic.quiet_frame 0; Symbolic.closing_frame 1 1])
                   Symbolic.start)
       = before
         ++ [delete_Shader 0 lightingShader; delete_Shader 0 lightCubeShader;
             delete_Shader 1 lightingShader; delete_Shader 1 lightCubeShader;
             delete_Shader 2 lightingShader; delete_Shader 2 lightCubeShader;
             glDelete 0 sphereVAO; glDelete 0 lightCubeVAO;
             glDelete 0 VBO; glDelete 0 lightVBO;
             glDelete 1 sphereVAO; glDelete 1 lightCubeVAO;
             glDelete 1 VBO; glDelete 1 lightVBO;
             glDelete 2 sphereVAO; glDelete 2 lightCubeVAO;
             glDelete 2 VBO; glDelete 2 lightVBO;
             glfwTerminate].
Proof.
  apply (@multi_main_returns_0 Symbolic.sym_ops Symbolic.sym_ext
           (Scenario.healthy
              [Symbolic.quiet_frame 0; Symbolic.closing_frame 1 1])
           Symbolic.start).
  reflexivity.
Defined.

(** Escape during the first of two passes of the single-window program. *)
Lemma single_escape_leaves_loop_witness :
  value_of
    (@SingleWindow.render_loop Symbolic.sym_ops Symbolic.sym_ext []
       (Scenario.escape_frame 0 0 :: [Symbolic.quiet_frame 1])
       Symbolic.start)
  = true
  /\ frames_presented 0
       (trace_of
          (@SingleWindow.render_loop Symbolic.sym_ops Symbolic.sym_ext []
             (Scenario.escape_frame 0 0 :: [Symbolic.quiet_frame 1])
             Symbolic.start))
     = 1%nat.
Proof.
  apply (@single_escape_leaves_loop Symbolic.sym_ops Symbolic.sym_ext []
           (Scenario.escape_frame 0 0) [Symbolic.quiet_frame 1]
           Symbolic.start).
  - reflexivity.
  - reflexivity.
Defined.

(** A run of the single-window program in which the window is closed
    during the second pass. *)
Lemma single_main_returns_0_witness :
  window_created
    (Scenario.healthy [Symbolic.quiet_frame 0; Symbolic.closing_frame 1 0])
    0%nat = true
  /\ glad_loaded
       (Scenario.healthy [Symbolic.quiet_frame 0; Symbolic.closing_frame 1 0])
       0%nat = true
  /\ shouldClose
       (windows
          (state_of
             (@SingleWindow.main Symbolic.sym_ops Symbolic.sym_ext
                (Scenario.healthy
                   [Symbolic.quiet_frame 0; Symbolic.closing_frame 1 0])
                Symbolic.start))
          0%nat)
     = true
  /\ exists before,
       trace_of
         (@SingleWindow.main Symbolic.sym_ops Symbolic.sym_ext
            (Scenario.healthy
               [Symbolic.quiet_frame 0; Symbolic.closing_frame 1 0])
            Symbolic.start)
       = before ++ [glDelete 0 sphereVAO; glDelete 0 lightCubeVAO;
                    glDelete 0 VBO; glDelete 0 lightVBO; glfwTerminate].
Proof.
  apply (@single_main_returns_0 Symbolic.sym_ops Symbolic.sym_ext
           (Scenario.healthy
              [Symbolic.quiet_frame 0; Symbolic.closing_frame 1 0])
           Symbolic.start).
  reflexivity.
Defined.

End RunWitnesses.

Section ShaderWitness.

Import Fragment.
Local Open Scope R_scope.

Lemma length_nonzero_above (a : rvec3) : 0 < z a -> length a <> 0.
Proof.
  intros Hz. unfold length. apply Rgt_not_eq. apply sqrt_lt_R0.
  unfold dot. pose proof (Rle_0_sqr (x a)). pose proof (Rle_0_sqr (y a)).
  unfold Rsqr in *. nra.
Qed.

Lemma direction_above (a : rvec3) : 0 < z a -> 0 < z (direction a).
Proof.
  intros Hz. unfold direction, scalar. cbn.
  apply Rmult_lt_0_compat; [|exact Hz].
  apply Rinv_0_lt_compat. apply length_positive.
  now apply length_nonzero_above.
Qed.

(** A fragment at the origin facing up, lit from above and to the side. *)
Lemma diffuse_factor_bounds_witness :
  exists d,
    diff (mk 0 0 0) (mk 0 0 1) (mk 0 2 (35 / 10)) = Some d
    /\ 0 <= d <= 1
    /\ (dot (mk 0 0 1) (sub (mk 0 2 (35 / 10)) (mk 0 0 0)) <= 0 -> d = 0).
Proof.
  apply (diffuse_factor_bounds (mk 0 0 0) (mk 0 0 1) (mk 0 2 (35 / 10)));
    apply length_nonzero_above; cbn; lra.
Defined.

(** The same fragment seen from above, with the colours the programs
    set. *)
Lemma fragment_ambient_floor_witness :
  exists colour,
    main Rpower (mk 0 0 0) (mk 0 0 1) (mk 0 0 3)
         (mk 1 (1 / 2) (31 / 100)) (mk (12 / 10) (12 / 10) (12 / 10))
         (mk 0 2 (35 / 10)) 32
    = Some (colour, 1)
    /\ le (mul (scalar (1 / 10) (mk (12 / 10) (12 / 10) (12 / 10)))
              (mk 1 (1 / 2) (31 / 100)))
          colour
    /\ nonneg colour.
Proof.
  apply (fragment_ambient_floor Rpower).
  - intros b e _ _. left. apply exp_pos.
  - unfold nonneg. cbn. lra.
  - unfold nonneg. cbn. lra.
  - lra.
  - apply length_nonzero_above. cbn. lra.
  - apply length_nonzero_above. cbn. lra.
  - apply length_nonzero_above. cbn. lra.
  - apply length_nonzero_above.
    assert (Ha : 0 < z (direction (sub (mk 0 2 (35 / 10)) (mk 0 0 0))))
      by (apply direction_above; cbn; lra).
    assert (Hb : 0 < z (direction (sub (mk 0 0 3) (mk 0 0 0))))
      by (apply direction_above; cbn; lra).
    unfold add. cbn [z]. lra.
Defined.

End ShaderWitness.
